(** * NetworkSync: a shallow embedding of the synchronisation engine

    Part I models the TypeScript sources of the core library:
    - [hasher.ts]   : [hashString], [hashFile], [hashBuffer],
                      [computeFileChunks], [computeManifestHash];
    - [db.ts]       : the catalog ([NetworkSyncDb]), its [save], its write
                      operations and its queries;
    - [storage.ts]  : the content-addressed store ([ContentStorage]);
    - [scanner.ts]  : [scanDirectory], [buildManifest], [compareManifests];
    - [sync.ts]     : the engine facade ([SyncEngine]).
    Part II ("Properties") states and proves what the specification says of
    them, module by module, and then further properties of the catalog, the
    store, the scanner and the engine that the code itself shows.

    Conventions.  A JavaScript string is represented by the Rocq [string]
    holding its UTF-8 bytes, so that "encode as UTF-8" is the identity on the
    representation and string concatenation is byte concatenation.  A
    JavaScript [number] holding an integer is a [Z]; a [Date] is its
    [getTime()].  File contents are [list byte].  External packages
    (xxhash-wasm, zlib, ignore, the ICU collation behind [localeCompare],
    proper-lockfile) are not part of the repository: they appear as
    variables or as fields of an environment record, and every theorem holds
    for all their behaviours that satisfy the stated hypotheses.  SHA-256,
    which fixes the digests, is written out and checked against the test
    vector of the repository. *)

From Stdlib Require Import ZArith List Ascii String Lia Permutation Sorted DecimalString.
From Stdlib.Strings Require Import Byte.
From stdpp Require Import base gmap strings list fin_maps.

Local Open Scope Z_scope.

(** Byte and string conversions shared by all modules. *)

Definition bytes_of_string (s : string) : list Z :=
  List.map (fun c => Z.of_N (N_of_ascii c)) (list_ascii_of_string s).

(** * SHA-256 ([createHash('sha256')] of node:crypto), after FIPS 180-4 *)

Module Sha256.

Definition w32 : Z := 4294967296.

Definition add32 (a b : Z) : Z := (a + b) mod w32.

Definition rotr (n x : Z) : Z :=
  Z.lor (Z.shiftr x n) ((Z.shiftl x (32 - n)) mod w32).

Definition shr (n x : Z) : Z := Z.shiftr x n.

Definition Ch (x y z : Z) : Z :=
  Z.lxor (Z.land x y) (Z.land (Z.lxor x (w32 - 1)) z).

Definition Maj (x y z : Z) : Z :=
  Z.lxor (Z.lxor (Z.land x y) (Z.land x z)) (Z.land y z).

Definition bigSigma0 (x : Z) : Z := Z.lxor (Z.lxor (rotr 2 x) (rotr 13 x)) (rotr 22 x).
Definition bigSigma1 (x : Z) : Z := Z.lxor (Z.lxor (rotr 6 x) (rotr 11 x)) (rotr 25 x).
Definition smallSigma0 (x : Z) : Z := Z.lxor (Z.lxor (rotr 7 x) (rotr 18 x)) (shr 3 x).
Definition smallSigma1 (x : Z) : Z := Z.lxor (Z.lxor (rotr 17 x) (rotr 19 x)) (shr 10 x).

(** The constants of the standard: the first 32 bits of the fractional
    parts of the cube roots (for [K]) and of the square roots (for [H0]) of
    the first primes. *)
Definition isPrime (n : Z) : bool :=
  forallb (fun d => negb (n mod Z.of_nat d =? 0)) (seq 2 (Z.to_nat n - 2)).

Definition primes (count : nat) : list Z :=
  firstn count (List.filter isPrime (List.map Z.of_nat (seq 2 400))).

Fixpoint bisect (fuel : nat) (lo hi n : Z) : Z :=
  match fuel with
  | O => lo
  | S fuel' =>
      if hi - lo <=? 1 then lo
      else let mid := (lo + hi) / 2 in
           if mid * mid * mid <=? n then bisect fuel' mid hi n else bisect fuel' lo mid n
  end.

Definition cubeRoot (n : Z) : Z := bisect (S (Z.to_nat (Z.log2 n))) 0 (n + 1) n.

Definition K : list Z :=
  Eval vm_compute in
    List.map (fun p => cubeRoot (p * 2 ^ 96) mod w32) (primes 64).

(** The eight working variables / the chaining value. *)
Record state : Type := mkState {
  ha : Z; hb : Z; hc : Z; hd : Z; he : Z; hf : Z; hg : Z; hh : Z
}.

Definition rootBits (p : Z) : Z := Z.sqrt (p * 2 ^ 64) mod w32.

Definition H0 : state :=
  Eval vm_compute in
    mkState (rootBits 2) (rootBits 3) (rootBits 5) (rootBits 7)
            (rootBits 11) (rootBits 13) (rootBits 17) (rootBits 19).

(** Padding: a 1 bit, zeros, and the bit length on 64 bits, big endian. *)
Definition be_bytes (n : nat) (v : Z) : list Z :=
  List.map (fun i => (Z.shiftr v (8 * Z.of_nat i)) mod 256) (rev (seq 0 n)).

Definition pad (msg : list Z) : list Z :=
  let len := Z.of_nat (length msg) in
  msg ++ [128] ++ repeat 0 (Z.to_nat ((55 - len) mod 64)) ++ be_bytes 8 (8 * len).

Fixpoint words (fuel : nat) (l : list Z) : list Z :=
  match fuel, l with
  | S fuel', b0 :: b1 :: b2 :: b3 :: rest =>
      (((b0 * 256 + b1) * 256 + b2) * 256 + b3) :: words fuel' rest
  | _, _ => []
  end.

Fixpoint blocks (fuel : nat) (ws : list Z) : list (list Z) :=
  match fuel, ws with
  | _, [] => []
  | O, _ => []
  | S fuel', _ => firstn 16 ws :: blocks fuel' (skipn 16 ws)
  end.

(** Message schedule: sixteen block words extended to sixty-four. *)
Fixpoint extend (n : nat) (w : list Z) : list Z :=
  match n with
  | O => w
  | S n' =>
      let t := length w in
      let x := add32 (add32 (smallSigma1 (nth (t - 2) w 0)) (nth (t - 7) w 0))
                     (add32 (smallSigma0 (nth (t - 15) w 0)) (nth (t - 16) w 0)) in
      extend n' (w ++ [x])
  end.

Definition round (s : state) (kw : Z * Z) : state :=
  let t1 := add32 (add32 (add32 (hh s) (bigSigma1 (he s))) (Ch (he s) (hf s) (hg s)))
                  (add32 (fst kw) (snd kw)) in
  let t2 := add32 (bigSigma0 (ha s)) (Maj (ha s) (hb s) (hc s)) in
  mkState (add32 t1 t2) (ha s) (hb s) (hc s) (add32 (hd s) t1) (he s) (hf s) (hg s).

Definition compress (h : state) (block : list Z) : state :=
  let s := fold_left round (combine K (extend 48 block)) h in
  mkState (add32 (ha h) (ha s)) (add32 (hb h) (hb s)) (add32 (hc h) (hc s))
          (add32 (hd h) (hd s)) (add32 (he h) (he s)) (add32 (hf h) (hf s))
          (add32 (hg h) (hg s)) (add32 (hh h) (hh s)).

Definition digest (msg : list Z) : state :=
  let p := pad msg in
  fold_left compress (blocks (length p) (words (length p) p)) H0.

(** [digest('hex')]: lower-case hexadecimal, eight digits per word. *)
Definition hex_digit (d : Z) : ascii :=
  nth (Z.to_nat d)
      (list_ascii_of_string "0123456789abcdef") "0"%char.

Definition hex_word (w : Z) : string :=
  String (hex_digit ((w / 268435456) mod 16))
  (String (hex_digit ((w / 16777216) mod 16))
  (String (hex_digit ((w / 1048576) mod 16))
  (String (hex_digit ((w / 65536) mod 16))
  (String (hex_digit ((w / 4096) mod 16))
  (String (hex_digit ((w / 256) mod 16))
  (String (hex_digit ((w / 16) mod 16))
  (String (hex_digit (w mod 16)) EmptyString))))))).

Definition hex_state (s : state) : string :=
  String.append (hex_word (ha s)) (String.append (hex_word (hb s))
  (String.append (hex_word (hc s)) (String.append (hex_word (hd s))
  (String.append (hex_word (he s)) (String.append (hex_word (hf s))
  (String.append (hex_word (hg s)) (hex_word (hh s)))))))).

Definition sha256_hex (msg : list Z) : string := hex_state (digest msg).

End Sha256.

(** * JavaScript values shared by the modules *)

(** What a [throw] carries: an [Error] object with its message, or any other
    value (the engine reports the latter as 'Unknown error'). *)
Inductive Thrown : Type :=
  | ErrorObj (message : string)
  | NonError.

(** The completion of a call: a returned value or a thrown one (for an
    [async] function: the promise fulfilled or rejected). *)
Inductive Outcome (A : Type) : Type :=
  | Returned (a : A)
  | Threw (e : Thrown).
Arguments Returned {A} a.
Arguments Threw {A} e.

(** [String.prototype] operations used by the sources, on UTF-8 strings. *)
Module JsString.

Fixpoint of_list (l : list ascii) : string :=
  match l with
  | [] => EmptyString
  | c :: l' => String c (of_list l')
  end.

(** [s.includes(c)] for a one-character needle. *)
Fixpoint includes_char (c : ascii) (s : string) : bool :=
  match s with
  | EmptyString => false
  | String d s' => if Ascii.eqb c d then true else includes_char c s'
  end.

(** [s.split(c)] for a one-character separator: never empty. *)
Fixpoint split_char (c : ascii) (s : string) : list string :=
  match s with
  | EmptyString => [EmptyString]
  | String d s' =>
      if Ascii.eqb c d then EmptyString :: split_char c s'
      else match split_char c s' with
           | [] => [String d EmptyString]
           | piece :: pieces => String d piece :: pieces
           end
  end.

(** [arr.pop()] on a non-empty array: its last element. *)
Definition pop (pieces : list string) : string := List.last pieces EmptyString.

(** [s.startsWith(p)]. *)
Fixpoint startsWith (p s : string) : bool :=
  match p, s with
  | EmptyString, _ => true
  | String a p', String b s' => if Ascii.eqb a b then startsWith p' s' else false
  | String _ _, EmptyString => false
  end.

Fixpoint drop (n : nat) (s : string) : string :=
  match n, s with
  | O, _ => s
  | S n', String _ s' => drop n' s'
  | S _, EmptyString => EmptyString
  end.

(** [s.replace(pattern, replacement)] with a string pattern: only the first
    occurrence is replaced (the replacements used by the sources contain no
    dollar sign). *)
Fixpoint replace_first (pattern replacement s : string) : string :=
  if startsWith pattern s
  then String.append replacement (drop (String.length pattern) s)
  else match s with
       | EmptyString => EmptyString
       | String c s' => String c (replace_first pattern replacement s')
       end.

(** [s.replace(/\\/g, '/')]: every backslash becomes a slash. *)
Fixpoint slashes (s : string) : string :=
  match s with
  | EmptyString => EmptyString
  | String c s' => String (if Ascii.eqb c "\"%char then "/"%char else c) (slashes s')
  end.

(** [arr.join(sep)]. *)
Fixpoint join (sep : string) (l : list string) : string :=
  match l with
  | [] => EmptyString
  | [x] => x
  | x :: l' => String.append x (String.append sep (join sep l'))
  end.

(** [s.padStart(n, c)] with a one-character filler. *)
Definition padStart (n : nat) (c : ascii) (s : string) : string :=
  String.append (of_list (repeat c (n - String.length s))) s.

(** [BigInt.prototype.toString(16)]. *)
Fixpoint hex_digits (fuel : nat) (n : N) (acc : string) : string :=
  let d := Sha256.hex_digit (Z.of_N (N.modulo n 16)) in
  match fuel with
  | O => String d acc
  | S fuel' =>
      if N.ltb n 16 then String d acc
      else hex_digits fuel' (N.div n 16) (String d acc)
  end.

Definition toString16 (n : N) : string := hex_digits (N.to_nat (N.log2 n)) n EmptyString.

(** Comparison of two strings by their bytes, as a JavaScript comparator
    result (negative, zero, positive). *)
Fixpoint compareBytes (a b : string) : Z :=
  match a, b with
  | EmptyString, EmptyString => 0
  | EmptyString, String _ _ => -1
  | String _ _, EmptyString => 1
  | String x a', String y b' =>
      let d := Z.of_N (N_of_ascii x) - Z.of_N (N_of_ascii y) in
      if d =? 0 then compareBytes a' b' else d
  end.

End JsString.

(** [path.join] of node:path on a directory and a relative path that is
    already normalised (no [.] or [..] segment, no doubled separator). *)
Definition join (dir rel : string) : string :=
  String.append dir (String.append "/" rel).

(** [Array.prototype.sort(comparefn)]: ECMAScript requires a stable sort; for a
    consistent comparator the result is the stable sorted arrangement, which
    insertion from the right computes. *)
Module JsArray.
Section Sort.
Context {A : Type}.
Variable comparefn : A -> A -> Z.

Fixpoint insert (x : A) (l : list A) : list A :=
  match l with
  | [] => [x]
  | y :: l' => if comparefn x y <=? 0 then x :: y :: l' else y :: insert x l'
  end.

Definition sort (l : list A) : list A := List.fold_right insert [] l.

End Sort.
End JsArray.

(** [Map] of JavaScript with string keys: insertion ordered; setting an
    existing key replaces the value and keeps the key's position. *)
Module JsMap.
Section JsMap.
Context {V : Type}.

Definition t : Type := list (string * V).

Fixpoint set (m : t) (k : string) (v : V) : t :=
  match m with
  | [] => [(k, v)]
  | (k', v') :: m' => if String.eqb k' k then (k', v) :: m' else (k', v') :: set m' k v
  end.

(** [new Map(pairs)]. *)
Definition of_pairs (pairs : list (string * V)) : t :=
  List.fold_left (fun m kv => set m (fst kv) (snd kv)) pairs [].

Fixpoint get (m : t) (k : string) : option V :=
  match m with
  | [] => None
  | (k', v) :: m' => if String.eqb k' k then Some v else get m' k
  end.

Definition has (m : t) (k : string) : bool :=
  match get m k with Some _ => true | None => false end.

Definition keys (m : t) : list string := List.map fst m.

End JsMap.
End JsMap.

(** * types.ts *)

(** A [Date] is its [getTime()]: milliseconds since the epoch. *)
Definition Date : Type := Z.

Record Project : Type := mkProject {
  p_id : string;
  p_name : string;
  p_createdAt : Date;
  p_lastSyncAt : option Date
}.

Record Snapshot : Type := mkSnapshot {
  s_id : string;
  s_projectId : string;
  s_message : string;
  s_createdAt : Date;
  s_createdBy : string;
  s_manifestHash : string;
  s_fileCount : Z;
  s_totalSize : Z;
  s_branch : string
}.

Record FileEntry : Type := mkFileEntry {
  path : string;
  hash : string;
  e_size : Z;
  modifiedAt : Date;
  isDirectory : bool
}.

Record FileManifest : Type := mkFileManifest {
  m_projectId : string;
  m_createdAt : Date;
  m_rootHash : string;
  entries : list FileEntry
}.

Record Conflict : Type := mkConflict {
  c_path : string;
  localEntry : FileEntry;
  remoteEntry : FileEntry;
  localModifiedAt : Date;
  remoteModifiedAt : Date
}.

Record FileLock : Type := mkFileLock {
  l_projectId : string;
  l_path : string;
  l_machineName : string;
  l_lockedAt : Date
}.

(** * hasher.ts *)

Module Hasher.

(** [hashString(str)]: SHA-256 of the UTF-8 encoding, in hexadecimal. *)
Definition hashString (str : string) : string :=
  Sha256.sha256_hex (bytes_of_string str).

(** [hashFile(filePath)] on the bytes read from the file: xxHash-64 of the
    stream, [digest().toString(16).padStart(16, '0')].  The digest function
    of xxhash-wasm is a variable of the model. *)
Definition hashFile (xxh64 : list byte -> N) (content : list byte) : string :=
  JsString.padStart 16 "0" (JsString.toString16 (xxh64 content)).

(** The argument type of [computeManifestHash]: [{ path; hash }]. *)
Record ManifestEntry : Type := mkManifestEntry {
  me_path : string;
  me_hash : string
}.

Section ComputeManifestHash.
(** [a.localeCompare(b)]: the collation of the host's locale. *)
Variable localeCompare : string -> string -> Z.

Definition byPath (a b : ManifestEntry) : Z := localeCompare (me_path a) (me_path b).

Definition record (e : ManifestEntry) : string :=
  String.append (me_path e) (String.append ":" (me_hash e)).

Definition computeManifestHash (entries : list ManifestEntry) : string :=
  let sorted := JsArray.sort byPath entries in
  let combined := JsString.join (String (ascii_of_nat 10) EmptyString) (List.map record sorted) in
  hashString combined.

End ComputeManifestHash.

End Hasher.

(** * db.ts: the catalog *)

Module Db.

(** Rows of [file_entries]; the other tables hold [Project], [Snapshot] and
    [FileLock] values column by column.  Timestamps are stored as ISO-8601
    text ([toISOString]), whose order is the order of the instants. *)
Record FileEntryRow : Type := mkFileEntryRow {
  r_snapshot_id : string;
  r_path : string;
  r_hash : string;
  r_size : Z;
  r_modified_at : Date
}.

Record BranchRow : Type := mkBranchRow {
  b_project_id : string;
  b_name : string;
  b_created_at : Date
}.

Record Tables : Type := mkTables {
  projects : list Project;
  snapshots : list Snapshot;
  branches : list BranchRow;
  file_entries : list FileEntryRow;
  file_locks : list FileLock
}.

Definition emptyTables : Tables := mkTables [] [] [] [] [].

(** The class [NetworkSyncDb]: the in-memory image ([null] before
    [initialize]), the path of the catalog file and the dirty flag.
    [foreign_keys] is the SQLite setting of the same name, which decides
    whether the FOREIGN KEY clauses of the schema are enforced. *)
Record NetworkSyncDb : Type := mkDb {
  db : option Tables;
  dbPath : string;
  dirty : bool;
  foreign_keys : bool
}.

Definition with_image (d : NetworkSyncDb) (t : Tables) : NetworkSyncDb :=
  mkDb (Some t) (dbPath d) true (foreign_keys d).

(** The steps a durable write can be made of.  [IoWriteFile p image] is
    [writeFile(p, buffer)] of node:fs/promises with the exported image: it
    opens [p] itself for writing and overwrites it. *)
Inductive IoEvent : Type :=
  | IoWriteFile (file : string) (image : Tables)
  | IoFsync (file : string)
  | IoRename (src dst : string).

(** The result of a catalog method: its completion, the object afterwards and
    the file operations it started. *)
Record Res (A : Type) : Type := mkRes {
  res_out : Outcome A;
  res_db : NetworkSyncDb;
  res_io : list IoEvent
}.
Arguments mkRes {A} _ _ _.
Arguments res_out {A} _.
Arguments res_db {A} _.
Arguments res_io {A} _.

Definition notInitialized {A : Type} (d : NetworkSyncDb) : Res A :=
  mkRes (Threw (ErrorObj "Database not initialized")) d [].

Definition sqlError {A : Type} (msg : string) (d : NetworkSyncDb) (io : list IoEvent) : Res A :=
  mkRes (Threw (ErrorObj msg)) d io.

(** [save()]: nothing when there is no image or it is clean; otherwise the
    image is exported and written to [dbPath].  The callers do not await the
    promise; the model lets the write settle (and clear [dirty]) at once. *)
Definition save (d : NetworkSyncDb) : NetworkSyncDb * list IoEvent :=
  match db d with
  | None => (d, [])
  | Some t =>
      if dirty d
      then (mkDb (Some t) (dbPath d) false (foreign_keys d), [IoWriteFile (dbPath d) t])
      else (d, [])
  end.

(** [this.dirty = true; this.save()] after a statement produced image [t]. *)
Definition commit {A : Type} (d : NetworkSyncDb) (t : Tables) (a : A) (before : list IoEvent) : Res A :=
  let (d', io) := save (with_image d t) in
  mkRes (Returned a) d' (before ++ io).

Definition hasProject (t : Tables) (id : string) : bool :=
  existsb (fun p => String.eqb (p_id p) id) (projects t).

Definition hasSnapshot (t : Tables) (id : string) : bool :=
  existsb (fun sn => String.eqb (s_id sn) id) (snapshots t).

(** A FOREIGN KEY holds, or is not enforced. *)
Definition fk_ok (d : NetworkSyncDb) (present : bool) : bool :=
  negb (foreign_keys d) || present.

Definition createProject (d : NetworkSyncDb) (project : Project) : Res unit :=
  match db d with
  | None => notInitialized d
  | Some t =>
      if hasProject t (p_id project)
      then sqlError "UNIQUE constraint failed: projects.id" d []
      else commit d (mkTables (projects t ++ [project]) (snapshots t) (branches t)
                              (file_entries t) (file_locks t)) tt []
  end.

Definition getProject (d : NetworkSyncDb) (id : string) : Outcome (option Project) :=
  match db d with
  | None => Threw (ErrorObj "Database not initialized")
  | Some t => Returned (List.find (fun p => String.eqb (p_id p) id) (projects t))
  end.

(** [updates: Partial<Pick<Project, 'name' | 'lastSyncAt'>>]: each field may
    be absent; [lastSyncAt] may be present and [null]. *)
Record ProjectUpdates : Type := mkUpdates {
  u_name : option string;
  u_lastSyncAt : option (option Date)
}.

Definition applyUpdates (u : ProjectUpdates) (id : string) (p : Project) : Project :=
  if String.eqb (p_id p) id
  then mkProject (p_id p)
                 (match u_name u with Some n => n | None => p_name p end)
                 (p_createdAt p)
                 (match u_lastSyncAt u with Some l => l | None => p_lastSyncAt p end)
  else p.

Definition updateProject (d : NetworkSyncDb) (id : string) (u : ProjectUpdates) : Res unit :=
  match db d with
  | None => notInitialized d
  | Some t =>
      match u_name u, u_lastSyncAt u with
      | None, None => mkRes (Returned tt) d []
      | _, _ =>
          commit d (mkTables (List.map (applyUpdates u id) (projects t)) (snapshots t)
                             (branches t) (file_entries t) (file_locks t)) tt []
      end
  end.

(** Rows that go with a deleted parent when ON DELETE CASCADE is enforced. *)
Definition keepSnapshot (d : NetworkSyncDb) (projectId : string) (sn : Snapshot) : bool :=
  negb (foreign_keys d && String.eqb (s_projectId sn) projectId).

Definition deleteProject (d : NetworkSyncDb) (id : string) : Res unit :=
  match db d with
  | None => notInitialized d
  | Some t =>
      let snaps := List.filter (keepSnapshot d id) (snapshots t) in
      let kept := fun sid => negb (foreign_keys d) || existsb (fun sn => String.eqb (s_id sn) sid) snaps
                             || negb (hasSnapshot t sid) in
      commit d (mkTables (List.filter (fun p => negb (String.eqb (p_id p) id)) (projects t))
                         snaps
                         (List.filter (fun b => negb (foreign_keys d && String.eqb (b_project_id b) id))
                                      (branches t))
                         (List.filter (fun r => kept (r_snapshot_id r)) (file_entries t))
                         (file_locks t)) tt []
  end.

(** [createBranch]: INSERT OR IGNORE inside [try]; a failing statement is
    swallowed and then nothing is saved. *)
Definition createBranch (d : NetworkSyncDb) (projectId name : string) (now : Date) : Res unit :=
  match db d with
  | None => notInitialized d
  | Some t =>
      if fk_ok d (hasProject t projectId)
      then
        let present := existsb (fun b => String.eqb (b_project_id b) projectId
                                         && String.eqb (b_name b) name) (branches t) in
        let rows := if present then branches t else branches t ++ [mkBranchRow projectId name now] in
        commit d (mkTables (projects t) (snapshots t) rows (file_entries t) (file_locks t)) tt []
      else mkRes (Returned tt) d []
  end.

Definition branchOrMain (branch : string) : string :=
  if String.eqb branch "" then "main"%string else branch.

Definition rowOf (snapshotId : string) (e : FileEntry) : FileEntryRow :=
  mkFileEntryRow snapshotId (path e) (hash e) (e_size e) (modifiedAt e).

(** The loop of INSERT INTO file_entries: the first constraint failure throws
    and leaves the rows inserted so far in the image. *)
Fixpoint insertEntries (t : Tables) (snapshotId : string) (es : list FileEntry)
  : Tables * option string :=
  match es with
  | [] => (t, None)
  | e :: es' =>
      if existsb (fun r => String.eqb (r_snapshot_id r) snapshotId && String.eqb (r_path r) (path e))
                 (file_entries t)
      then (t, Some "UNIQUE constraint failed: file_entries.snapshot_id, file_entries.path"%string)
      else insertEntries (mkTables (projects t) (snapshots t) (branches t)
                                   (file_entries t ++ [rowOf snapshotId e]) (file_locks t))
                         snapshotId es'
  end.

Definition createSnapshot (d : NetworkSyncDb) (snapshot : Snapshot) (es : list FileEntry) (now : Date)
  : Res unit :=
  match db d with
  | None => notInitialized d
  | Some t =>
      if hasSnapshot t (s_id snapshot)
      then sqlError "UNIQUE constraint failed: snapshots.id" d []
      else if negb (fk_ok d (hasProject t (s_projectId snapshot)))
      then sqlError "FOREIGN KEY constraint failed" d []
      else
        let row := mkSnapshot (s_id snapshot) (s_projectId snapshot) (s_message snapshot)
                              (s_createdAt snapshot) (s_createdBy snapshot) (s_manifestHash snapshot)
                              (s_fileCount snapshot) (s_totalSize snapshot)
                              (branchOrMain (s_branch snapshot)) in
        let d1 := mkDb (Some (mkTables (projects t) (snapshots t ++ [row]) (branches t)
                                       (file_entries t) (file_locks t)))
                       (dbPath d) (dirty d) (foreign_keys d) in
        let b := createBranch d1 (s_projectId snapshot) (branchOrMain (s_branch snapshot)) now in
        match db (res_db b) with
        | None => notInitialized (res_db b)
        | Some t2 =>
            match insertEntries t2 (s_id snapshot) es with
            | (t3, Some msg) =>
                sqlError msg (mkDb (Some t3) (dbPath d) (dirty (res_db b)) (foreign_keys d)) (res_io b)
            | (t3, None) => commit (res_db b) t3 tt (res_io b)
            end
        end
  end.

Definition getSnapshot (d : NetworkSyncDb) (id : string) : Outcome (option Snapshot) :=
  match db d with
  | None => Threw (ErrorObj "Database not initialized")
  | Some t => Returned (List.find (fun sn => String.eqb (s_id sn) id) (snapshots t))
  end.

(** ORDER BY created_at DESC LIMIT 1: a row with the greatest timestamp (the
    first such row of the table when several share it). *)
Definition newest (best : option Snapshot) (sn : Snapshot) : option Snapshot :=
  match best with
  | None => Some sn
  | Some b => if s_createdAt b <? s_createdAt sn then Some sn else Some b
  end.

Definition onBranch (projectId branch : string) (sn : Snapshot) : bool :=
  String.eqb (s_projectId sn) projectId && String.eqb (s_branch sn) branch.

Definition getLatestSnapshot (d : NetworkSyncDb) (projectId branch : string)
  : Outcome (option Snapshot) :=
  match db d with
  | None => Threw (ErrorObj "Database not initialized")
  | Some t =>
      Returned (List.fold_left newest (List.filter (onBranch projectId branch) (snapshots t)) None)
  end.

Definition mapFileEntry (r : FileEntryRow) : FileEntry :=
  mkFileEntry (r_path r) (r_hash r) (r_size r) (r_modified_at r) false.

Definition getSnapshotEntries (d : NetworkSyncDb) (snapshotId : string) : Outcome (list FileEntry) :=
  match db d with
  | None => Threw (ErrorObj "Database not initialized")
  | Some t =>
      Returned (List.map mapFileEntry
                  (List.filter (fun r => String.eqb (r_snapshot_id r) snapshotId) (file_entries t)))
  end.

Definition deleteSnapshot (d : NetworkSyncDb) (id : string) : Res unit :=
  match db d with
  | None => notInitialized d
  | Some t =>
      commit d (mkTables (projects t)
                         (List.filter (fun sn => negb (String.eqb (s_id sn) id)) (snapshots t))
                         (branches t)
                         (List.filter (fun r => negb (String.eqb (r_snapshot_id r) id)) (file_entries t))
                         (file_locks t)) tt []
  end.

(** SELECT DISTINCT hash FROM file_entries, collected in a [Set]. *)
Definition getAllReferencedHashes (d : NetworkSyncDb) : Outcome (gset string) :=
  match db d with
  | None => Threw (ErrorObj "Database not initialized")
  | Some t => Returned (list_to_set (List.map r_hash (file_entries t)))
  end.

Definition lockOn (projectId file : string) (l : FileLock) : bool :=
  String.eqb (l_projectId l) projectId && String.eqb (l_path l) file.

Definition acquireFileLock (d : NetworkSyncDb) (projectId file machineName : string) (now : Date)
  : Res bool :=
  match db d with
  | None => notInitialized d
  | Some t =>
      if existsb (lockOn projectId file) (file_locks t)
      then mkRes (Returned false) d []
      else commit d (mkTables (projects t) (snapshots t) (branches t) (file_entries t)
                              (file_locks t ++ [mkFileLock projectId file machineName now])) true []
  end.

Definition releaseFileLock (d : NetworkSyncDb) (projectId file machineName : string) : Res bool :=
  match db d with
  | None => notInitialized d
  | Some t =>
      match List.find (lockOn projectId file) (file_locks t) with
      | None => mkRes (Returned true) d []
      | Some l =>
          if String.eqb (l_machineName l) machineName
          then commit d (mkTables (projects t) (snapshots t) (branches t) (file_entries t)
                                  (List.filter (fun l' => negb (lockOn projectId file l')) (file_locks t)))
                        true []
          else mkRes (Returned false) d []
      end
  end.

End Db.

(** * storage.ts: the content-addressed store *)

Module Storage.

(** What [objects/] may contain: a plain file, or a prefix directory of blobs
    (file name to on-disk bytes). *)
Inductive Node : Type :=
  | File (content : list byte)
  | Dir (files : gmap string (list byte)).

(** The two directories the class owns, as initialised by [initialize()].
    The file system of the model has no transient fault: an operation fails
    only because of what exists at the paths it names. *)
Record ContentStorage : Type := mkStorage {
  objects : gmap string Node;
  temp : gmap string (list byte)
}.

(** A local file system: path to content (directories are implied). *)
Abbreviation LocalFs := (gmap string (list byte)).

Section Storage.
(** xxhash-wasm's 64-bit digest, and zlib's streams: [gzip] is the whole
    output of [createGzip] on an input; [gunzip] gives the bytes [createGunzip]
    emitted and whether it ended without error. *)
Variable xxh64 : list byte -> N.
Variable gzip : list byte -> list byte.
Variable gunzip : list byte -> list byte * bool.

Definition prefixOf (hash : string) : string := String.substring 0 2 hash.

(** The blob at [getObjectPath(hash)], when that path is a file. *)
Definition blobAt (st : ContentStorage) (hash : string) : option (list byte) :=
  match objects st !! prefixOf hash with
  | Some (Dir files) => files !! hash
  | _ => None
  end.

Definition exists_ (st : ContentStorage) (hash : string) : bool :=
  match blobAt st hash with Some _ => true | None => false end.

Definition getSize (st : ContentStorage) (hash : string) : option Z :=
  match blobAt st hash with Some b => Some (Z.of_nat (length b)) | None => None end.

Definition tempName (hash : string) (now : Z) : string :=
  String.append hash (String.append "." (String.append (NilZero.string_of_int (Z.to_int now)) ".tmp")).

(** [storeFile(sourcePath)]; [now] is [Date.now()].  The source is hashed;
    an existing blob ends the call; otherwise the prefix directory is made
    ([mkdir] fails on a plain file of that name), the gzip stream goes to
    [temp/<hash>.<now>.tmp] and that file is renamed to the object path.
    The [catch] that unlinks the temporary file guards faults the model does
    not have. *)
Definition storeFile (st : ContentStorage) (fs : LocalFs) (sourcePath : string) (now : Z)
  : Outcome string * ContentStorage :=
  match fs !! sourcePath with
  | None => (Threw (ErrorObj "ENOENT: no such file or directory"), st)
  | Some content =>
      let hash := Hasher.hashFile xxh64 content in
      if exists_ st hash then (Returned hash, st)
      else
        match objects st !! prefixOf hash with
        | Some (File _) => (Threw (ErrorObj "EEXIST: file already exists"), st)
        | node =>
            let dir := match node with Some (Dir files) => files | _ => ∅ end in
            let staged := <[tempName hash now := gzip content]> (temp st) in
            (Returned hash,
             mkStorage (<[prefixOf hash := Dir (<[hash := gzip content]> dir)]> (objects st))
                       (delete (tempName hash now) staged))
        end
  end.

Definition isGzipped (blob : list byte) : bool :=
  match blob with
  | b0 :: b1 :: _ => Byte.eqb b0 x1f && Byte.eqb b1 x8b
  | _ => false
  end.

(** [retrieveFile(hash, destPath)]: the answer and the local file system
    afterwards (with or without [onProgress], which only changes how the
    bytes are copied).  A missing blob or a failing gunzip stream answers
    [false] through the [catch]; a destination whose hash is not [hash] is
    unlinked. *)
Definition retrieveFile (st : ContentStorage) (fs : LocalFs) (hash destPath : string)
  : bool * LocalFs :=
  match blobAt st hash with
  | None => (false, fs)
  | Some blob =>
      let '(written, ended) := if isGzipped blob then gunzip blob else (blob, true) in
      let fs1 := <[destPath := written]> fs in
      if ended
      then if String.eqb (Hasher.hashFile xxh64 written) hash
           then (true, fs1)
           else (false, delete destPath fs1)
      else (false, fs1)
  end.


(** The inner loop of [prune] over one prefix directory, in the order of
    [readdir]: the files left, the number of blobs unlinked and their on-disk
    bytes ([stat] and [unlink] of a file just listed succeed). *)
Definition pruneStep (activeHashes : gset string)
    (acc : gmap string (list byte) * Z * Z) (entry : string * list byte)
  : gmap string (list byte) * Z * Z :=
  let '(files, deletedCount, deletedSize) := acc in
  if decide (entry.1 ∈ activeHashes) then acc
  else (delete entry.1 files, deletedCount + 1, deletedSize + Z.of_nat (length entry.2)).

Definition pruneDir (activeHashes : gset string) (files : gmap string (list byte))
    (deletedCount deletedSize : Z) : gmap string (list byte) * Z * Z :=
  foldl (pruneStep activeHashes) (files, deletedCount, deletedSize) (map_to_list files).

(** The outer loop over [readdir(objectsPath)]: entries that are not
    directories are skipped; a prefix directory left empty is removed. *)
Definition pruneOuter (activeHashes : gset string)
    (acc : gmap string Node * Z * Z) (entry : string * Node) : gmap string Node * Z * Z :=
  let '(objs, deletedCount, deletedSize) := acc in
  match entry.2 with
  | File _ => acc
  | Dir files =>
      let '(remaining, c, sz) := pruneDir activeHashes files deletedCount deletedSize in
      if decide (remaining = ∅)
      then (delete entry.1 objs, c, sz)
      else (<[entry.1 := Dir remaining]> objs, c, sz)
  end.

Definition prune (st : ContentStorage) (activeHashes : gset string) : ContentStorage * (Z * Z) :=
  let '(objs, deletedCount, deletedSize) :=
    foldl (pruneOuter activeHashes) (objects st, 0, 0) (map_to_list (objects st)) in
  (mkStorage objs (temp st), (deletedCount, deletedSize)).

(** A blob named [hash] is on disk, in whichever prefix directory. *)
Definition blobPresent (st : ContentStorage) (hash : string) : Prop :=
  exists prefix files, objects st !! prefix = Some (Dir files) /\ is_Some (files !! hash).

End Storage.
End Storage.

(** * scanner.ts *)

Module Scanner.

Record HashCacheEntry : Type := mkCacheEntry {
  hc_mtime : Z;
  hc_size : Z;
  hc_hash : string
}.

(** The JSON object of [.sync/cache.json], keyed by relative path. *)
Abbreviation HashCache := (gmap string HashCacheEntry).

(** One regular, non-ignored file met by [walk], with what [stat] and the
    read stream give when the file is processed. *)
Record WalkedFile : Type := mkWalked {
  relativePath : string;
  w_mtime : Date;
  w_size : Z;
  w_content : list byte
}.

Record ScanResult : Type := mkScanResult {
  sr_entries : list FileEntry;
  totalSize : Z;
  fileCount : Z;
  directoryCount : Z;
  scannedAt : Date
}.

(** Operations on the local project tree that the scanner and the engine
    start, in program order. *)
Inductive Event : Type :=
  | EvWriteFile (file : string) (cache : HashCache)
  | EvRename (src dst : string)
  | EvRetrieve (blob dest : string)
  | EvUnlink (file : string).

Section Scan.
Variable xxh64 : list byte -> N.

(** [processFile] with [computeHashes] at its default [true]. *)
Definition fileHash (cache : HashCache) (f : WalkedFile) : string :=
  match cache !! relativePath f with
  | Some cached =>
      if (hc_mtime cached =? w_mtime f) && (hc_size cached =? w_size f)
      then hc_hash cached
      else Hasher.hashFile xxh64 (w_content f)
  | None => Hasher.hashFile xxh64 (w_content f)
  end.

Definition processFile (cache : HashCache) (f : WalkedFile) : FileEntry :=
  mkFileEntry (relativePath f) (fileHash cache f) (w_size f) (w_mtime f) false.

Definition newCacheOf (cache : HashCache) (files : list WalkedFile) : HashCache :=
  List.fold_left
    (fun nc f => <[relativePath f := mkCacheEntry (w_mtime f) (w_size f) (fileHash cache f)]> nc)
    files ∅.

(** [scanDirectory(rootPath, { cachePath })].  [walked] is the completion of
    the directory walk and of the per-file [stat] and read: the files found
    and the number of directories; [cache] is what [loadCache] returned.  On
    success the new cache is written to [cachePath] ([saveCache] swallows
    its own errors). *)
Definition scanDirectory (walked : Outcome (list WalkedFile * Z)) (cache : HashCache)
    (cachePath : string) (scannedAt : Date) : Outcome ScanResult * list Event :=
  match walked with
  | Threw e => (Threw e, [])
  | Returned (files, dirs) =>
      let es := List.map (processFile cache) files in
      (Returned (mkScanResult es (List.fold_left (fun sum e => sum + e_size e) es 0)
                              (Z.of_nat (length es)) dirs scannedAt),
       [EvWriteFile cachePath (newCacheOf cache files)])
  end.

End Scan.

Definition manifestEntryOf (e : FileEntry) : Hasher.ManifestEntry :=
  Hasher.mkManifestEntry (path e) (hash e).

Definition buildManifest (localeCompare : string -> string -> Z)
    (projectId : string) (scanResult : ScanResult) : FileManifest :=
  mkFileManifest projectId (scannedAt scanResult)
    (Hasher.computeManifestHash localeCompare (List.map manifestEntryOf (sr_entries scanResult)))
    (sr_entries scanResult).

Definition byPathPairs (es : list FileEntry) : list (string * FileEntry) :=
  List.map (fun e => (path e, e)) es.

Record ManifestDiff : Type := mkDiff {
  added : list FileEntry;
  modified : list FileEntry;
  deleted : list string;
  unchanged : list FileEntry
}.

Definition compareStep (remoteMap : JsMap.t) (acc : ManifestDiff) (kv : string * FileEntry)
  : ManifestDiff :=
  match JsMap.get remoteMap (fst kv) with
  | None => mkDiff (added acc ++ [snd kv]) (modified acc) (deleted acc) (unchanged acc)
  | Some remoteEntry =>
      if String.eqb (hash (snd kv)) (hash remoteEntry)
      then mkDiff (added acc) (modified acc) (deleted acc) (unchanged acc ++ [snd kv])
      else mkDiff (added acc) (modified acc ++ [snd kv]) (deleted acc) (unchanged acc)
  end.

Definition compareManifests (local remote : FileManifest) : ManifestDiff :=
  let localMap := JsMap.of_pairs (byPathPairs (entries local)) in
  let remoteMap := JsMap.of_pairs (byPathPairs (entries remote)) in
  let d := List.fold_left (compareStep remoteMap) localMap (mkDiff [] [] [] []) in
  mkDiff (added d) (modified d)
         (List.filter (fun p => negb (JsMap.has localMap p)) (JsMap.keys remoteMap))
         (unchanged d).

End Scanner.

(** * sync.ts: the engine facade *)

Module Sync.
Import Scanner.

Inductive Resolution : Type := keep_local | keep_remote | keep_both.

Record ConflictResolution : Type := mkResolution {
  cr_path : string;
  resolution : Resolution
}.

Record PushResult : Type := mkPushResult {
  push_success : bool;
  snapshot : option Snapshot;
  filesAdded : Z;
  filesModified : Z;
  push_filesDeleted : Z;
  push_bytesTransferred : Z;
  push_error : option string
}.

Record PullResult : Type := mkPullResult {
  success : bool;
  filesDownloaded : Z;
  filesDeleted : Z;
  bytesTransferred : Z;
  conflicts : list Conflict;
  error : option string
}.

(** Everything an operation takes from outside the repository's code: the
    external packages, and the completions of the calls into the operating
    system whose results steer the control flow.
    - [ignores patterns p] is [ignore().add(patterns).ignores(p)];
    - [acquire] and [release] are the completions of [NasLock.acquire] and of
      the release handle it returns;
    - [walked] and [cache] feed [scanDirectory];
    - [renameFile src dst] is the completion of [rename(src, dst)]. *)
Record Env : Type := mkEnv {
  xxh64 : list byte -> N;
  gzip : list byte -> list byte;
  localeCompare : string -> string -> Z;
  ignores : list string -> string -> bool;
  acquire : Outcome unit;
  release : Outcome unit;
  walked : Outcome (list WalkedFile * Z);
  cache : HashCache;
  renameFile : string -> string -> Outcome unit;
  uuid : string;
  now : Date
}.

(** [error instanceof Error ? error.message : 'Unknown error']. *)
Definition errorMessage (e : Thrown) : string :=
  match e with
  | ErrorObj message => message
  | NonError => "Unknown error"%string
  end.

Definition pushFailure (e : Thrown) : PushResult :=
  mkPushResult false None 0 0 0 0 (Some (errorMessage e)).

Definition pullFailure (e : Thrown) : PullResult :=
  mkPullResult false 0 0 0 [] (Some (errorMessage e)).

(** [try { body } catch (error) { return failure } finally { release }]:
    a throwing body becomes the failure result; a rejected [release] rejects
    the operation, whatever the [try] block returned. *)
Definition settle {R : Type} (env : Env) (failure : Thrown -> R) (body : Outcome R) : Outcome R :=
  let result := match body with Returned r => r | Threw e => failure e end in
  match release env with
  | Threw e => Threw e
  | Returned _ => Returned result
  end.

(** [createIgnoreMatcher(patterns).ignores(path)] of ignore.ts. *)
Definition matcherIgnores (env : Env) (patterns : list string) (p : string) : bool :=
  ignores env patterns (JsString.slashes p).

(** [selectiveMatcher]: set only for a non-empty [includePatterns]. *)
Definition selectiveMatcher (env : Env) (includePatterns : option (list string))
  : option (string -> bool) :=
  match includePatterns with
  | Some (p :: ps) => Some (matcherIgnores env (p :: ps))
  | _ => None
  end.

(** [selectiveMatcher && !selectiveMatcher.ignores(path)]. *)
Definition notSelected (m : option (string -> bool)) (p : string) : bool :=
  match m with
  | Some ignoresPath => negb (ignoresPath p)
  | None => false
  end.

Definition cachePathOf (localPath : string) : string :=
  join (join localPath ".sync") "cache.json".

Definition scanLocal (env : Env) (localPath : string) : Outcome ScanResult * list Event :=
  scanDirectory (xxh64 env) (walked env) (cache env) (cachePathOf localPath) (now env).

(** The first loop of [pull]: downloads and conflicts, over [remoteMap]. *)
Definition pullStep (m : option (string -> bool)) (localMap : JsMap.t)
    (acc : list FileEntry * list Conflict) (kv : string * FileEntry)
  : list FileEntry * list Conflict :=
  let '(filesToDownload, cfs) := acc in
  if notSelected m (fst kv) then acc
  else match JsMap.get localMap (fst kv) with
       | None => (filesToDownload ++ [snd kv], cfs)
       | Some localE =>
           if String.eqb (hash localE) (hash (snd kv)) then acc
           else if modifiedAt localE >? modifiedAt (snd kv)
           then (filesToDownload,
                 cfs ++ [mkConflict (fst kv) localE (snd kv) (modifiedAt localE) (modifiedAt (snd kv))])
           else (filesToDownload ++ [snd kv], cfs)
       end.

(** The first loop of [restoreSnapshot]. *)
Definition restoreStep (m : option (string -> bool)) (localMap : JsMap.t)
    (filesToDownload : list FileEntry) (kv : string * FileEntry) : list FileEntry :=
  if notSelected m (fst kv) then filesToDownload
  else match JsMap.get localMap (fst kv) with
       | None => filesToDownload ++ [snd kv]
       | Some localE =>
           if String.eqb (hash localE) (hash (snd kv)) then filesToDownload
           else filesToDownload ++ [snd kv]
       end.

(** The second loop of both: [!inRemote || !inSelective]. *)
Definition toDelete (m : option (string -> bool)) (remoteMap : @JsMap.t FileEntry) (p : string) : bool :=
  negb (JsMap.has remoteMap p) || notSelected m p.

Definition filesToDeleteOf (m : option (string -> bool)) (localMap remoteMap : @JsMap.t FileEntry)
  : list string :=
  List.filter (toDelete m remoteMap) (JsMap.keys localMap).

(** The comparison "from the remote perspective" of [pull], of
    [restoreSnapshot], and the deletions of both, from the entries of the
    local scan and of the snapshot. *)
Definition pullDiff (m : option (string -> bool)) (localEntries remoteEntries : list FileEntry)
  : list FileEntry * list Conflict :=
  let localMap := JsMap.of_pairs (byPathPairs localEntries) in
  let remoteMap := JsMap.of_pairs (byPathPairs remoteEntries) in
  List.fold_left (pullStep m localMap) remoteMap ([], []).

Definition restoreDiff (m : option (string -> bool)) (localEntries remoteEntries : list FileEntry)
  : list FileEntry :=
  let localMap := JsMap.of_pairs (byPathPairs localEntries) in
  let remoteMap := JsMap.of_pairs (byPathPairs remoteEntries) in
  List.fold_left (restoreStep m localMap) remoteMap [].

Definition pullDeletes (m : option (string -> bool)) (localEntries remoteEntries : list FileEntry)
  : list string :=
  filesToDeleteOf m (JsMap.of_pairs (byPathPairs localEntries))
                    (JsMap.of_pairs (byPathPairs remoteEntries)).

(** The name given to the local file under [keep_both]. *)
Definition conflictPathOf (p : string) : string :=
  let ext := if JsString.includes_char "." p
             then String.append "." (JsString.pop (JsString.split_char "." p))
             else EmptyString in
  let baseName := JsString.replace_first ext EmptyString p in
  String.append baseName (String.append ".local" ext).

(** The loop over the conflicts once resolutions are given. *)
Fixpoint applyResolutions (env : Env) (localPath : string) (resolutionMap : @JsMap.t Resolution)
    (cfs : list Conflict) (filesToDownload : list FileEntry)
  : Outcome (list FileEntry) * list Event :=
  match cfs with
  | [] => (Returned filesToDownload, [])
  | conflict :: rest =>
      match JsMap.get resolutionMap (c_path conflict) with
      | Some keep_remote =>
          applyResolutions env localPath resolutionMap rest (filesToDownload ++ [remoteEntry conflict])
      | Some keep_both =>
          let localFilePath := join localPath (c_path conflict) in
          let conflictFilePath := join localPath (conflictPathOf (c_path conflict)) in
          match renameFile env localFilePath conflictFilePath with
          | Threw e => (Threw e, [EvRename localFilePath conflictFilePath])
          | Returned _ =>
              let '(out, evs) :=
                applyResolutions env localPath resolutionMap rest
                                 (filesToDownload ++ [remoteEntry conflict]) in
              (out, EvRename localFilePath conflictFilePath :: evs)
          end
      | _ => applyResolutions env localPath resolutionMap rest filesToDownload
      end
  end.

Definition sumSizes (files : list FileEntry) : Z :=
  List.fold_left (fun sum f => sum + e_size f) files 0.

(** Phases "download" and "delete": one [retrieveFile] per entry (its
    boolean answer is not looked at), then one [unlink] per path (its errors
    are swallowed).  The batches of twenty run in list order. *)
Definition transferEvents (localPath : string) (filesToDownload : list FileEntry)
    (filesToDelete : list string) : list Event :=
  List.map (fun f => EvRetrieve (hash f) (join localPath (path f))) filesToDownload
  ++ List.map (fun p => EvUnlink (join localPath p)) filesToDelete.

(** Phases "download" and "delete" of [pull] after the resolutions: a
    rejected rename ends the operation; otherwise the transfers run and the
    counts are reported. *)
Definition pullTransfer (localPath : string) (ev0 : list Event)
    (resolved : Outcome (list FileEntry) * list Event) (filesToDelete : list string)
  : Outcome PullResult * list Event :=
  match fst resolved with
  | Threw e => (Threw e, ev0 ++ snd resolved)
  | Returned downloads =>
      (Returned (mkPullResult true (Z.of_nat (length downloads))
                              (Z.of_nat (length filesToDelete))
                              (sumSizes downloads) [] None),
       ev0 ++ snd resolved ++ transferEvents localPath downloads filesToDelete)
  end.

Definition pullBody (env : Env) (d : Db.NetworkSyncDb) (project : Project)
    (localPath branch : string) (conflictResolutions : option (list ConflictResolution))
    (includePatterns : option (list string)) : Outcome PullResult * list Event :=
  let '(scan, ev0) := scanLocal env localPath in
  match scan with
  | Threw e => (Threw e, ev0)
  | Returned scanResult =>
      let localManifest := buildManifest (localeCompare env) (p_id project) scanResult in
      match Db.getLatestSnapshot d (p_id project) branch with
      | Threw e => (Threw e, ev0)
      | Returned None => (Returned (mkPullResult true 0 0 0 [] None), ev0)
      | Returned (Some latestSnapshot) =>
          match Db.getSnapshotEntries d (s_id latestSnapshot) with
          | Threw e => (Threw e, ev0)
          | Returned remoteEntries =>
              let m := selectiveMatcher env includePatterns in
              let '(filesToDownload, cfs) := pullDiff m (entries localManifest) remoteEntries in
              let filesToDelete := pullDeletes m (entries localManifest) remoteEntries in
              match cfs, conflictResolutions with
              | _ :: _, None => (Returned (mkPullResult false 0 0 0 cfs None), ev0)
              | _, Some rs =>
                  pullTransfer localPath ev0
                    (applyResolutions env localPath
                       (JsMap.of_pairs (List.map (fun r => (cr_path r, resolution r)) rs))
                       cfs filesToDownload)
                    filesToDelete
              | [], None => pullTransfer localPath ev0 (Returned filesToDownload, []) filesToDelete
              end
          end
      end
  end.

(** [pull]: [await this.lock.acquire(machineName, 'pull')] stands before the
    [try], so a rejected [acquire] rejects the operation. *)
Definition pull (env : Env) (d : Db.NetworkSyncDb) (project : Project)
    (localPath branch : string) (conflictResolutions : option (list ConflictResolution))
    (includePatterns : option (list string)) : Outcome PullResult * list Event :=
  match acquire env with
  | Threw e => (Threw e, [])
  | Returned _ =>
      let run := pullBody env d project localPath branch conflictResolutions includePatterns in
      (settle env pullFailure (fst run), snd run)
  end.

Definition restoreBody (env : Env) (d : Db.NetworkSyncDb) (project : Project)
    (localPath snapshotId : string) (includePatterns : option (list string))
  : Outcome PullResult * list Event :=
  match Db.getSnapshot d snapshotId with
  | Threw e => (Threw e, [])
  | Returned None => (Threw (ErrorObj "Snapshot not found"), [])
  | Returned (Some _) =>
      let '(scan, ev0) := scanLocal env localPath in
      match scan with
      | Threw e => (Threw e, ev0)
      | Returned scanResult =>
          let localManifest := buildManifest (localeCompare env) (p_id project) scanResult in
          match Db.getSnapshotEntries d snapshotId with
          | Threw e => (Threw e, ev0)
          | Returned remoteEntries =>
              let m := selectiveMatcher env includePatterns in
              let filesToDownload := restoreDiff m (entries localManifest) remoteEntries in
              let filesToDelete := pullDeletes m (entries localManifest) remoteEntries in
              (Returned (mkPullResult true (Z.of_nat (length filesToDownload))
                                      (Z.of_nat (length filesToDelete))
                                      (sumSizes filesToDownload) [] None),
               ev0 ++ transferEvents localPath filesToDownload filesToDelete)
          end
      end
  end.

Definition restoreSnapshot (env : Env) (d : Db.NetworkSyncDb) (project : Project)
    (localPath snapshotId : string) (includePatterns : option (list string))
  : Outcome PullResult * list Event :=
  match acquire env with
  | Threw e => (Threw e, [])
  | Returned _ =>
      let run := restoreBody env d project localPath snapshotId includePatterns in
      (settle env pullFailure (fst run), snd run)
  end.

(** State and completion of a [push]. *)
Record PushRun (R : Type) : Type := mkPushRun {
  run_out : Outcome R;
  run_db : Db.NetworkSyncDb;
  run_storage : Storage.ContentStorage
}.
Arguments mkPushRun {R} _ _ _.
Arguments run_out {R} _.
Arguments run_db {R} _.
Arguments run_storage {R} _.

(** Phase 3 of [push]: [exists(file.hash)] and, failing that,
    [storeFile(localFilePath)].  The stores of a batch run concurrently; the
    model takes them in list order and stops at the first rejection. *)
Fixpoint transferAll (env : Env) (st : Storage.ContentStorage) (fs : Storage.LocalFs)
    (localPath : string) (files : list FileEntry) : Outcome unit * Storage.ContentStorage :=
  match files with
  | [] => (Returned tt, st)
  | file :: rest =>
      if Storage.exists_ st (hash file)
      then transferAll env st fs localPath rest
      else match Storage.storeFile (xxh64 env) (gzip env) st fs (join localPath (path file)) (now env) with
           | (Threw e, st') => (Threw e, st')
           | (Returned _, st') => transferAll env st' fs localPath rest
           end
  end.

Definition pushBody (env : Env) (d : Db.NetworkSyncDb) (st : Storage.ContentStorage)
    (fs : Storage.LocalFs) (project : Project) (localPath machineName message branch : string)
  : PushRun PushResult :=
  match fst (scanLocal env localPath) with
  | Threw e => mkPushRun (Threw e) d st
  | Returned scanResult =>
      let localManifest := buildManifest (localeCompare env) (p_id project) scanResult in
      match Db.getLatestSnapshot d (p_id project) branch with
      | Threw e => mkPushRun (Threw e) d st
      | Returned latestSnapshot =>
          match (match latestSnapshot with
                 | Some sn => Db.getSnapshotEntries d (s_id sn)
                 | None => Returned []
                 end) with
          | Threw e => mkPushRun (Threw e) d st
          | Returned remoteEntries =>
              let remoteManifest :=
                mkFileManifest (p_id project)
                  (match latestSnapshot with Some sn => s_createdAt sn | None => now env end)
                  (match latestSnapshot with Some sn => s_manifestHash sn | None => EmptyString end)
                  remoteEntries in
              let diff := compareManifests localManifest remoteManifest in
              let filesToTransfer := added diff ++ modified diff in
              match transferAll env st fs localPath filesToTransfer with
              | (Threw e, st') => mkPushRun (Threw e) d st'
              | (Returned _, st') =>
                  let manifestHash :=
                    Hasher.computeManifestHash (localeCompare env)
                      (List.map manifestEntryOf (entries localManifest)) in
                  let sn := mkSnapshot (uuid env) (p_id project) message (now env) machineName
                                       manifestHash (Z.of_nat (length (entries localManifest)))
                                       (totalSize scanResult) branch in
                  let created := Db.createSnapshot d sn (entries localManifest) (now env) in
                  match Db.res_out created with
                  | Threw e => mkPushRun (Threw e) (Db.res_db created) st'
                  | Returned _ =>
                      let updated := Db.updateProject (Db.res_db created) (p_id project)
                                       (Db.mkUpdates None (Some (Some (now env)))) in
                      match Db.res_out updated with
                      | Threw e => mkPushRun (Threw e) (Db.res_db updated) st'
                      | Returned _ =>
                          mkPushRun
                            (Returned (mkPushResult true (Some sn)
                                         (Z.of_nat (length (added diff)))
                                         (Z.of_nat (length (modified diff)))
                                         (Z.of_nat (length (deleted diff)))
                                         (sumSizes filesToTransfer) None))
                            (Db.res_db updated) st'
                      end
                  end
              end
          end
      end
  end.

Definition push (env : Env) (d : Db.NetworkSyncDb) (st : Storage.ContentStorage)
    (fs : Storage.LocalFs) (project : Project) (localPath machineName message branch : string)
  : PushRun PushResult :=
  match acquire env with
  | Threw e => mkPushRun (Threw e) d st
  | Returned _ =>
      let run := pushBody env d st fs project localPath machineName message branch in
      mkPushRun (settle env pushFailure (run_out run)) (run_db run) (run_storage run)
  end.



End Sync.

(** * db.ts: the queries beside the ones the engine's operations use *)

Module DbQueries.
Import Db.




(** [getProjectBranches]: the names ORDER BY name (BINARY collation), or
    ['main'] when the project has no row. *)
Definition getProjectBranches (d : NetworkSyncDb) (projectId : string) : Outcome (list string) :=
  match db d with
  | None => Threw (ErrorObj "Database not initialized")
  | Some t =>
      let results :=
        JsArray.sort JsString.compareBytes
          (List.map b_name
             (List.filter (fun b => String.eqb (b_project_id b) projectId) (branches t))) in
      Returned (match results with [] => ["main"%string] | _ => results end)
  end.

(** [isHashInUse]: SELECT 1 FROM file_entries WHERE hash = ? LIMIT 1. *)
Definition isHashInUse (d : NetworkSyncDb) (h : string) : Outcome bool :=
  match db d with
  | None => Threw (ErrorObj "Database not initialized")
  | Some t => Returned (existsb (fun r => String.eqb (r_hash r) h) (file_entries t))
  end.

Definition getFileLocks (d : NetworkSyncDb) (projectId : string) : Outcome (list FileLock) :=
  match db d with
  | None => Threw (ErrorObj "Database not initialized")
  | Some t => Returned (List.filter (fun l => String.eqb (l_projectId l) projectId) (file_locks t))
  end.

Definition getFileLock (d : NetworkSyncDb) (projectId file : string) : Outcome (option FileLock) :=
  match db d with
  | None => Threw (ErrorObj "Database not initialized")
  | Some t => Returned (List.find (lockOn projectId file) (file_locks t))
  end.

End DbQueries.

(** * hasher.ts: buffers and chunks *)

Module HasherChunks.

(** [hashBuffer(buffer)]: SHA-256 of the bytes, in hexadecimal. *)
Definition hashBuffer (buffer : list byte) : string :=
  Sha256.sha256_hex (List.map (fun b => Z.of_N (Byte.to_N b)) buffer).

Record ChunkInfo : Type := mkChunkInfo {
  ch_index : Z;
  ch_offset : Z;
  ch_size : Z;
  ch_hash : string
}.

(** The ['data'] handler of [computeFileChunks]: the record pushed for one
    buffer, and the counters [index] and [offset] afterwards. *)
Definition onData (xxh64 : list byte -> N) (acc : list ChunkInfo * Z * Z) (buf : list byte)
  : list ChunkInfo * Z * Z :=
  let '(chunks, index, offset) := acc in
  (chunks ++ [mkChunkInfo index offset (Z.of_nat (length buf)) (Hasher.hashFile xxh64 buf)],
   index + 1, offset + Z.of_nat (length buf)).

(** [computeFileChunks(filePath, chunkSize)] on a stream that ends: [reads]
    are the buffers of its ['data'] events in order (node cuts the file into
    buffers of at most [chunkSize] bytes). *)
Definition computeFileChunks (xxh64 : list byte -> N) (reads : list (list byte)) : list ChunkInfo :=
  (List.fold_left (onData xxh64) reads ([], 0, 0)).1.1.

End HasherChunks.

(** * storage.ts: the operations beside store, retrieve and prune *)

Module StorageOps.
Import Storage.

(** [storeBuffer(data)]: the key is [hashBuffer(data)]; the bytes are
    written as they are, not compressed. *)
Definition storeBuffer (st : ContentStorage) (data : list byte) : Outcome string * ContentStorage :=
  let hash := HasherChunks.hashBuffer data in
  if exists_ st hash then (Returned hash, st)
  else
    match objects st !! prefixOf hash with
    | Some (File _) => (Threw (ErrorObj "EEXIST: file already exists"), st)
    | node =>
        let dir := match node with Some (Dir files) => files | _ => ∅ end in
        (Returned hash,
         mkStorage (<[prefixOf hash := Dir (<[hash := data]> dir)]> (objects st)) (temp st))
    end.


(** [getStats()]: [(objectCount, totalSize)], over the prefix directories in
    the order of [readdir]. *)
Definition statsFile (acc : Z * Z) (entry : string * list byte) : Z * Z :=
  (acc.1 + 1, acc.2 + Z.of_nat (length entry.2)).

Definition statsPrefix (acc : Z * Z) (entry : string * Node) : Z * Z :=
  match entry.2 with
  | File _ => acc
  | Dir files => foldl statsFile acc (map_to_list files)
  end.

Definition getStats (st : ContentStorage) : Z * Z :=
  foldl statsPrefix (0, 0) (map_to_list (objects st)).

(** [getAllHashes()]: the file names of every prefix directory. *)
Definition getAllHashes (st : ContentStorage) : list string :=
  foldl (fun hashes (entry : string * Node) =>
           match entry.2 with
           | File _ => hashes
           | Dir files => hashes ++ (map_to_list files).*1
           end)
        [] (map_to_list (objects st)).

End StorageOps.

(** * sync.ts: status and single-file restore *)

Module SyncQueries.
Import Scanner Sync.

(** The answer of [getStatus]: the diff with [unchanged] as a count, and
    the two sizes. *)
Record Status : Type := mkStatus {
  st_added : list FileEntry;
  st_modified : list FileEntry;
  st_deleted : list string;
  st_unchanged : Z;
  localSize : Z;
  remoteSize : Z
}.

(** [getStatus(project, localPath, branch)]: the scan (which writes the
    cache), then the comparison [push] makes; no lock is taken and nothing
    is caught. *)
Definition getStatus (env : Env) (d : Db.NetworkSyncDb) (project : Project)
    (localPath branch : string) : Outcome Status * list Event :=
  let '(scan, ev0) := scanLocal env localPath in
  match scan with
  | Threw e => (Threw e, ev0)
  | Returned scanResult =>
      let localManifest := buildManifest (localeCompare env) (p_id project) scanResult in
      match Db.getLatestSnapshot d (p_id project) branch with
      | Threw e => (Threw e, ev0)
      | Returned latestSnapshot =>
          match (match latestSnapshot with
                 | Some sn => Db.getSnapshotEntries d (s_id sn)
                 | None => Returned []
                 end) with
          | Threw e => (Threw e, ev0)
          | Returned remoteEntries =>
              let remoteManifest :=
                mkFileManifest (p_id project)
                  (match latestSnapshot with Some sn => s_createdAt sn | None => now env end)
                  (match latestSnapshot with Some sn => s_manifestHash sn | None => EmptyString end)
                  remoteEntries in
              let diff := compareManifests localManifest remoteManifest in
              (Returned (mkStatus (added diff) (modified diff) (deleted diff)
                                  (Z.of_nat (length (unchanged diff)))
                                  (totalSize scanResult)
                                  (match latestSnapshot with
                                   | Some sn => s_totalSize sn
                                   | None => 0
                                   end)),
               ev0)
          end
      end
  end.


End SyncQueries.

(** * Properties *)

(** ** Sorting with a consistent comparator *)

Module SortFacts.
Section SortFacts.
Context {A : Type}.
Variable comparefn : A -> A -> Z.

Definition le (a b : A) : Prop := comparefn a b <= 0.

Lemma insert_perm (x : A) (l : list A) :
  Permutation (JsArray.insert comparefn x l) (x :: l).
Proof.
  induction l as [| y l IH]; simpl.
  - apply Permutation_refl.
  - destruct (comparefn x y <=? 0).
    + apply Permutation_refl.
    + apply Permutation_trans with (y :: x :: l).
      * apply perm_skip. exact IH.
      * apply perm_swap.
Qed.

Lemma sort_perm (l : list A) : Permutation (JsArray.sort comparefn l) l.
Proof.
  induction l as [| x l IH]; simpl.
  - apply perm_nil.
  - apply Permutation_trans with (x :: JsArray.sort comparefn l).
    + apply insert_perm.
    + apply perm_skip. exact IH.
Qed.

(** A consistent comparator: the signs of [comparefn a b] and
    [comparefn b a] are opposite, and "not after" is transitive. *)
Hypothesis sign_antisym : forall a b, Z.sgn (comparefn a b) = - Z.sgn (comparefn b a).
Hypothesis le_trans : forall a b c, le a b -> le b c -> le a c.

Lemma le_total (a b : A) : le a b \/ le b a.
Proof.
  unfold le. specialize (sign_antisym a b).
  destruct (Z.sgn_spec (comparefn a b)) as [[? ?]|[[? ?]|[? ?]]];
    destruct (Z.sgn_spec (comparefn b a)) as [[? ?]|[[? ?]|[? ?]]]; lia.
Qed.

Lemma le_both_zero (a b : A) : le a b -> le b a -> comparefn a b = 0.
Proof.
  unfold le. intros Hab Hba. specialize (sign_antisym a b).
  destruct (Z.sgn_spec (comparefn a b)) as [[? ?]|[[? ?]|[? ?]]];
    destruct (Z.sgn_spec (comparefn b a)) as [[? ?]|[[? ?]|[? ?]]]; lia.
Qed.

Lemma insert_sorted (x : A) (l : list A) :
  StronglySorted le l -> StronglySorted le (JsArray.insert comparefn x l).
Proof.
  induction 1 as [| y l Hs IH Hall]; simpl.
  - constructor; constructor.
  - destruct (comparefn x y <=? 0) eqn:E.
    + apply Z.leb_le in E. constructor.
      * constructor; assumption.
      * constructor; [exact E |].
        eapply List.Forall_impl; [| exact Hall]. intros z Hz. eapply le_trans; eassumption.
    + apply Z.leb_gt in E. constructor; [exact IH |].
      assert (Hyx : le y x) by (destruct (le_total x y) as [H | H]; [unfold le in H; lia | exact H]).
      eapply Permutation_Forall; [apply Permutation_sym, insert_perm |].
      constructor; assumption.
Qed.

Lemma sort_sorted (l : list A) : StronglySorted le (JsArray.sort comparefn l).
Proof.
  induction l as [| x l IH]; simpl.
  - constructor.
  - apply insert_sorted. exact IH.
Qed.

(** Two sorted arrangements of the same elements coincide as soon as
    elements that compare equal are equal. *)
Lemma sorted_perm_unique (l1 l2 : list A) :
  StronglySorted le l1 -> StronglySorted le l2 -> Permutation l1 l2 ->
  (forall a b, In a l1 -> In b l1 -> comparefn a b = 0 -> a = b) ->
  l1 = l2.
Proof.
  intros H1. revert l2. induction H1 as [| a l1 Hs1 IH Hall1]; intros l2 H2 Hp Heq.
  - apply Permutation_nil in Hp. symmetry. exact Hp.
  - destruct l2 as [| b l2].
    + apply Permutation_sym, Permutation_nil in Hp. discriminate.
    + inversion H2 as [| b' l2' Hs2 Hall2]; subst.
      assert (Hab : a = b).
      { assert (Hina : In a (b :: l2)) by (eapply Permutation_in; [exact Hp | left; reflexivity]).
        assert (Hinb : In b (a :: l1))
          by (eapply Permutation_in; [apply Permutation_sym; exact Hp | left; reflexivity]).
        destruct Hina as [Hba | Hina]; [symmetry; exact Hba |].
        destruct Hinb as [Hab | Hinb]; [exact Hab |].
        apply Heq; [left; reflexivity | right; exact Hinb |].
        apply le_both_zero.
        - rewrite List.Forall_forall in Hall1. apply Hall1. exact Hinb.
        - rewrite List.Forall_forall in Hall2. apply Hall2. exact Hina. }
      subst b. f_equal. apply IH.
      * exact Hs2.
      * eapply Permutation_cons_inv. exact Hp.
      * intros x y Hx Hy. apply Heq; right; assumption.
Qed.

Lemma sort_permutation_invariant (l1 l2 : list A) :
  (forall a b, In a l1 -> In b l1 -> comparefn a b = 0 -> a = b) ->
  Permutation l1 l2 ->
  JsArray.sort comparefn l2 = JsArray.sort comparefn l1.
Proof.
  intros Heq Hp. symmetry. apply sorted_perm_unique.
  - apply sort_sorted.
  - apply sort_sorted.
  - apply Permutation_trans with l1; [apply sort_perm |].
    apply Permutation_trans with l2; [exact Hp | apply Permutation_sym, sort_perm].
  - intros a b Ha Hb. apply Heq; (eapply Permutation_in; [apply sort_perm | assumption]).
Qed.

End SortFacts.
End SortFacts.

(** ** hasher.ts: the manifest digest *)

Module HasherProps.
Import Hasher.

Definition newline : string := String (ascii_of_nat 10) EmptyString.
Definition tab : string := String (ascii_of_nat 9) EmptyString.

Fixpoint concatAll (l : list string) : string :=
  match l with
  | [] => EmptyString
  | x :: l' => String.append x (concatAll l')
  end.

(** The digest as the specification words it: records [path TAB hash LF],
    one per entry, entries ordered by bytewise comparison of their paths. *)
Definition specRecord (e : ManifestEntry) : string :=
  String.append (me_path e) (String.append tab (String.append (me_hash e) newline)).

Definition manifestDigestSpec (E : list ManifestEntry) : string :=
  Sha256.sha256_hex
    (bytes_of_string (concatAll (List.map specRecord (JsArray.sort (byPath JsString.compareBytes) E)))).

(** A record of the code followed by a line feed. *)
Definition recordLine (e : ManifestEntry) : string :=
  String.append (me_path e) (String.append ":" (String.append (me_hash e) newline)).

(** The vector of core/test/basic.test.ts ("SHA-256 of hello world"), the
    digest of the empty string, and the formatting of a 64-bit digest. *)
Example hashString_hello_world :
  hashString "hello world"
  = "b94d27b9934d3e08a52e52d7da7dabfac484efe37a5380ee9088f7ace2efcde9"%string.
Proof. vm_compute. reflexivity. Qed.

Example hashString_empty :
  hashString ""
  = "e3b0c44298fc1c149afbf4c8996fb92427ae41e4649b934ca495991b7852b855"%string.
Proof. vm_compute. reflexivity. Qed.

Example hashString_two_blocks :
  hashString "abcdbcdecdefdefgefghfghighijhijkijkljklmklmnlmnomnopnopq"
  = "248d6a61d20638b8e5c026930c3e6039a33ce45964ff2167f6ecedd419db06c1"%string.
Proof. vm_compute. reflexivity. Qed.

Example hashFile_pads (content : list byte) :
  hashFile (fun _ => 3054%N) content = "0000000000000bee"%string /\
  hashFile (fun _ => 18446744073709551615%N) content = "ffffffffffffffff"%string /\
  hashFile (fun _ => 0%N) content = "0000000000000000"%string.
Proof. repeat split; vm_compute; reflexivity. Qed.

Definition isHexChar (c : ascii) : Prop :=
  In c (list_ascii_of_string "0123456789abcdef").

Lemma hex_digit_is_hex (d : Z) : isHexChar (Sha256.hex_digit d).
Proof.
  unfold isHexChar, Sha256.hex_digit.
  destruct (nth_in_or_default (Z.to_nat d) (list_ascii_of_string "0123456789abcdef") "0"%char)
    as [H | H].
  - exact H.
  - rewrite H. simpl. left. reflexivity.
Qed.

Lemma sha256_hex_length (msg : list Z) : String.length (Sha256.sha256_hex msg) = 64%nat.
Proof.
  unfold Sha256.sha256_hex. generalize (Sha256.digest msg). intros s. reflexivity.
Qed.

Lemma sha256_hex_chars (msg : list Z) :
  List.Forall isHexChar (list_ascii_of_string (Sha256.sha256_hex msg)).
Proof.
  unfold Sha256.sha256_hex. generalize (Sha256.digest msg). intros s.
  unfold Sha256.hex_state, Sha256.hex_word. cbn [String.append list_ascii_of_string].
  repeat (constructor; [apply hex_digit_is_hex |]). constructor.
Qed.

Lemma append_assoc (a b c : string) :
  String.append (String.append a b) c = String.append a (String.append b c).
Proof.
  induction a as [| x a IH]; [reflexivity | exact (f_equal (String x) IH)].
Qed.

Lemma append_empty_r (a : string) : String.append a EmptyString = a.
Proof.
  induction a as [| x a IH]; [reflexivity | exact (f_equal (String x) IH)].
Qed.

Lemma join_terminated (sep : string) (l : list string) :
  l <> [] ->
  String.append (JsString.join sep l) sep = concatAll (List.map (fun r => String.append r sep) l).
Proof.
  induction l as [| x l IH]; intros Hne; [congruence |].
  destruct l as [| y l].
  - cbn [JsString.join List.map concatAll]. rewrite append_empty_r. reflexivity.
  - change (JsString.join sep (x :: y :: l))
      with (String.append x (String.append sep (JsString.join sep (y :: l)))).
    rewrite !append_assoc. rewrite IH by discriminate.
    cbn [List.map concatAll]. rewrite !append_assoc. reflexivity.
Qed.

(** The byte comparison is a consistent comparator. *)
Lemma compareBytes_antisym (a b : string) :
  Z.sgn (JsString.compareBytes a b) = - Z.sgn (JsString.compareBytes b a).
Proof.
  revert b. induction a as [| x a IH]; intros [| y b]; simpl; try reflexivity.
  destruct (Z.eqb_spec (Z.of_N (N_of_ascii x) - Z.of_N (N_of_ascii y)) 0) as [E | E];
    destruct (Z.eqb_spec (Z.of_N (N_of_ascii y) - Z.of_N (N_of_ascii x)) 0) as [E' | E'];
    try lia.
  apply IH.
Qed.

Lemma compareBytes_trans (a b c : string) :
  JsString.compareBytes a b <= 0 -> JsString.compareBytes b c <= 0 ->
  JsString.compareBytes a c <= 0.
Proof.
  revert b c. induction a as [| x a IH]; intros [| y b] [| z c]; simpl; try lia.
  destruct (Z.eqb_spec (Z.of_N (N_of_ascii x) - Z.of_N (N_of_ascii y)) 0) as [E1 | E1];
    destruct (Z.eqb_spec (Z.of_N (N_of_ascii y) - Z.of_N (N_of_ascii z)) 0) as [E2 | E2];
    destruct (Z.eqb_spec (Z.of_N (N_of_ascii x) - Z.of_N (N_of_ascii z)) 0) as [E3 | E3];
    try lia.
  apply IH.
Qed.

Section Digest.
Variable localeCompare : string -> string -> Z.
Hypothesis sign_antisym :
  forall a b, Z.sgn (localeCompare a b) = - Z.sgn (localeCompare b a).
Hypothesis not_after_trans :
  forall a b c, localeCompare a b <= 0 -> localeCompare b c <= 0 -> localeCompare a c <= 0.

Definition notAfter (a b : ManifestEntry) : Prop :=
  localeCompare (me_path a) (me_path b) <= 0.

Lemma sorted_by_path (E : list ManifestEntry) :
  StronglySorted notAfter (JsArray.sort (byPath localeCompare) E).
Proof.
  apply (SortFacts.sort_sorted (byPath localeCompare)).
  - intros a b. apply sign_antisym.
  - intros a b c. apply not_after_trans.
Qed.

End Digest.

(** C3 (as amended).  For every list of entries, with a consistent
    [localeCompare]: [computeManifestHash] sorts the entries by
    [localeCompare] of their paths (the result is a sorted rearrangement of
    the input), and returns the SHA-256, as 64 lower-case hexadecimal
    characters, of the UTF-8 string [combined] made of the records
    [path ":" hash] separated by single line feeds: the empty string for no
    entry, and otherwise the string which, followed by one line feed, is the
    concatenation of the lines [path ":" hash LF] in sorted order. *)
Theorem computeManifestHash_format
    (localeCompare : string -> string -> Z)
    (sign_antisym : forall a b, Z.sgn (localeCompare a b) = - Z.sgn (localeCompare b a))
    (not_after_trans : forall a b c,
        localeCompare a b <= 0 -> localeCompare b c <= 0 -> localeCompare a c <= 0)
    (E : list ManifestEntry) :
  let sorted := JsArray.sort (byPath localeCompare) E in
  Permutation sorted E /\
  StronglySorted (notAfter localeCompare) sorted /\
  (exists combined,
      computeManifestHash localeCompare E = Sha256.sha256_hex (bytes_of_string combined) /\
      (E = [] -> combined = EmptyString) /\
      (E <> [] -> String.append combined newline = concatAll (List.map recordLine sorted))) /\
  String.length (computeManifestHash localeCompare E) = 64%nat /\
  List.Forall isHexChar (list_ascii_of_string (computeManifestHash localeCompare E)).
Proof.
  intros sorted. split; [apply SortFacts.sort_perm |].
  split; [apply sorted_by_path; assumption |].
  split.
  - exists (JsString.join newline (List.map record sorted)).
    split; [reflexivity |]. split.
    + intros ->. reflexivity.
    + intros Hne.
      assert (Hs : List.map record sorted <> []).
      { intros Hnil. apply List.map_eq_nil in Hnil.
        assert (Hp : Permutation sorted E) by apply SortFacts.sort_perm.
        rewrite Hnil in Hp. apply Permutation_nil in Hp. congruence. }
      rewrite (join_terminated newline _ Hs). rewrite List.map_map.
      f_equal. apply List.map_ext. intros e. unfold record, recordLine.
      rewrite !append_assoc. reflexivity.
  - split; [apply sha256_hex_length | apply sha256_hex_chars].
Qed.

Definition sampleEntries : list ManifestEntry :=
  [ mkManifestEntry "dir/b.bin" "00000000000000ff"; mkManifestEntry "a.txt" "0123456789abcdef" ].

Lemma computeManifestHash_format_witness :
  let sorted := JsArray.sort (byPath JsString.compareBytes) sampleEntries in
  Permutation sorted sampleEntries /\
  StronglySorted (notAfter JsString.compareBytes) sorted /\
  (exists combined,
      computeManifestHash JsString.compareBytes sampleEntries
      = Sha256.sha256_hex (bytes_of_string combined) /\
      (sampleEntries = [] -> combined = EmptyString) /\
      (sampleEntries <> [] ->
       String.append combined newline = concatAll (List.map recordLine sorted))) /\
  String.length (computeManifestHash JsString.compareBytes sampleEntries) = 64%nat /\
  List.Forall isHexChar
    (list_ascii_of_string (computeManifestHash JsString.compareBytes sampleEntries)).
Proof.
  exact (computeManifestHash_format JsString.compareBytes compareBytes_antisym
           compareBytes_trans sampleEntries).
Defined.

(** C3 (as stated) fails: on the single entry [a.txt] the digest of the code
    is the SHA-256 of [a.txt:0123456789abcdef], not that of
    [a.txt TAB 0123456789abcdef LF], whatever the collation is. *)
Lemma computeManifestHash_not_spec_format :
  ~ (exists localeCompare : string -> string -> Z,
        computeManifestHash localeCompare [mkManifestEntry "a.txt" "0123456789abcdef"]
        = manifestDigestSpec [mkManifestEntry "a.txt" "0123456789abcdef"]).
Proof.
  intros [localeCompare H]. vm_compute in H. discriminate H.
Qed.

(** C5 (as amended).  With a consistent [localeCompare], for every list [E]
    in which two entries whose paths compare equal are the same entry (in
    particular when the paths are pairwise distinct under the comparison),
    and every permutation [P] of [E], the two manifest hashes are equal. *)
Theorem computeManifestHash_permutation
    (localeCompare : string -> string -> Z)
    (sign_antisym : forall a b, Z.sgn (localeCompare a b) = - Z.sgn (localeCompare b a))
    (not_after_trans : forall a b c,
        localeCompare a b <= 0 -> localeCompare b c <= 0 -> localeCompare a c <= 0)
    (E P : list ManifestEntry)
    (ties : forall a b, In a E -> In b E -> localeCompare (me_path a) (me_path b) = 0 -> a = b)
    (perm : Permutation E P) :
  computeManifestHash localeCompare P = computeManifestHash localeCompare E.
Proof.
  unfold computeManifestHash.
  rewrite (SortFacts.sort_permutation_invariant (byPath localeCompare)) with (l1 := E) (l2 := P).
  - reflexivity.
  - intros a b. apply sign_antisym.
  - intros a b c. apply not_after_trans.
  - exact ties.
  - exact perm.
Qed.

Lemma sampleEntries_no_ties (a b : ManifestEntry) :
  In a sampleEntries -> In b sampleEntries ->
  JsString.compareBytes (me_path a) (me_path b) = 0 -> a = b.
Proof.
  unfold sampleEntries. simpl.
  intros [<- | [<- | []]] [<- | [<- | []]] H; try reflexivity; vm_compute in H; discriminate H.
Qed.

Lemma computeManifestHash_permutation_witness :
  computeManifestHash JsString.compareBytes (List.rev sampleEntries)
  = computeManifestHash JsString.compareBytes sampleEntries.
Proof.
  exact (computeManifestHash_permutation JsString.compareBytes compareBytes_antisym
           compareBytes_trans sampleEntries (List.rev sampleEntries)
           sampleEntries_no_ties (perm_swap _ _ [])).
Defined.

(** C5 (as stated) fails: two entries with the same path and different
    content hashes keep their input order (a path compares equal to itself
    and the sort is stable), so swapping them changes the digest. *)
Lemma computeManifestHash_duplicate_paths :
  ~ (exists localeCompare : string -> string -> Z,
        localeCompare "a.txt" "a.txt" = 0 /\
        computeManifestHash localeCompare
          [mkManifestEntry "a.txt" "1111111111111111"; mkManifestEntry "a.txt" "2222222222222222"]
        = computeManifestHash localeCompare
          [mkManifestEntry "a.txt" "2222222222222222"; mkManifestEntry "a.txt" "1111111111111111"]).
Proof.
  intros [localeCompare [Hrefl H]].
  unfold computeManifestHash, JsArray.sort in H. simpl in H.
  unfold byPath in H. simpl in H. rewrite Hrefl in H. simpl in H.
  vm_compute in H. discriminate H.
Qed.

End HasherProps.

(** ** db.ts: how the catalog reaches the disk *)

Module DbProps.
Import Db.

(** The write operations of the catalog. *)
Inductive WriteOp : Type :=
  | OpCreateProject (project : Project)
  | OpUpdateProject (id : string) (updates : ProjectUpdates)
  | OpDeleteProject (id : string)
  | OpCreateSnapshot (snapshot : Snapshot) (es : list FileEntry) (now : Date)
  | OpCreateBranch (projectId name : string) (now : Date)
  | OpDeleteSnapshot (id : string)
  | OpAcquireFileLock (projectId file machineName : string) (now : Date)
  | OpReleaseFileLock (projectId file machineName : string).

Record Run : Type := mkRun {
  completed : bool;
  after : NetworkSyncDb;
  io : list IoEvent
}.

Definition ofRes {A : Type} (r : Res A) : Run :=
  mkRun (match res_out r with Returned _ => true | Threw _ => false end) (res_db r) (res_io r).

Definition runOp (d : NetworkSyncDb) (op : WriteOp) : Run :=
  match op with
  | OpCreateProject project => ofRes (createProject d project)
  | OpUpdateProject id updates => ofRes (updateProject d id updates)
  | OpDeleteProject id => ofRes (deleteProject d id)
  | OpCreateSnapshot snapshot es now => ofRes (createSnapshot d snapshot es now)
  | OpCreateBranch projectId name now => ofRes (createBranch d projectId name now)
  | OpDeleteSnapshot id => ofRes (deleteSnapshot d id)
  | OpAcquireFileLock projectId file machineName now =>
      ofRes (acquireFileLock d projectId file machineName now)
  | OpReleaseFileLock projectId file machineName =>
      ofRes (releaseFileLock d projectId file machineName)
  end.












Definition sampleDb : NetworkSyncDb := mkDb (Some emptyTables) "/nas/sync.db" false false.
Definition sampleProject : Project := mkProject "p1" "Demo" 1700000000000 None.



End DbProps.

(** ** storage.ts: prune and the put/get round trip *)

Module StorageProps.
Import Storage.

(** The blobs of a prefix directory that [prune] keeps. *)
Definition kept (activeHashes : gset string) (files : gmap string (list byte))
  : gmap string (list byte) :=
  filter (fun entry : string * list byte => entry.1 ∈ activeHashes) files.

Lemma pruneStep_fold_lookup (activeHashes : gset string) (h : string)
    (l : list (string * list byte)) (files : gmap string (list byte)) (c s : Z) :
  (foldl (pruneStep activeHashes) (files, c, s) l).1.1 !! h
  = if decide (h ∈ activeHashes) then files !! h
    else if decide (h ∈ l.*1) then None else files !! h.
Proof.
  revert files c s. induction l as [| [k b] l IH]; intros files c s.
  - simpl. destruct (decide (h ∈ activeHashes)); [reflexivity |].
    destruct (decide (h ∈ [])) as [Hin | _]; [| reflexivity].
    apply elem_of_nil in Hin. destruct Hin.
  - cbn [foldl].
    change (pruneStep activeHashes (files, c, s) (k, b))
      with (if decide (k ∈ activeHashes) then (files, c, s)
            else (delete k files, c + 1, s + Z.of_nat (length b))).
    destruct (decide (k ∈ activeHashes)) as [He | He].
    + rewrite IH. destruct (decide (h ∈ activeHashes)) as [Hh | Hh]; [reflexivity |].
      cbn [fmap list_fmap]. destruct (decide (h ∈ l.*1)) as [Hl | Hl].
      * rewrite decide_True; [reflexivity | apply elem_of_cons; right; exact Hl].
      * rewrite decide_False; [reflexivity |].
        intros Hin. apply elem_of_cons in Hin. destruct Hin as [-> | Hin]; [contradiction | contradiction].
    + rewrite IH. destruct (decide (h ∈ activeHashes)) as [Hh | Hh].
      * apply lookup_delete_ne. intros ->. contradiction.
      * cbn [fmap list_fmap]. destruct (decide (h ∈ l.*1)) as [Hl | Hl].
        -- rewrite decide_True; [reflexivity | apply elem_of_cons; right; exact Hl].
        -- cbn [fst]. destruct (decide (h = k)) as [-> | Hne].
           ++ rewrite decide_True; [apply lookup_delete_eq | apply elem_of_cons; left; reflexivity].
           ++ rewrite decide_False.
              ** apply lookup_delete_ne. congruence.
              ** intros Hin. apply elem_of_cons in Hin. destruct Hin; contradiction.
Qed.

Lemma pruneDir_kept (activeHashes : gset string) (files : gmap string (list byte)) (c s : Z) :
  (pruneDir activeHashes files c s).1.1 = kept activeHashes files.
Proof.
  apply map_eq. intros h. unfold pruneDir. rewrite pruneStep_fold_lookup.
  unfold kept. rewrite map_lookup_filter.
  destruct (decide (h ∈ activeHashes)) as [Hh | Hh].
  - destruct (files !! h) as [b |] eqn:E; simpl; [| reflexivity].
    rewrite option_guard_True; [reflexivity | exact Hh].
  - destruct (files !! h) as [b |] eqn:E; simpl.
    + rewrite option_guard_False by exact Hh.
      rewrite decide_True; [reflexivity |].
      apply list_elem_of_fmap. exists (h, b). split; [reflexivity |].
      apply elem_of_map_to_list. exact E.
    + destruct (decide (h ∈ (map_to_list files).*1)); reflexivity.
Qed.

(** What one prefix entry of [objects/] becomes. *)
Definition prunedNode (activeHashes : gset string) (node : Node) : option Node :=
  match node with
  | File content => Some (File content)
  | Dir files =>
      if decide (kept activeHashes files = ∅) then None else Some (Dir (kept activeHashes files))
  end.

Lemma pruneOuter_fold_lookup (activeHashes : gset string) (p : string)
    (l : list (string * Node)) (objs : gmap string Node) (c s : Z) :
  NoDup (l.*1) ->
  (forall node, (p, node) ∈ l -> objs !! p = Some node) ->
  (foldl (pruneOuter activeHashes) (objs, c, s) l).1.1 !! p
  = match objs !! p with
    | Some node => if decide (p ∈ l.*1) then prunedNode activeHashes node else Some node
    | None => None
    end.
Proof.
  revert objs c s. induction l as [| [q node] l IH]; intros objs c s Hnd Hl.
  - simpl. destruct (objs !! p); reflexivity.
  - cbn [fmap list_fmap fst] in Hnd. apply NoDup_cons in Hnd. destruct Hnd as [Hq Hnd].
    cbn [foldl]. unfold pruneOuter at 2. cbn [fst snd].
    destruct node as [content | files].
    + rewrite IH; [| exact Hnd | intros n Hn; apply Hl; apply elem_of_cons; right; exact Hn].
      cbn [fmap list_fmap fst]. destruct (decide (p = q)) as [-> | Hne].
      * assert (Hn : objs !! q = Some (File content))
          by (apply Hl; apply elem_of_cons; left; reflexivity).
        rewrite Hn. rewrite (decide_False (P := q ∈ l.*1)) by exact Hq.
        rewrite decide_True by (apply elem_of_cons; left; reflexivity). reflexivity.
      * destruct (objs !! p) as [n |]; [| reflexivity].
        destruct (decide (p ∈ l.*1)) as [Hp | Hp].
        -- rewrite decide_True; [reflexivity | apply elem_of_cons; right; exact Hp].
        -- rewrite decide_False; [reflexivity |].
           intros Hin. apply elem_of_cons in Hin. destruct Hin; contradiction.
    + destruct (pruneDir activeHashes files c s) as [[remaining c'] s'] eqn:Ep.
      assert (Hrem : remaining = kept activeHashes files).
      { rewrite <- (pruneDir_kept activeHashes files c s). rewrite Ep. reflexivity. }
      subst remaining.
      destruct (decide (p = q)) as [-> | Hne].
      * assert (Hn : objs !! q = Some (Dir files))
          by (apply Hl; apply elem_of_cons; left; reflexivity).
        rewrite Hn. cbn [fmap list_fmap].
        rewrite (decide_True (P := q ∈ q :: l.*1)) by (apply elem_of_cons; left; reflexivity).
        cbn [prunedNode].
        destruct (decide (kept activeHashes files = ∅)) as [Hk | Hk].
        -- rewrite IH; [| exact Hnd |].
           ++ rewrite lookup_delete_eq. reflexivity.
           ++ intros n Hin. exfalso. apply Hq.
              apply list_elem_of_fmap. exists (q, n). split; [reflexivity | exact Hin].
        -- rewrite IH; [| exact Hnd |].
           ++ rewrite lookup_insert_eq. rewrite decide_False; [reflexivity | exact Hq].
           ++ intros n Hin. exfalso. apply Hq.
              apply list_elem_of_fmap. exists (q, n). split; [reflexivity | exact Hin].
      * assert (Hstep : forall objs', objs' !! p = objs !! p ->
                  (foldl (pruneOuter activeHashes) (objs', c', s') l).1.1 !! p
                  = match objs !! p with
                    | Some node => if decide (p ∈ (q :: l.*1)) then prunedNode activeHashes node
                                   else Some node
                    | None => None
                    end).
        { intros objs' Hsame. rewrite IH; [| exact Hnd |].
          - rewrite Hsame. destruct (objs !! p) as [n |]; [| reflexivity].
            destruct (decide (p ∈ l.*1)) as [Hp | Hp].
            + rewrite decide_True; [reflexivity | apply elem_of_cons; right; exact Hp].
            + rewrite decide_False; [reflexivity |].
              intros Hin. apply elem_of_cons in Hin. destruct Hin; contradiction.
          - intros n Hin. rewrite Hsame. apply Hl. apply elem_of_cons. right. exact Hin. }
        cbn [fmap list_fmap].
        destruct (decide (kept activeHashes files = ∅)).
        -- apply Hstep. apply lookup_delete_ne. congruence.
        -- apply Hstep. apply lookup_insert_ne. congruence.
Qed.

Lemma prune_lookup (st : ContentStorage) (activeHashes : gset string) (p : string) :
  objects (prune st activeHashes).1 !! p
  = match objects st !! p with
    | Some node => prunedNode activeHashes node
    | None => None
    end.
Proof.
  unfold prune.
  pose proof (pruneOuter_fold_lookup activeHashes p (map_to_list (objects st)) (objects st) 0 0
                (NoDup_fst_map_to_list _)) as H.
  destruct (foldl (pruneOuter activeHashes) (objects st, 0, 0) (map_to_list (objects st)))
    as [[objs c] s] eqn:E.
  cbn [fst snd objects] in *. rewrite H.
  - destruct (objects st !! p) as [node |] eqn:En; [| reflexivity].
    rewrite decide_True; [reflexivity |].
    apply list_elem_of_fmap. exists (p, node). split; [reflexivity |].
    apply elem_of_map_to_list. exact En.
  - intros node Hin. apply elem_of_map_to_list in Hin. exact Hin.
Qed.






(** A stand-in codec and digest with the two properties used above. *)
Definition frame (b : list byte) : list byte := x1f :: x8b :: b.

Definition unframe (b : list byte) : list byte * bool :=
  match b with
  | x1f :: x8b :: rest => (rest, true)
  | _ => ([], false)
  end.

Definition lengthDigest (b : list byte) : N := N.of_nat (length b).

Definition helloBytes : list byte := [x68; x65; x6c; x6c; x6f].


End StorageProps.

(** ** sync.ts: the engine operations *)

Module SyncProps.
Import Scanner Sync.

(** *** Facts on [Map] *)

Lemma set_get_same {V : Type} (m : @JsMap.t V) (k : string) (v : V) :
  JsMap.get (JsMap.set m k v) k = Some v.
Proof.
  induction m as [| [k' v'] m IH]; simpl.
  - rewrite String.eqb_refl. reflexivity.
  - destruct (String.eqb k' k) eqn:E; simpl; rewrite E; [reflexivity | exact IH].
Qed.

Lemma set_keys {V : Type} (m : @JsMap.t V) (k : string) (v : V) (x : string) :
  In x (JsMap.keys (JsMap.set m k v)) <-> x = k \/ In x (JsMap.keys m).
Proof.
  induction m as [| [k' v'] m IH]; simpl.
  - split; [intros [<- | []]; left; reflexivity | intros [-> | []]; left; reflexivity].
  - destruct (String.eqb_spec k' k) as [-> | Hne]; simpl.
    + split; [intros [<- | H]; [left; reflexivity | right; right; exact H]
             | intros [-> | [<- | H]]; [left | left | right]; auto].
    + rewrite IH. split.
      * intros [<- | [-> | H]]; [right; left | left | right; right]; auto.
      * intros [-> | [<- | H]]; [right; left | left | right; right]; auto.
Qed.

(** Every binding of [new Map(entries.map(e => [e.path, e]))] maps a path to
    an entry with that path. *)
Definition keyed (m : @JsMap.t FileEntry) : Prop :=
  forall k e, In (k, e) m -> path e = k.

Lemma set_keyed (m : @JsMap.t FileEntry) (e : FileEntry) :
  keyed m -> keyed (JsMap.set m (path e) e).
Proof.
  unfold keyed. induction m as [| [k' v'] m IH]; intros Hm k x Hin; simpl in Hin.
  - destruct Hin as [Heq | []]. injection Heq as <- <-. reflexivity.
  - destruct (String.eqb_spec k' (path e)) as [-> | Hne].
    + destruct Hin as [Heq | Hin].
      * injection Heq as <- <-. reflexivity.
      * apply Hm. right. exact Hin.
    + destruct Hin as [Heq | Hin].
      * apply Hm. left. exact Heq.
      * apply IH; [| exact Hin]. intros k0 e0 H0. apply Hm. right. exact H0.
Qed.

Lemma of_pairs_fold_keyed (es : list FileEntry) (m : @JsMap.t FileEntry) :
  keyed m ->
  keyed (List.fold_left (fun m kv => JsMap.set m (fst kv) (snd kv)) (byPathPairs es) m).
Proof.
  revert m. induction es as [| e es IH]; intros m Hm; simpl; [exact Hm |].
  apply IH. apply set_keyed. exact Hm.
Qed.

Lemma of_pairs_keyed (es : list FileEntry) : keyed (JsMap.of_pairs (byPathPairs es)).
Proof.
  unfold JsMap.of_pairs. apply of_pairs_fold_keyed. intros k e [].
Qed.

Lemma of_pairs_fold_keys (es : list FileEntry) (m : @JsMap.t FileEntry) (x : string) :
  In x (JsMap.keys (List.fold_left (fun m kv => JsMap.set m (fst kv) (snd kv)) (byPathPairs es) m))
  <-> In x (JsMap.keys m) \/ In x (List.map path es).
Proof.
  revert m. induction es as [| e es IH]; intros m; simpl.
  - tauto.
  - rewrite IH, set_keys. intuition congruence.
Qed.

Lemma of_pairs_keys (es : list FileEntry) (x : string) :
  In x (JsMap.keys (JsMap.of_pairs (byPathPairs es))) <-> In x (List.map path es).
Proof.
  unfold JsMap.of_pairs. rewrite of_pairs_fold_keys. simpl. tauto.
Qed.

(** *** Selective sync: what is downloaded, what is deleted *)

Definition selected (m : option (string -> bool)) (e : FileEntry) : Prop :=
  notSelected m (path e) = false.

Lemma pullStep_selected (m : option (string -> bool)) (localMap remoteMap : @JsMap.t FileEntry)
    (acc : list FileEntry * list Conflict) :
  keyed remoteMap ->
  List.Forall (selected m) (fst acc) ->
  List.Forall (fun c => selected m (remoteEntry c)) (snd acc) ->
  List.Forall (selected m) (fst (List.fold_left (pullStep m localMap) remoteMap acc)) /\
  List.Forall (fun c => selected m (remoteEntry c))
              (snd (List.fold_left (pullStep m localMap) remoteMap acc)).
Proof.
  revert acc. induction remoteMap as [| [k e] rm IH]; intros [dl cf] Hk Hd Hc; simpl.
  - split; assumption.
  - assert (Hpath : path e = k) by (apply Hk; left; reflexivity).
    assert (Hk' : keyed rm) by (intros k0 e0 H0; apply Hk; right; exact H0).
    simpl in Hd, Hc.
    destruct (notSelected m k) eqn:Esel; [apply IH; assumption |].
    assert (Hsel : selected m e) by (unfold selected; rewrite Hpath; exact Esel).
    destruct (JsMap.get localMap k) as [localE |].
    + destruct (String.eqb (hash localE) (hash e)); [apply IH; assumption |].
      destruct (modifiedAt localE >? modifiedAt e).
      * apply IH; [exact Hk' | exact Hd |].
        apply List.Forall_app. split; [exact Hc |]. constructor; [exact Hsel | constructor].
      * apply IH; [exact Hk' | | exact Hc].
        apply List.Forall_app. split; [exact Hd |]. constructor; [exact Hsel | constructor].
    + apply IH; [exact Hk' | | exact Hc].
      apply List.Forall_app. split; [exact Hd |]. constructor; [exact Hsel | constructor].
Qed.

Lemma pullDiff_selected (m : option (string -> bool)) (localEntries remoteEntries : list FileEntry) :
  List.Forall (selected m) (fst (pullDiff m localEntries remoteEntries)) /\
  List.Forall (fun c => selected m (remoteEntry c)) (snd (pullDiff m localEntries remoteEntries)).
Proof.
  unfold pullDiff. apply pullStep_selected.
  - apply of_pairs_keyed.
  - constructor.
  - constructor.
Qed.

Lemma restoreStep_selected (m : option (string -> bool)) (localMap remoteMap : @JsMap.t FileEntry)
    (acc : list FileEntry) :
  keyed remoteMap ->
  List.Forall (selected m) acc ->
  List.Forall (selected m) (List.fold_left (restoreStep m localMap) remoteMap acc).
Proof.
  revert acc. induction remoteMap as [| [k e] rm IH]; intros acc Hk Hd; simpl; [exact Hd |].
  assert (Hpath : path e = k) by (apply Hk; left; reflexivity).
  assert (Hk' : keyed rm) by (intros k0 e0 H0; apply Hk; right; exact H0).
  unfold restoreStep at 2. simpl.
  destruct (notSelected m k) eqn:Esel; [apply IH; assumption |].
  assert (Hsel : selected m e) by (unfold selected; rewrite Hpath; exact Esel).
  assert (Hadd : List.Forall (selected m) (acc ++ [e])).
  { apply List.Forall_app. split; [exact Hd |]. constructor; [exact Hsel | constructor]. }
  destruct (JsMap.get localMap k) as [localE |].
  - destruct (String.eqb (hash localE) (hash e)); apply IH; assumption.
  - apply IH; assumption.
Qed.

Lemma applyResolutions_selected (env : Env) (localPath : string) (m : option (string -> bool))
    (resolutionMap : @JsMap.t Resolution) (cfs : list Conflict)
    (filesToDownload downloads : list FileEntry) :
  List.Forall (selected m) filesToDownload ->
  List.Forall (fun c => selected m (remoteEntry c)) cfs ->
  fst (applyResolutions env localPath resolutionMap cfs filesToDownload) = Returned downloads ->
  List.Forall (selected m) downloads.
Proof.
  revert filesToDownload. induction cfs as [| c cfs IH]; intros dl Hd Hc Hret; simpl in Hret.
  - injection Hret as <-. exact Hd.
  - inversion Hc as [| c' cfs' Hsel Hc']; subst.
    assert (Hadd : List.Forall (selected m) (dl ++ [remoteEntry c])).
    { apply List.Forall_app. split; [exact Hd |]. constructor; [exact Hsel | constructor]. }
    destruct (JsMap.get resolutionMap (c_path c)) as [[| |] |].
    + apply (IH dl); assumption.
    + apply (IH (dl ++ [remoteEntry c])); assumption.
    + destruct (renameFile env (join localPath (c_path c))
                           (join localPath (conflictPathOf (c_path c)))).
      * destruct (applyResolutions env localPath resolutionMap cfs (dl ++ [remoteEntry c]))
          as [out evs] eqn:E.
        simpl in Hret. apply (IH (dl ++ [remoteEntry c])); [exact Hadd | exact Hc' |].
        rewrite E. exact Hret.
      * discriminate Hret.
    + apply (IH dl); assumption.
Qed.

Lemma applyResolutions_events (env : Env) (localPath : string)
    (resolutionMap : @JsMap.t Resolution) (cfs : list Conflict) (filesToDownload : list FileEntry) :
  List.Forall (fun ev => exists src dst, ev = EvRename src dst)
              (snd (applyResolutions env localPath resolutionMap cfs filesToDownload)).
Proof.
  revert filesToDownload. induction cfs as [| c cfs IH]; intros dl; simpl; [constructor |].
  destruct (JsMap.get resolutionMap (c_path c)) as [[| |] |]; try apply IH.
  destruct (renameFile env (join localPath (c_path c)) (join localPath (conflictPathOf (c_path c)))).
  - specialize (IH (dl ++ [remoteEntry c])).
    destruct (applyResolutions env localPath resolutionMap cfs (dl ++ [remoteEntry c])) as [out evs].
    simpl in *. constructor; [eexists; eexists; reflexivity | exact IH].
  - simpl. constructor; [eexists; eexists; reflexivity | constructor].
Qed.

Lemma join_inj (dir a b : string) : join dir a = join dir b -> a = b.
Proof.
  unfold join. intros H. apply (inj (String.append dir)) in H.
  apply (inj (String.append "/")) in H. exact H.
Qed.


(** Events other than a download or a deletion. *)
Definition isBookkeeping (ev : Event) : Prop :=
  match ev with
  | EvWriteFile _ _ | EvRename _ _ => True
  | EvRetrieve _ _ | EvUnlink _ => False
  end.

Lemma scanLocal_events (env : Env) (localPath : string) :
  List.Forall isBookkeeping (snd (scanLocal env localPath)).
Proof.
  unfold scanLocal, scanDirectory. destruct (walked env) as [[files dirs] | e]; simpl.
  - constructor; [exact I | constructor].
  - constructor.
Qed.

Lemma pullTransfer_shape (m : option (string -> bool)) (localPath : string) (ev0 : list Event)
    (resolved : Outcome (list FileEntry) * list Event) (filesToDelete : list string) :
  List.Forall isBookkeeping ev0 ->
  List.Forall isBookkeeping (snd resolved) ->
  (forall downloads, fst resolved = Returned downloads -> List.Forall (selected m) downloads) ->
  exists pre downloads deletes,
    snd (pullTransfer localPath ev0 resolved filesToDelete)
    = pre ++ transferEvents localPath downloads deletes /\
    List.Forall isBookkeeping pre /\
    List.Forall (selected m) downloads /\
    (forall r, fst (pullTransfer localPath ev0 resolved filesToDelete) = Returned r ->
               deletes = filesToDelete).
Proof.
  intros Hev0 Hev1 Hsel. unfold pullTransfer. destruct resolved as [[downloads | e] ev1].
  - exists (ev0 ++ ev1), downloads, filesToDelete. cbn [fst snd] in *.
    split; [rewrite List.app_assoc; reflexivity |].
    split; [apply List.Forall_app; split; assumption |].
    split; [apply Hsel; reflexivity |]. intros r _. reflexivity.
  - exists (ev0 ++ ev1), [], []. cbn [fst snd] in *.
    split; [unfold transferEvents; simpl; rewrite List.app_nil_r; reflexivity |].
    split; [apply List.Forall_app; split; assumption |].
    split; [constructor |]. intros r Hr. discriminate Hr.
Qed.

(** The shape of a run of the body of [pull]: bookkeeping events, then the
    downloads and the deletions of one plan. *)
Lemma pullBody_shape (env : Env) (d : Db.NetworkSyncDb) (project : Project)
    (localPath branch : string) (resolutions : option (list ConflictResolution))
    (includePatterns : option (list string)) (scanResult : ScanResult) :
  fst (scanLocal env localPath) = Returned scanResult ->
  exists pre downloads deletes,
    snd (pullBody env d project localPath branch resolutions includePatterns)
    = pre ++ transferEvents localPath downloads deletes /\
    List.Forall isBookkeeping pre /\
    List.Forall (selected (selectiveMatcher env includePatterns)) downloads /\
    (forall r latest,
        Db.getLatestSnapshot d (p_id project) branch = Returned (Some latest) ->
        fst (pullBody env d project localPath branch resolutions includePatterns) = Returned r ->
        success r = true ->
        exists remoteEntries,
          deletes = pullDeletes (selectiveMatcher env includePatterns)
                                (sr_entries scanResult) remoteEntries).
Proof.
  intros Hscan. unfold pullBody.
  pose proof (scanLocal_events env localPath) as Hev0.
  destruct (scanLocal env localPath) as [scan ev0]. simpl in Hscan, Hev0. subst scan.
  set (m := selectiveMatcher env includePatterns).
  assert (Hearly : forall out : Outcome PullResult,
             (forall r, out = Returned r -> success r = true ->
                        Db.getLatestSnapshot d (p_id project) branch = Returned None) ->
             exists pre downloads deletes,
               snd (out, ev0) = pre ++ transferEvents localPath downloads deletes /\
               List.Forall isBookkeeping pre /\
               List.Forall (selected m) downloads /\
               (forall r latest,
                   Db.getLatestSnapshot d (p_id project) branch = Returned (Some latest) ->
                   fst (out, ev0) = Returned r -> success r = true ->
                   exists remoteEntries,
                     deletes = pullDeletes m (sr_entries scanResult) remoteEntries)).
  { intros out Hout. exists ev0, [], [].
    split; [unfold transferEvents; simpl; rewrite List.app_nil_r; reflexivity |].
    split; [exact Hev0 |]. split; [constructor |].
    intros r latest Hl Hr Hs. simpl in Hr. rewrite (Hout r Hr Hs) in Hl. discriminate Hl. }
  destruct (Db.getLatestSnapshot d (p_id project) branch) as [[latest |] | e] eqn:El.
  - destruct (Db.getSnapshotEntries d (s_id latest)) as [remoteEntries | e].
    + cbn [entries buildManifest].
      pose proof (pullDiff_selected m (sr_entries scanResult) remoteEntries) as [Hd Hc].
      destruct (pullDiff m (sr_entries scanResult) remoteEntries) as [dl cfs].
      cbn [fst snd] in Hd, Hc.
      assert (Hgo : forall resolved,
                 List.Forall isBookkeeping (snd resolved) ->
                 (forall downloads, fst resolved = Returned downloads ->
                                    List.Forall (selected m) downloads) ->
                 exists pre downloads deletes,
                   snd (pullTransfer localPath ev0 resolved
                          (pullDeletes m (sr_entries scanResult) remoteEntries))
                   = pre ++ transferEvents localPath downloads deletes /\
                   List.Forall isBookkeeping pre /\
                   List.Forall (selected m) downloads /\
                   (forall r latest0,
                       Returned (Some latest) = Returned (Some latest0) ->
                       fst (pullTransfer localPath ev0 resolved
                              (pullDeletes m (sr_entries scanResult) remoteEntries))
                       = Returned r ->
                       success r = true ->
                       exists remoteEntries0,
                         deletes = pullDeletes m (sr_entries scanResult) remoteEntries0)).
      { intros resolved Hev1 Hsel.
        destruct (pullTransfer_shape m localPath ev0 resolved
                    (pullDeletes m (sr_entries scanResult) remoteEntries) Hev0 Hev1 Hsel)
          as (pre & downloads & deletes & Htr & Hpre & Hdl & Hdel).
        exists pre, downloads, deletes. repeat split; try assumption.
        intros r latest0 _ Hr _. exists remoteEntries. apply (Hdel r Hr). }
      destruct resolutions as [rs |].
      * assert (Hren : List.Forall isBookkeeping
                         (snd (applyResolutions env localPath
                                 (JsMap.of_pairs (List.map (fun r => (cr_path r, resolution r)) rs))
                                 cfs dl))).
        { eapply List.Forall_impl; [| apply applyResolutions_events].
          intros ev (src & dst & ->). exact I. }
        destruct cfs; apply Hgo; try exact Hren;
          intros downloads; apply (applyResolutions_selected env localPath m); assumption.
      * destruct cfs as [| c cfs].
        -- apply Hgo; [constructor |].
           intros downloads Heq. injection Heq as <-. exact Hd.
        -- exists ev0, [], [].
           split; [unfold transferEvents; simpl; rewrite List.app_nil_r; reflexivity |].
           split; [exact Hev0 |]. split; [constructor |].
           intros r latest0 _ Hr Hs. simpl in Hr. injection Hr as <-. discriminate Hs.
    + apply Hearly. intros r Hr. discriminate Hr.
  - apply Hearly. intros r Hr Hs. reflexivity.
  - apply Hearly. intros r Hr. discriminate Hr.
Qed.

Lemma restoreBody_shape (env : Env) (d : Db.NetworkSyncDb) (project : Project)
    (localPath snapshotId : string) (includePatterns : option (list string))
    (scanResult : ScanResult) :
  fst (scanLocal env localPath) = Returned scanResult ->
  exists pre downloads deletes,
    snd (restoreBody env d project localPath snapshotId includePatterns)
    = pre ++ transferEvents localPath downloads deletes /\
    List.Forall isBookkeeping pre /\
    List.Forall (selected (selectiveMatcher env includePatterns)) downloads /\
    (forall r,
        fst (restoreBody env d project localPath snapshotId includePatterns) = Returned r ->
        exists remoteEntries,
          deletes = pullDeletes (selectiveMatcher env includePatterns)
                                (sr_entries scanResult) remoteEntries).
Proof.
  intros Hscan. unfold restoreBody.
  pose proof (scanLocal_events env localPath) as Hev0.
  destruct (Db.getSnapshot d snapshotId) as [[sn |] | e];
    try (exists [], [], []; repeat split; try constructor; intros r Hr; discriminate Hr).
  destruct (scanLocal env localPath) as [scan ev0]. simpl in Hscan, Hev0. subst scan.
  destruct (Db.getSnapshotEntries d snapshotId) as [remoteEntries | e].
  - cbn [entries buildManifest].
    exists ev0, (restoreDiff (selectiveMatcher env includePatterns) (sr_entries scanResult)
                             remoteEntries),
      (pullDeletes (selectiveMatcher env includePatterns) (sr_entries scanResult) remoteEntries).
    split; [reflexivity |]. split; [exact Hev0 |]. split.
    + unfold restoreDiff. apply restoreStep_selected; [apply of_pairs_keyed | constructor].
    + intros r _. exists remoteEntries. reflexivity.
  - exists ev0, [], []. split; [simpl; rewrite List.app_nil_r; reflexivity |].
    split; [exact Hev0 |]. split; [constructor |]. intros r Hr. discriminate Hr.
Qed.

Lemma no_retrieve_of_unselected (localPath : string) (m : option (string -> bool))
    (pre : list Event) (downloads : list FileEntry) (deletes : list string) (blob p : string) :
  List.Forall isBookkeeping pre ->
  List.Forall (selected m) downloads ->
  notSelected m p = true ->
  ~ In (EvRetrieve blob (join localPath p)) (pre ++ transferEvents localPath downloads deletes).
Proof.
  intros Hpre Hsel Hp Hin. apply in_app_or in Hin. destruct Hin as [Hin | Hin].
  - rewrite List.Forall_forall in Hpre. apply (Hpre _ Hin).
  - unfold transferEvents in Hin. apply in_app_or in Hin. destruct Hin as [Hin | Hin].
    + apply in_map_iff in Hin. destruct Hin as (f & Heq & Hf).
      injection Heq as _ Hj. apply join_inj in Hj.
      rewrite List.Forall_forall in Hsel. specialize (Hsel f Hf). unfold selected in Hsel.
      rewrite Hj in Hsel. congruence.
    + apply in_map_iff in Hin. destruct Hin as (q & Heq & _). discriminate Heq.
Qed.

Lemma unselected_local_is_deleted (m : option (string -> bool))
    (localEntries remoteEntries : list FileEntry) (e : FileEntry) :
  In e localEntries -> notSelected m (path e) = true ->
  In (path e) (pullDeletes m localEntries remoteEntries).
Proof.
  intros He Hp. unfold pullDeletes, filesToDeleteOf. apply filter_In. split.
  - apply of_pairs_keys. apply in_map. exact He.
  - unfold toDelete. rewrite Hp. apply orb_true_r.
Qed.

(** C1 (as amended).  For every pull or restore invoked with a non-empty
    includePatterns list: a path matching no include-pattern is never
    downloaded; and when the operation succeeds against a snapshot, every
    file of the local scan whose path matches no include-pattern is
    unlinked (whether or not the snapshot has that path). *)
Theorem selective_sync_effects
    (env : Env) (d : Db.NetworkSyncDb) (project : Project)
    (localPath branch snapshotId : string) (resolutions : option (list ConflictResolution))
    (pat : string) (pats : list string) (scanResult : ScanResult) (latest : Snapshot)
    (scanned : fst (scanLocal env localPath) = Returned scanResult)
    (snapshotExists : Db.getLatestSnapshot d (p_id project) branch = Returned (Some latest)) :
  let matches := matcherIgnores env (pat :: pats) in
  let pulled := pull env d project localPath branch resolutions (Some (pat :: pats)) in
  let restored := restoreSnapshot env d project localPath snapshotId (Some (pat :: pats)) in
  (forall p blob, matches p = false ->
      ~ In (EvRetrieve blob (join localPath p)) (snd pulled) /\
      ~ In (EvRetrieve blob (join localPath p)) (snd restored)) /\
  (forall e r, In e (sr_entries scanResult) -> matches (path e) = false ->
      (fst pulled = Returned r -> success r = true ->
       In (EvUnlink (join localPath (path e))) (snd pulled)) /\
      (fst restored = Returned r -> success r = true ->
       In (EvUnlink (join localPath (path e))) (snd restored))).
Proof.
  intros matches pulled restored.
  destruct (pullBody_shape env d project localPath branch resolutions (Some (pat :: pats))
              scanResult scanned) as (pre1 & dl1 & del1 & Htr1 & Hpre1 & Hsel1 & Hdel1).
  destruct (restoreBody_shape env d project localPath snapshotId (Some (pat :: pats))
              scanResult scanned) as (pre2 & dl2 & del2 & Htr2 & Hpre2 & Hsel2 & Hdel2).
  assert (Hns : forall p, matches p = false ->
                          notSelected (selectiveMatcher env (Some (pat :: pats))) p = true).
  { intros p Hp. simpl. fold matches. rewrite Hp. reflexivity. }
  subst pulled restored. unfold pull, restoreSnapshot.
  destruct (acquire env) as [[] | e0].
  - cbn [fst snd]. split.
    + intros p blob Hp. rewrite Htr1, Htr2. split.
      * eapply no_retrieve_of_unselected; [exact Hpre1 | exact Hsel1 | apply Hns; exact Hp].
      * eapply no_retrieve_of_unselected; [exact Hpre2 | exact Hsel2 | apply Hns; exact Hp].
    + intros e r He Hp. split.
      * intros Hr Hs. unfold settle in Hr.
        destruct (release env); [| discriminate Hr]. injection Hr as Hr.
        destruct (fst (pullBody env d project localPath branch resolutions (Some (pat :: pats))))
          as [r0 | e1] eqn:Ebody.
        -- subst r0. destruct (Hdel1 r latest snapshotExists eq_refl Hs) as [remoteEntries ->].
           rewrite Htr1. apply in_or_app. right. unfold transferEvents. apply in_or_app. right.
           apply (in_map (fun q => EvUnlink (join localPath q))).
           apply unselected_local_is_deleted; [exact He | apply Hns; exact Hp].
        -- subst r. discriminate Hs.
      * intros Hr Hs. unfold settle in Hr.
        destruct (release env); [| discriminate Hr]. injection Hr as Hr.
        destruct (fst (restoreBody env d project localPath snapshotId (Some (pat :: pats))))
          as [r0 | e1] eqn:Ebody.
        -- subst r0. destruct (Hdel2 r eq_refl) as [remoteEntries ->].
           rewrite Htr2. apply in_or_app. right. unfold transferEvents. apply in_or_app. right.
           apply (in_map (fun q => EvUnlink (join localPath q))).
           apply unselected_local_is_deleted; [exact He | apply Hns; exact Hp].
        -- subst r. discriminate Hs.
  - cbn [fst snd]. split.
    + intros p blob _. split; intros [].
    + intros e r _ _. split; intros Hr; discriminate Hr.
Qed.


(** Sample data: the selective pull of the specification's scenario.  The
    snapshot holds three paths; the local tree holds [Other/k.txt] only. *)
Definition sampleProject : Project := mkProject "p1" "Demo" 0 None.

Definition sampleSnapshot : Snapshot :=
  mkSnapshot "s1" "p1" "init" 5000 "A" "" 3 30 "main".

Definition selectiveDb : Db.NetworkSyncDb :=
  Db.mkDb
    (Some (Db.mkTables [sampleProject] [sampleSnapshot] [Db.mkBranchRow "p1" "main" 5000]
             [ Db.mkFileEntryRow "s1" "Content/x.uasset" "00000000000000a1" 10 1000;
               Db.mkFileEntryRow "s1" "Source/y.cpp" "00000000000000a2" 10 1000;
               Db.mkFileEntryRow "s1" "Saved/z.log" "00000000000000a3" 10 1000 ]
             []))
    "/nas/sync.db" false false.

Definition sampleEnv (ig : list string -> string -> bool) (acq rel : Outcome unit)
    (files : Outcome (list WalkedFile * Z)) : Env :=
  mkEnv StorageProps.lengthDigest StorageProps.frame JsString.compareBytes ig acq rel files ∅
        (fun _ _ => Returned tt) "s2" 9000.

Definition selectiveEnv (ig : list string -> string -> bool) : Env :=
  sampleEnv ig (Returned tt) (Returned tt)
            (Returned ([mkWalked "Other/k.txt" 2000 1 [x6b]], 1)).

(** The scenario run with a matcher that selects what lies under
    [Content/]: one download, and the local file is unlinked. *)
Example selective_pull_trace :
  pull (selectiveEnv (fun _ p => JsString.startsWith "Content/" p)) selectiveDb sampleProject
       "/b" "main" None (Some ["Content/**"%string])
  = (Returned (mkPullResult true 1 1 10 [] None),
     [ EvWriteFile "/b/.sync/cache.json"
         {[ "Other/k.txt"%string := mkCacheEntry 2000 1 "0000000000000001" ]};
       EvRetrieve "00000000000000a1" "/b/Content/x.uasset";
       EvUnlink "/b/Other/k.txt" ]).
Proof. vm_compute. reflexivity. Qed.

(** Without include-patterns the same pull fetches the three files of the
    snapshot (in the order of its rows) and unlinks the local file absent
    from it. *)
Example full_pull_trace :
  pull (selectiveEnv (fun _ _ => false)) selectiveDb sampleProject "/b" "main" None None
  = (Returned (mkPullResult true 3 1 30 [] None),
     [ EvWriteFile "/b/.sync/cache.json"
         {[ "Other/k.txt"%string := mkCacheEntry 2000 1 "0000000000000001" ]};
       EvRetrieve "00000000000000a1" "/b/Content/x.uasset";
       EvRetrieve "00000000000000a2" "/b/Source/y.cpp";
       EvRetrieve "00000000000000a3" "/b/Saved/z.log";
       EvUnlink "/b/Other/k.txt" ]).
Proof. vm_compute. reflexivity. Qed.

(** C1 (as stated) fails: pulling with includePatterns ["Content/**"] into a
    tree that holds [Other/k.txt], a path absent from the snapshot, unlinks
    that file, whatever the matcher answers. *)
Lemma selective_pull_unlinks_unmatched_local :
  ~ (exists ig : list string -> string -> bool,
        ~ In (EvUnlink "/b/Other/k.txt")
             (snd (pull (selectiveEnv ig) selectiveDb sampleProject "/b" "main" None
                        (Some ["Content/**"%string])))).
Proof.
  intros [ig H]. apply H. clear H. vm_compute.
  destruct (ig ["Content/**"%string] "Content/x.uasset"%string),
           (ig ["Content/**"%string] "Source/y.cpp"%string),
           (ig ["Content/**"%string] "Saved/z.log"%string); simpl; auto 10.
Qed.


(** A stand-in for the ignore package in the examples: a path matches when
    it lies under [Content/]. *)
Definition underContent (_ : list string) (p : string) : bool :=
  JsString.startsWith "Content/" p.

Definition localScan : ScanResult :=
  mkScanResult [mkFileEntry "Other/k.txt" "0000000000000001" 1 2000 false] 1 1 1 9000.

Lemma selective_sync_effects_witness :
  let env := selectiveEnv underContent in
  let matches := matcherIgnores env ["Content/**"%string] in
  let pulled := pull env selectiveDb sampleProject "/b" "main" None (Some ["Content/**"%string]) in
  let restored := restoreSnapshot env selectiveDb sampleProject "/b" "s1"
                                  (Some ["Content/**"%string]) in
  (forall p blob, matches p = false ->
      ~ In (EvRetrieve blob (join "/b" p)) (snd pulled) /\
      ~ In (EvRetrieve blob (join "/b" p)) (snd restored)) /\
  (forall e r, In e (sr_entries localScan) -> matches (path e) = false ->
      (fst pulled = Returned r -> success r = true ->
       In (EvUnlink (join "/b" (path e))) (snd pulled)) /\
      (fst restored = Returned r -> success r = true ->
       In (EvUnlink (join "/b" (path e))) (snd restored))).
Proof.
  exact (selective_sync_effects (selectiveEnv underContent) selectiveDb sampleProject
           "/b" "main" "s1" None "Content/**" [] localScan sampleSnapshot eq_refl eq_refl).
Defined.







Lemma no_snapshot_latest (d : Db.NetworkSyncDb) (t : Db.Tables) (projectId branch : string) :
  Db.db d = Some t ->
  (forall sn, In sn (Db.snapshots t) -> Db.onBranch projectId branch sn = false) ->
  Db.getLatestSnapshot d projectId branch = Returned None.
Proof.
  intros Hdb Hno. unfold Db.getLatestSnapshot. rewrite Hdb. f_equal.
  assert (Hnil : List.filter (Db.onBranch projectId branch) (Db.snapshots t) = []).
  { induction (Db.snapshots t) as [| sn l IH]; [reflexivity |]. simpl.
    rewrite (Hno sn) by (left; reflexivity). apply IH.
    intros sn' Hin. apply Hno. right. exact Hin. }
  rewrite Hnil. reflexivity.
Qed.

(** C10 (as amended).  A pull on a (project, branch) without snapshot that
    holds the lock, releases it, and whose local scan completes returns
    [success: true] with zero counts and no conflict; nothing is downloaded,
    renamed or unlinked: the one file written is the scanner's hash cache
    [.sync/cache.json] under the local path. *)
Theorem pull_without_snapshot
    (env : Env) (d : Db.NetworkSyncDb) (t : Db.Tables) (project : Project)
    (localPath branch : string) (resolutions : option (list ConflictResolution))
    (includePatterns : option (list string)) (scanResult : ScanResult)
    (locked : acquire env = Returned tt)
    (released : release env = Returned tt)
    (scanned : fst (scanLocal env localPath) = Returned scanResult)
    (initialised : Db.db d = Some t)
    (noSnapshot : forall sn, In sn (Db.snapshots t) ->
                             Db.onBranch (p_id project) branch sn = false) :
  fst (pull env d project localPath branch resolutions includePatterns)
  = Returned (mkPullResult true 0 0 0 [] None) /\
  exists cache',
    snd (pull env d project localPath branch resolutions includePatterns)
    = [EvWriteFile (cachePathOf localPath) cache'].
Proof.
  unfold pull. rewrite locked. unfold pullBody.
  rewrite (no_snapshot_latest d t (p_id project) branch initialised noSnapshot).
  unfold scanLocal, scanDirectory in *.
  destruct (walked env) as [[files dirs] | e]; [| discriminate scanned].
  cbn [fst snd]. unfold settle. rewrite released. split; [reflexivity |].
  eexists. reflexivity.
Qed.

Definition emptyDb : Db.NetworkSyncDb :=
  Db.mkDb (Some (Db.mkTables [sampleProject] [] [] [] [])) "/nas/sync.db" false false.

Definition emptyTreeEnv : Env :=
  sampleEnv underContent (Returned tt) (Returned tt) (Returned ([], 0)).

Definition missingTreeEnv : Env :=
  sampleEnv underContent (Returned tt) (Returned tt)
            (Threw (ErrorObj "ENOENT: no such file or directory, scandir '/b'")).

Lemma pull_without_snapshot_witness :
  fst (pull emptyTreeEnv emptyDb sampleProject "/b" "main" None None)
  = Returned (mkPullResult true 0 0 0 [] None) /\
  exists cache',
    snd (pull emptyTreeEnv emptyDb sampleProject "/b" "main" None None)
    = [EvWriteFile (cachePathOf "/b") cache'].
Proof.
  apply (pull_without_snapshot emptyTreeEnv emptyDb (Db.mkTables [sampleProject] [] [] [] [])
           sampleProject "/b" "main" None None (mkScanResult [] 0 0 0 9000)
           eq_refl eq_refl eq_refl eq_refl).
  intros sn [].
Defined.

(** The lock is held by another peer. *)
Definition busyEnv : Env :=
  sampleEnv underContent
            (Threw (ErrorObj "Sync in progress by A (push started at 10:00:00)"))
            (Returned tt) (Returned ([], 0)).


(** C10 (as stated) fails on a catalog without snapshot: when the local
    directory cannot be scanned the pull returns [success: false]; when it
    can, the scan that precedes the snapshot lookup writes the local file
    [.sync/cache.json]; and when the lock is busy the pull returns nothing. *)
Lemma pull_without_snapshot_scans_first :
  Db.getLatestSnapshot emptyDb "p1" "main" = Returned None /\
  fst (pull missingTreeEnv emptyDb sampleProject "/b" "main" None None)
  = Returned (mkPullResult false 0 0 0 []
                (Some "ENOENT: no such file or directory, scandir '/b'"%string)) /\
  snd (pull emptyTreeEnv emptyDb sampleProject "/b" "main" None None)
  = [EvWriteFile "/b/.sync/cache.json" ∅] /\
  fst (pull busyEnv emptyDb sampleProject "/b" "main" None None)
  = Threw (ErrorObj "Sync in progress by A (push started at 10:00:00)").
Proof.
  repeat split; reflexivity.
Qed.

(** *** Failures and the structured result *)







(** *** keep_both *)

Lemma append_cons (c : ascii) (a b : string) :
  String.append (String c a) b = String c (String.append a b).
Proof. reflexivity. Qed.

Definition dotless (a : string) : Prop := JsString.includes_char "." a = false.

Lemma dotless_cons (c : ascii) (a : string) :
  dotless (String c a) -> Ascii.eqb "." c = false /\ dotless a.
Proof.
  unfold dotless. cbn [JsString.includes_char].
  destruct (Ascii.eqb "." c); intros H; [discriminate H | split; [reflexivity | exact H]].
Qed.

Lemma split_dotless (a : string) : dotless a -> JsString.split_char "." a = [a].
Proof.
  induction a as [| c a IH]; intros Hd; [reflexivity |].
  apply dotless_cons in Hd. destruct Hd as [Hc Hd]. cbn [JsString.split_char].
  rewrite Hc, (IH Hd). reflexivity.
Qed.

Lemma split_one_dot (stem ext : string) :
  dotless stem -> dotless ext ->
  JsString.split_char "." (String.append stem (String "." ext)) = [stem; ext].
Proof.
  intros Hs He. induction stem as [| c stem IH].
  - change (String.append EmptyString (String "." ext)) with (String "." ext).
    cbn [JsString.split_char]. rewrite Ascii.eqb_refl, (split_dotless ext He). reflexivity.
  - apply dotless_cons in Hs. destruct Hs as [Hc Hs]. rewrite append_cons.
    cbn [JsString.split_char]. rewrite Hc, (IH Hs). reflexivity.
Qed.

Lemma startsWith_self (a : string) : JsString.startsWith a a = true.
Proof.
  induction a as [| c a IH]; cbn [JsString.startsWith];
    [reflexivity | rewrite Ascii.eqb_refl; exact IH].
Qed.

Lemma drop_all (a : string) : JsString.drop (String.length a) a = EmptyString.
Proof.
  induction a as [| c a IH]; simpl; [reflexivity | exact IH].
Qed.

Lemma replace_first_suffix (stem ext : string) :
  dotless stem ->
  JsString.replace_first (String "." ext) EmptyString (String.append stem (String "." ext)) = stem.
Proof.
  intros Hs. induction stem as [| c stem IH].
  - change (String.append EmptyString (String "." ext)) with (String "." ext).
    unfold JsString.replace_first.
    rewrite (startsWith_self (String "." ext)), (drop_all (String "." ext)). reflexivity.
  - apply dotless_cons in Hs. destruct Hs as [Hc Hs]. rewrite append_cons.
    cbn [JsString.replace_first JsString.startsWith]. rewrite Hc. rewrite (IH Hs). reflexivity.
Qed.

Lemma includes_appended_dot (stem ext : string) :
  JsString.includes_char "." (String.append stem (String "." ext)) = true.
Proof.
  induction stem as [| c stem IH]; [reflexivity |].
  rewrite append_cons. cbn [JsString.includes_char].
  destruct (Ascii.eqb "." c); [reflexivity | exact IH].
Qed.

(** Where the code does what [keep_both] is meant to do: a path with a single
    dot, [stem.ext], becomes [stem.local.ext]. *)
Lemma conflictPathOf_single_dot (stem ext : string) :
  dotless stem -> dotless ext ->
  conflictPathOf (String.append stem (String "." ext))
  = String.append stem (String.append ".local" (String "." ext)).
Proof.
  intros Hs He. unfold conflictPathOf.
  rewrite includes_appended_dot, (split_one_dot stem ext Hs He).
  change (JsString.pop [stem; ext]) with ext.
  change (String.append "." ext) with (String "." ext).
  rewrite (replace_first_suffix stem ext Hs). reflexivity.
Qed.


(** The name the specification gives: [.local] goes before the final
    extension of the file name (the part of the last path segment from its
    last dot on, a leading dot not counting). *)
Definition extname (p : string) : string :=
  let base := JsString.pop (JsString.split_char "/" p) in
  match JsString.split_char "." base with
  | [] | [_] => EmptyString
  | [EmptyString; _] => EmptyString
  | pieces => String.append "." (JsString.pop pieces)
  end.

Definition specConflictPath (p : string) : string :=
  let ext := extname p in
  String.append (String.substring 0 (String.length p - String.length ext) p)
                (String.append ".local" ext).

(** The local tree holds [v1.2/README]; there is no directory [v1.local.2],
    so the rename of the example is refused by the file system. *)
Definition keepBothEnv : Env :=
  mkEnv StorageProps.lengthDigest StorageProps.frame JsString.compareBytes underContent
        (Returned tt) (Returned tt)
        (Returned ([mkWalked "v1.2/README" 2000 1 [x42]], 1)) ∅
        (fun _ _ => Threw (ErrorObj "ENOENT: no such file or directory, rename"))
        "s2" 9000.

Definition keepBothDb : Db.NetworkSyncDb :=
  Db.mkDb
    (Some (Db.mkTables [sampleProject] [sampleSnapshot] [Db.mkBranchRow "p1" "main" 5000]
             [ Db.mkFileEntryRow "s1" "v1.2/README" "00000000000000a1" 6 1000 ] []))
    "/nas/sync.db" false false.

(** C7: the code at work.  On [a.txt] the local file becomes [a.local.txt].
    On [v1.2/README] (no extension, a dot in the directory name) and on
    [dir.d/file.d] (the extension also occurs earlier in the path) the
    computed name is not [<stem>.local<ext>]: the rename that precedes the
    download aims at a file in another directory, and in the example the
    pull ends there with [success: false], the remote version not fetched. *)
Theorem keep_both_rename_target :
  conflictPathOf "a.txt" = "a.local.txt"%string /\
  specConflictPath "a.txt" = "a.local.txt"%string /\
  conflictPathOf "v1.2/README" = "v1.local.2/README"%string /\
  specConflictPath "v1.2/README" = "v1.2/README.local"%string /\
  conflictPathOf "dir.d/file.d" = "dir/file.d.local.d"%string /\
  specConflictPath "dir.d/file.d" = "dir.d/file.local.d"%string /\
  pull keepBothEnv keepBothDb sampleProject "/b" "main"
       (Some [mkResolution "v1.2/README" keep_both]) None
  = (Returned (mkPullResult false 0 0 0 []
                 (Some "ENOENT: no such file or directory, rename"%string)),
     [ EvWriteFile "/b/.sync/cache.json"
         {[ "v1.2/README"%string := mkCacheEntry 2000 1 "0000000000000001" ]};
       EvRename "/b/v1.2/README" "/b/v1.local.2/README" ]).
Proof.
  repeat split; vm_compute; reflexivity.
Qed.

(** *** Garbage collection *)

(** A content hash is referenced when some row of [file_entries] carries it. *)
Definition referenced (d : Db.NetworkSyncDb) (h : string) : Prop :=
  exists t row, Db.db d = Some t /\ In row (Db.file_entries t) /\ Db.r_hash row = h.







End SyncProps.

(** ** db.ts: advisory file locks *)

Module DbLockProps.
Import Db DbQueries.

Lemma find_none_existsb {A : Type} (f : A -> bool) (l : list A) :
  List.find f l = None <-> existsb f l = false.
Proof.
  induction l as [| x l IH]; simpl; [tauto |].
  destruct (f x); simpl; [split; discriminate | exact IH].
Qed.

Lemma find_app_none {A : Type} (f : A -> bool) (l1 l2 : list A) :
  List.find f l1 = None -> List.find f (l1 ++ l2) = List.find f l2.
Proof.
  induction l1 as [| x l1 IH]; simpl; [reflexivity |].
  destruct (f x); [discriminate | exact IH].
Qed.

Lemma find_filter_out {A : Type} (f : A -> bool) (l : list A) :
  List.find f (List.filter (fun x => negb (f x)) l) = None.
Proof.
  induction l as [| x l IH]; simpl; [reflexivity |].
  destruct (f x) eqn:E; simpl; [exact IH | rewrite E; exact IH].
Qed.

Lemma find_filter_other {A : Type} (f g : A -> bool) (l : list A) :
  (forall x, g x = true -> f x = false) ->
  List.find g (List.filter (fun x => negb (f x)) l) = List.find g l.
Proof.
  intros Hfg. induction l as [| x l IH]; simpl; [reflexivity |].
  destruct (f x) eqn:E; simpl.
  - destruct (g x) eqn:G; [rewrite (Hfg x G) in E; discriminate E | exact IH].
  - destruct (g x); [reflexivity | exact IH].
Qed.

Lemma lockOn_other (projectId file projectId' file' : string) (l : FileLock) :
  (projectId', file') <> (projectId, file) ->
  lockOn projectId' file' l = true -> lockOn projectId file l = false.
Proof.
  unfold lockOn. intros Hne H. apply andb_true_iff in H. destruct H as [H1 H2].
  apply String.eqb_eq in H1. apply String.eqb_eq in H2.
  destruct (String.eqb_spec (l_projectId l) projectId) as [E1 | E1]; [| reflexivity].
  destruct (String.eqb_spec (l_path l) file) as [E2 | E2]; [| reflexivity].
  exfalso. apply Hne. congruence.
Qed.

(** X1.  [acquireFileLock] on an initialised catalog succeeds exactly when
    the path has no lock: it then records the caller as the holder and
    saves; when a lock exists it answers [false], changes nothing and writes
    nothing, whoever holds the lock (the caller included). *)
Theorem acquireFileLock_exclusive
    (d : NetworkSyncDb) (t : Tables) (projectId file machineName : string) (now : Date)
    (initialised : db d = Some t) :
  (getFileLock d projectId file = Returned None ->
   res_out (acquireFileLock d projectId file machineName now) = Returned true /\
   getFileLock (res_db (acquireFileLock d projectId file machineName now)) projectId file
   = Returned (Some (mkFileLock projectId file machineName now)) /\
   res_io (acquireFileLock d projectId file machineName now) <> []) /\
  (forall holder, getFileLock d projectId file = Returned (Some holder) ->
   acquireFileLock d projectId file machineName now = mkRes (Returned false) d []).
Proof.
  unfold getFileLock, acquireFileLock. rewrite initialised. split.
  - intros Hnone. injection Hnone as Hnone.
    rewrite (proj1 (find_none_existsb _ _) Hnone).
    unfold commit, save, with_image. cbn [res_out res_db res_io db dirty file_locks].
    split; [reflexivity |]. split; [| discriminate].
    rewrite (find_app_none _ _ _ Hnone). simpl.
    unfold lockOn. cbn [l_projectId l_path]. rewrite !String.eqb_refl. reflexivity.
  - intros holder Hsome. injection Hsome as Hsome.
    destruct (existsb (lockOn projectId file) (file_locks t)) eqn:E; [reflexivity |].
    apply find_none_existsb in E. congruence.
Qed.

Definition lockedDb : NetworkSyncDb :=
  mkDb (Some (mkTables [] [] [] [] [mkFileLock "p1" "Content/a.uasset" "A" 100]))
       "/nas/sync.db" false false.

Lemma acquireFileLock_exclusive_witness :
  (getFileLock lockedDb "p1" "Content/a.uasset" = Returned None ->
   res_out (acquireFileLock lockedDb "p1" "Content/a.uasset" "B" 200) = Returned true /\
   getFileLock (res_db (acquireFileLock lockedDb "p1" "Content/a.uasset" "B" 200))
               "p1" "Content/a.uasset"
   = Returned (Some (mkFileLock "p1" "Content/a.uasset" "B" 200)) /\
   res_io (acquireFileLock lockedDb "p1" "Content/a.uasset" "B" 200) <> []) /\
  (forall holder, getFileLock lockedDb "p1" "Content/a.uasset" = Returned (Some holder) ->
   acquireFileLock lockedDb "p1" "Content/a.uasset" "B" 200 = mkRes (Returned false) lockedDb []).
Proof.
  exact (acquireFileLock_exclusive lockedDb _ "p1" "Content/a.uasset" "B" 200 eq_refl).
Defined.

(** X2.  [releaseFileLock] never removes another machine's lock: when the
    path is locked by someone else it answers [false] and changes nothing;
    when the caller holds the lock it answers [true], the path is unlocked
    afterwards and the locks of other paths are as before; when the path is
    not locked it answers [true] and changes nothing. *)
Theorem releaseFileLock_only_by_holder
    (d : NetworkSyncDb) (t : Tables) (projectId file machineName : string)
    (initialised : db d = Some t) :
  (getFileLock d projectId file = Returned None ->
   releaseFileLock d projectId file machineName = mkRes (Returned true) d []) /\
  (forall holder, getFileLock d projectId file = Returned (Some holder) ->
   l_machineName holder <> machineName ->
   releaseFileLock d projectId file machineName = mkRes (Returned false) d []) /\
  (forall holder, getFileLock d projectId file = Returned (Some holder) ->
   l_machineName holder = machineName ->
   res_out (releaseFileLock d projectId file machineName) = Returned true /\
   getFileLock (res_db (releaseFileLock d projectId file machineName)) projectId file
   = Returned None /\
   forall projectId' file', (projectId', file') <> (projectId, file) ->
     getFileLock (res_db (releaseFileLock d projectId file machineName)) projectId' file'
     = getFileLock d projectId' file').
Proof.
  unfold getFileLock, releaseFileLock. rewrite initialised. split; [| split].
  - intros H. injection H as ->. reflexivity.
  - intros holder H Hne. injection H as ->.
    destruct (String.eqb_spec (l_machineName holder) machineName); [contradiction | reflexivity].
  - intros holder H Heq. injection H as ->.
    rewrite (proj2 (String.eqb_eq _ _) Heq).
    unfold commit, save, with_image. cbn [res_out res_db res_io db dirty file_locks].
    split; [reflexivity |]. split.
    + rewrite find_filter_out. reflexivity.
    + intros projectId' file' Hne. f_equal. apply find_filter_other.
      intros l. apply lockOn_other. exact Hne.
Qed.

Lemma releaseFileLock_only_by_holder_witness :
  (getFileLock lockedDb "p1" "Content/a.uasset" = Returned None ->
   releaseFileLock lockedDb "p1" "Content/a.uasset" "B" = mkRes (Returned true) lockedDb []) /\
  (forall holder, getFileLock lockedDb "p1" "Content/a.uasset" = Returned (Some holder) ->
   l_machineName holder <> "B"%string ->
   releaseFileLock lockedDb "p1" "Content/a.uasset" "B" = mkRes (Returned false) lockedDb []) /\
  (forall holder, getFileLock lockedDb "p1" "Content/a.uasset" = Returned (Some holder) ->
   l_machineName holder = "B"%string ->
   res_out (releaseFileLock lockedDb "p1" "Content/a.uasset" "B") = Returned true /\
   getFileLock (res_db (releaseFileLock lockedDb "p1" "Content/a.uasset" "B"))
               "p1" "Content/a.uasset" = Returned None /\
   forall projectId' file', (projectId', file') <> ("p1"%string, "Content/a.uasset"%string) ->
     getFileLock (res_db (releaseFileLock lockedDb "p1" "Content/a.uasset" "B")) projectId' file'
     = getFileLock lockedDb projectId' file').
Proof.
  exact (releaseFileLock_only_by_holder lockedDb _ "p1" "Content/a.uasset" "B" eq_refl).
Defined.

(** The PRIMARY KEY of [file_locks]: one row for a project and path. *)
Definition lockKey (l : FileLock) : string * string := (l_projectId l, l_path l).

Definition oneHolderPerPath (t : Tables) : Prop :=
  List.NoDup (List.map lockKey (file_locks t)).

(** The catalog after a sequence of write operations, failed ones included. *)
Definition runOps (d : NetworkSyncDb) (ops : list DbProps.WriteOp) : NetworkSyncDb :=
  List.fold_left (fun d' op => DbProps.after (DbProps.runOp d' op)) ops d.

Lemma insertEntries_locks (es : list FileEntry) (t : Tables) (snapshotId : string) :
  file_locks (fst (insertEntries t snapshotId es)) = file_locks t.
Proof.
  revert t. induction es as [| e es IH]; intros t; simpl; [reflexivity |].
  match goal with |- context [if ?b then _ else _] => destruct b end; [reflexivity |].
  rewrite IH. reflexivity.
Qed.

Lemma createBranch_locks (d : NetworkSyncDb) (t : Tables) (projectId name : string) (now : Date) :
  db d = Some t ->
  exists t', db (res_db (createBranch d projectId name now)) = Some t' /\
             file_locks t' = file_locks t.
Proof.
  intros Hdb. unfold createBranch. rewrite Hdb.
  destruct (fk_ok d (hasProject t projectId)).
  - eexists. split; reflexivity.
  - exists t. split; [exact Hdb | reflexivity].
Qed.

Lemma not_locked_not_key (projectId file : string) (locks : list FileLock) :
  existsb (lockOn projectId file) locks = false ->
  ~ In (projectId, file) (List.map lockKey locks).
Proof.
  intros H Hin. apply in_map_iff in Hin. destruct Hin as (l & Hk & Hin).
  assert (existsb (lockOn projectId file) locks = true) as Ht.
  { apply existsb_exists. exists l. split; [exact Hin |].
    unfold lockKey in Hk. injection Hk as H1 H2. unfold lockOn.
    rewrite H1, H2, !String.eqb_refl. reflexivity. }
  congruence.
Qed.

Lemma NoDup_map_filter {A B : Type} (f : A -> B) (p : A -> bool) (l : list A) :
  List.NoDup (List.map f l) -> List.NoDup (List.map f (List.filter p l)).
Proof.
  induction l as [| x l IH]; simpl; intros H; [constructor |].
  apply List.NoDup_cons_iff in H. destruct H as [Hx Hl].
  destruct (p x); simpl; [| exact (IH Hl)].
  apply List.NoDup_cons_iff. split; [| exact (IH Hl)].
  intros Hin. apply Hx. apply in_map_iff in Hin. destruct Hin as (y & Hy & Hiny).
  apply in_map_iff. exists y. split; [exact Hy |].
  apply filter_In in Hiny. tauto.
Qed.

Lemma runOp_one_holder (op : DbProps.WriteOp) (d : NetworkSyncDb) (t : Tables) :
  db d = Some t -> oneHolderPerPath t ->
  exists t', db (DbProps.after (DbProps.runOp d op)) = Some t' /\ oneHolderPerPath t'.
Proof.
  intros Hdb Hone.
  assert (forall t', file_locks t' = file_locks t -> oneHolderPerPath t') as Hsame.
  { intros t' E. unfold oneHolderPerPath. rewrite E. exact Hone. }
  destruct op; simpl.
  - unfold createProject. rewrite Hdb.
    destruct (hasProject t (p_id project)); simpl; eauto.
  - unfold updateProject. rewrite Hdb.
    destruct (u_name updates), (u_lastSyncAt updates); simpl; eauto.
  - unfold deleteProject. rewrite Hdb. simpl. eauto.
  - unfold createSnapshot. rewrite Hdb.
    destruct (hasSnapshot t (s_id snapshot)); simpl; [eauto |].
    destruct (negb (fk_ok d (hasProject t (s_projectId snapshot)))); simpl; [eauto |].
    match goal with
    | |- context [createBranch ?d1 ?p ?n ?w] =>
        destruct (createBranch_locks d1 _ p n w eq_refl) as (t2 & Ht2 & Hl2)
    end.
    rewrite Ht2.
    pose proof (insertEntries_locks es t2 (s_id snapshot)) as Hl3.
    destruct (insertEntries t2 (s_id snapshot) es) as [t3 [msg |]]; simpl in *;
      (eexists; split; [reflexivity | apply Hsame; congruence]).
  - destruct (createBranch_locks d t projectId name now Hdb) as (t2 & Ht2 & Hl2).
    exists t2. split; [exact Ht2 | exact (Hsame _ Hl2)].
  - unfold deleteSnapshot. rewrite Hdb. simpl. eauto.
  - unfold acquireFileLock. rewrite Hdb.
    destruct (existsb (lockOn projectId file) (file_locks t)) eqn:E; simpl; [eauto |].
    eexists. split; [reflexivity |].
    unfold oneHolderPerPath. cbn [file_locks]. rewrite List.map_app.
    apply List.NoDup_app; [exact Hone | |].
    + apply List.NoDup_cons; [intros [] | constructor].
    + intros k Hk [<- | []]. revert Hk. apply not_locked_not_key. exact E.
  - unfold releaseFileLock. rewrite Hdb.
    destruct (List.find (lockOn projectId file) (file_locks t)) as [l |]; simpl; [| eauto].
    destruct (String.eqb (l_machineName l) machineName); simpl; [| eauto].
    eexists. split; [reflexivity |].
    unfold oneHolderPerPath. cbn [file_locks]. apply NoDup_map_filter. exact Hone.
Qed.

(** X3.  Whatever sequence of catalog write operations runs on an
    initialised catalog (failed ones included), the catalog stays
    initialised and no project path ever has two lock rows: the lock table
    keeps one holder per path. *)
Theorem file_locks_one_holder_per_path
    (ops : list DbProps.WriteOp) (d : NetworkSyncDb) (t : Tables)
    (initialised : db d = Some t)
    (unique : oneHolderPerPath t) :
  exists t', db (runOps d ops) = Some t' /\ oneHolderPerPath t'.
Proof.
  revert d t initialised unique. induction ops as [| op ops IH]; intros d t Hdb Hone.
  - exists t. split; assumption.
  - destruct (runOp_one_holder op d t Hdb Hone) as (t1 & Hdb1 & Hone1).
    exact (IH _ t1 Hdb1 Hone1).
Qed.

Lemma file_locks_one_holder_per_path_witness :
  exists t',
    db (runOps DbProps.sampleDb
          [DbProps.OpAcquireFileLock "p1" "a.uasset" "A" 1;
           DbProps.OpAcquireFileLock "p1" "a.uasset" "B" 2;
           DbProps.OpReleaseFileLock "p1" "a.uasset" "B";
           DbProps.OpAcquireFileLock "p1" "b.uasset" "B" 3]) = Some t' /\
    oneHolderPerPath t'.
Proof.
  apply (file_locks_one_holder_per_path _ DbProps.sampleDb emptyTables eq_refl).
  constructor.
Defined.

End DbLockProps.

(** ** db.ts: snapshots and their entries *)

Module DbSnapshotProps.
Import Db DbQueries.

(** The row [createSnapshot] stores for a snapshot: [branch || 'main']. *)
Definition storedRow (snapshot : Snapshot) : Snapshot :=
  mkSnapshot (s_id snapshot) (s_projectId snapshot) (s_message snapshot)
             (s_createdAt snapshot) (s_createdBy snapshot) (s_manifestHash snapshot)
             (s_fileCount snapshot) (s_totalSize snapshot) (branchOrMain (s_branch snapshot)).

(** What [getSnapshotEntries] makes of a stored entry: [isDirectory] is not
    a column and reads back as [false]. *)
Definition readBack (e : FileEntry) : FileEntry :=
  mkFileEntry (path e) (hash e) (e_size e) (modifiedAt e) false.

Definition rowsOf (t : Tables) (snapshotId : string) : list FileEntryRow :=
  List.filter (fun r => String.eqb (r_snapshot_id r) snapshotId) (file_entries t).

Definition withEntries (t : Tables) (rows : list FileEntryRow) : Tables :=
  mkTables (projects t) (snapshots t) (branches t) (file_entries t ++ rows) (file_locks t).

Lemma withEntries_nil (t : Tables) : withEntries t [] = t.
Proof. destruct t. unfold withEntries. simpl. rewrite List.app_nil_r. reflexivity. Qed.

Lemma keyTaken_false (rows : list FileEntryRow) (snapshotId p : string) :
  (forall r, In r rows -> r_snapshot_id r = snapshotId -> r_path r <> p) ->
  existsb (fun r => String.eqb (r_snapshot_id r) snapshotId && String.eqb (r_path r) p) rows = false.
Proof.
  intros H. destruct (existsb _ rows) eqn:E; [| reflexivity].
  apply existsb_exists in E. destruct E as (r & Hin & Hr).
  apply andb_true_iff in Hr. destruct Hr as [H1 H2].
  apply String.eqb_eq in H1. apply String.eqb_eq in H2.
  exfalso. exact (H r Hin H1 H2).
Qed.

(** The INSERT loop goes through when the paths are distinct and none of
    them is stored for the snapshot already. *)
Lemma insertEntries_fresh (es : list FileEntry) (t : Tables) (snapshotId : string) :
  List.NoDup (List.map path es) ->
  (forall r e, In r (file_entries t) -> In e es -> r_snapshot_id r = snapshotId ->
               r_path r <> path e) ->
  insertEntries t snapshotId es = (withEntries t (List.map (rowOf snapshotId) es), None).
Proof.
  revert t. induction es as [| e es IH]; intros t Hnd Hfresh.
  - simpl. rewrite withEntries_nil. reflexivity.
  - simpl in Hnd. apply List.NoDup_cons_iff in Hnd. destruct Hnd as [Hnotin Hnd].
    cbn [insertEntries].
    rewrite keyTaken_false.
    2:{ intros r Hin Hid. exact (Hfresh r e Hin (or_introl eq_refl) Hid). }
    rewrite IH.
    + unfold withEntries. cbn [projects snapshots branches file_entries file_locks List.map].
      rewrite <- List.app_assoc. reflexivity.
    + exact Hnd.
    + cbn [file_entries]. intros r e' Hin Hin' Hid.
      apply in_app_or in Hin. destruct Hin as [Hin | [<- | []]].
      * exact (Hfresh r e' Hin (or_intror Hin') Hid).
      * cbn [rowOf r_path]. intros Heq. apply Hnotin. rewrite Heq.
        apply in_map. exact Hin'.
Qed.

(** Conversely the loop stops at the first path it meets twice. *)
Lemma insertEntries_done (es : list FileEntry) (t t' : Tables) (snapshotId : string) :
  insertEntries t snapshotId es = (t', None) ->
  List.NoDup (List.map path es) /\
  (forall r e, In r (file_entries t) -> In e es -> r_snapshot_id r = snapshotId ->
               r_path r <> path e).
Proof.
  revert t. induction es as [| e es IH]; intros t H.
  - split; [constructor | intros r e _ []].
  - cbn [insertEntries] in H.
    destruct (existsb _ (file_entries t)) eqn:E; [discriminate H |].
    apply IH in H. destruct H as [Hnd Hfresh]. cbn [file_entries] in Hfresh. split.
    + simpl. apply List.NoDup_cons; [| exact Hnd].
      intros Hin. apply in_map_iff in Hin. destruct Hin as (e' & Hp & Hin).
      apply (Hfresh (rowOf snapshotId e) e'); [| exact Hin | reflexivity |].
      * apply in_or_app. right. left. reflexivity.
      * simpl. congruence.
    + intros r e' Hin [<- | Hin'] Hid.
      * intros Hp. assert (existsb (fun r0 => String.eqb (r_snapshot_id r0) snapshotId
                                               && String.eqb (r_path r0) (path e))
                                   (file_entries t) = true) as Ht.
        { apply existsb_exists. exists r. split; [exact Hin |].
          rewrite Hid, Hp, !String.eqb_refl. reflexivity. }
        congruence.
      * apply (Hfresh r e'); [apply in_or_app; left; exact Hin | exact Hin' | exact Hid].
Qed.

Lemma insertEntries_keeps_snapshots (es : list FileEntry) (t : Tables) (snapshotId : string) :
  snapshots (fst (insertEntries t snapshotId es)) = snapshots t.
Proof.
  revert t. induction es as [| e es IH]; intros t; simpl; [reflexivity |].
  match goal with |- context [if ?b then _ else _] => destruct b end; [reflexivity |].
  rewrite IH. reflexivity.
Qed.

Lemma createBranch_keeps (d : NetworkSyncDb) (t : Tables) (projectId name : string) (now : Date) :
  db d = Some t ->
  exists t',
    db (res_db (createBranch d projectId name now)) = Some t' /\
    snapshots t' = snapshots t /\ file_entries t' = file_entries t /\
    projects t' = projects t /\
    dbPath (res_db (createBranch d projectId name now)) = dbPath d /\
    foreign_keys (res_db (createBranch d projectId name now)) = foreign_keys d.
Proof.
  intros Hdb. unfold createBranch. rewrite Hdb.
  destruct (fk_ok d (hasProject t projectId)).
  - eexists. repeat split; reflexivity.
  - exists t. repeat split; [exact Hdb].
Qed.

Lemma find_fresh_snapshot (snaps : list Snapshot) (row : Snapshot) :
  existsb (fun sn => String.eqb (s_id sn) (s_id row)) snaps = false ->
  List.find (fun sn => String.eqb (s_id sn) (s_id row)) (snaps ++ [row]) = Some row.
Proof.
  intros H. rewrite DbLockProps.find_app_none.
  - simpl. rewrite String.eqb_refl. reflexivity.
  - apply DbLockProps.find_none_existsb. exact H.
Qed.

Lemma filter_none {A : Type} (f : A -> bool) (l : list A) :
  (forall x, In x l -> f x = false) -> List.filter f l = [].
Proof.
  induction l as [| x l IH]; intros H; simpl; [reflexivity |].
  rewrite (H x (or_introl eq_refl)). apply IH. intros y Hy. apply H. right. exact Hy.
Qed.

Lemma filter_all {A : Type} (f : A -> bool) (l : list A) :
  (forall x, In x l -> f x = true) -> List.filter f l = l.
Proof.
  induction l as [| x l IH]; intros H; simpl; [reflexivity |].
  rewrite (H x (or_introl eq_refl)). f_equal. apply IH. intros y Hy. apply H. right. exact Hy.
Qed.

Section CreateSnapshot.
Variables (d : NetworkSyncDb) (t : Tables) (snapshot : Snapshot) (es : list FileEntry) (now : Date).
Hypothesis initialised : db d = Some t.
Hypothesis fresh_id : hasSnapshot t (s_id snapshot) = false.
Hypothesis project_known : fk_ok d (hasProject t (s_projectId snapshot)) = true.

(** The catalog when the INSERT loop of [createSnapshot] starts. *)
Lemma createSnapshot_unfold :
  exists t2,
    db (res_db (createBranch
                  (mkDb (Some (mkTables (projects t) (snapshots t ++ [storedRow snapshot]) (branches t)
                                        (file_entries t) (file_locks t)))
                        (dbPath d) (dirty d) (foreign_keys d))
                  (s_projectId snapshot) (branchOrMain (s_branch snapshot)) now)) = Some t2 /\
    snapshots t2 = snapshots t ++ [storedRow snapshot] /\
    file_entries t2 = file_entries t /\
    createSnapshot d snapshot es now =
    match insertEntries t2 (s_id snapshot) es with
    | (t3, Some msg) =>
        sqlError msg (mkDb (Some t3) (dbPath d) false (foreign_keys d))
                 [IoWriteFile (dbPath d) t2]
    | (t3, None) =>
        mkRes (Returned tt) (mkDb (Some t3) (dbPath d) false (foreign_keys d))
              [IoWriteFile (dbPath d) t2; IoWriteFile (dbPath d) t3]
    end.
Proof.
  unfold createSnapshot, storedRow. rewrite initialised, fresh_id, project_known. cbn [negb].
  match goal with |- context [createBranch ?d1 _ _ _] => set (start := d1) end.
  assert (fk_ok start (hasProject (mkTables (projects t)
            (snapshots t ++ [mkSnapshot (s_id snapshot) (s_projectId snapshot) (s_message snapshot)
                               (s_createdAt snapshot) (s_createdBy snapshot) (s_manifestHash snapshot)
                               (s_fileCount snapshot) (s_totalSize snapshot)
                               (branchOrMain (s_branch snapshot))])
            (branches t) (file_entries t) (file_locks t)) (s_projectId snapshot)) = true) as Hfk
    by exact project_known.
  unfold createBranch. cbn [db start]. fold start. rewrite Hfk.
  unfold commit, save, with_image. cbn [db dbPath dirty foreign_keys res_db res_io app start].
  eexists. split; [reflexivity |]. split; [reflexivity |]. split; [reflexivity |].
  match goal with |- context [insertEntries ?a ?b ?c] => destruct (insertEntries a b c) as [t3 [msg |]] end;
    reflexivity.
Qed.

End CreateSnapshot.


Definition assetEntry (p h : string) : FileEntry := mkFileEntry p h 10 1700000000000 false.

Definition projectDb : NetworkSyncDb :=
  mkDb (Some (mkTables [DbProps.sampleProject] [] [] [] [])) "/nas/sync.db" false true.

Definition firstSnapshot : Snapshot :=
  mkSnapshot "s1" "p1" "first" 1700000000000 "A" "m1" 2 20 "".


(** X5.  [createSnapshot] is not a transaction: when two entries share a
    path, the call throws the PRIMARY KEY failure of [file_entries], yet the
    snapshot row stays in the catalog and the catalog file has already been
    written with it. *)
Theorem createSnapshot_duplicate_path_leaves_row
    (d : NetworkSyncDb) (t : Tables) (snapshot : Snapshot) (es : list FileEntry) (now : Date)
    (initialised : db d = Some t)
    (fresh_id : hasSnapshot t (s_id snapshot) = false)
    (project_known : fk_ok d (hasProject t (s_projectId snapshot)) = true)
    (repeated_path : ~ List.NoDup (List.map path es)) :
  res_out (createSnapshot d snapshot es now)
  = Threw (ErrorObj "UNIQUE constraint failed: file_entries.snapshot_id, file_entries.path") /\
  getSnapshot (res_db (createSnapshot d snapshot es now)) (s_id snapshot)
  = Returned (Some (storedRow snapshot)) /\
  exists image,
    res_io (createSnapshot d snapshot es now) = [IoWriteFile (dbPath d) image] /\
    In (storedRow snapshot) (snapshots image).
Proof.
  destruct (createSnapshot_unfold d t snapshot es now initialised fresh_id project_known)
    as (t2 & _ & Hs2 & He2 & ->).
  pose proof (insertEntries_keeps_snapshots es t2 (s_id snapshot)) as Hkeep.
  destruct (insertEntries t2 (s_id snapshot) es) as [t3 [msg |]] eqn:E.
  - assert (msg = "UNIQUE constraint failed: file_entries.snapshot_id, file_entries.path"%string)
      as ->.
    { clear - E. revert t2 E. induction es as [| e es IH]; intros t2 E; [discriminate E |].
      cbn [insertEntries] in E.
      destruct (existsb _ (file_entries t2)); [congruence | exact (IH _ E)]. }
    cbn [sqlError res_out res_db res_io]. split; [reflexivity |]. split.
    + unfold getSnapshot. cbn [db fst] in *. rewrite Hkeep, Hs2. f_equal.
      apply (find_fresh_snapshot (snapshots t) (storedRow snapshot)). exact fresh_id.
    + exists t2. split; [reflexivity |]. rewrite Hs2. apply in_or_app. right. left. reflexivity.
  - exfalso. apply repeated_path. exact (proj1 (insertEntries_done _ _ _ _ E)).
Qed.

Lemma createSnapshot_duplicate_path_leaves_row_witness :
  res_out (createSnapshot projectDb firstSnapshot
             [assetEntry "a.uasset" "h1"; assetEntry "a.uasset" "h2"] 5)
  = Threw (ErrorObj "UNIQUE constraint failed: file_entries.snapshot_id, file_entries.path") /\
  getSnapshot (res_db (createSnapshot projectDb firstSnapshot
             [assetEntry "a.uasset" "h1"; assetEntry "a.uasset" "h2"] 5)) "s1"
  = Returned (Some (storedRow firstSnapshot)) /\
  exists image,
    res_io (createSnapshot projectDb firstSnapshot
              [assetEntry "a.uasset" "h1"; assetEntry "a.uasset" "h2"] 5)
    = [IoWriteFile "/nas/sync.db" image] /\
    In (storedRow firstSnapshot) (snapshots image).
Proof.
  apply (createSnapshot_duplicate_path_leaves_row projectDb _ firstSnapshot
           [assetEntry "a.uasset" "h1"; assetEntry "a.uasset" "h2"] 5 eq_refl eq_refl eq_refl).
  intros H. apply List.NoDup_cons_iff in H. destruct H as [H _]. apply H. left. reflexivity.
Defined.

(** X6.  A successful [createSnapshot] writes the catalog file twice: the
    first image (saved by [createBranch]) already shows the snapshot but
    none of its entries, the second is the final catalog. *)
Theorem createSnapshot_saves_twice
    (d : NetworkSyncDb) (t : Tables) (snapshot : Snapshot) (es : list FileEntry) (now : Date)
    (initialised : db d = Some t)
    (project_known : fk_ok d (hasProject t (s_projectId snapshot)) = true)
    (no_orphans : rowsOf t (s_id snapshot) = [])
    (returned : res_out (createSnapshot d snapshot es now) = Returned tt) :
  exists early final,
    res_io (createSnapshot d snapshot es now)
    = [IoWriteFile (dbPath d) early; IoWriteFile (dbPath d) final] /\
    db (res_db (createSnapshot d snapshot es now)) = Some final /\
    In (storedRow snapshot) (snapshots early) /\
    rowsOf early (s_id snapshot) = [] /\
    List.map mapFileEntry (rowsOf final (s_id snapshot)) = List.map readBack es.
Proof.
  assert (hasSnapshot t (s_id snapshot) = false) as fresh_id.
  { revert returned. unfold createSnapshot. rewrite initialised.
    destruct (hasSnapshot t (s_id snapshot)); [discriminate | reflexivity]. }
  revert returned.
  destruct (createSnapshot_unfold d t snapshot es now initialised fresh_id project_known)
    as (t2 & _ & Hs2 & He2 & ->).
  destruct (insertEntries t2 (s_id snapshot) es) as [t3 [msg |]] eqn:E; [discriminate |].
  intros _. exists t2, t3. cbn [res_io res_db db].
  split; [reflexivity |]. split; [reflexivity |]. split.
  { rewrite Hs2. apply in_or_app. right. left. reflexivity. }
  assert (rowsOf t2 (s_id snapshot) = []) as Hearly.
  { unfold rowsOf in *. rewrite He2. exact no_orphans. }
  split; [exact Hearly |].
  destruct (insertEntries_done _ _ _ _ E) as [Hnd Hfresh].
  rewrite (insertEntries_fresh es t2 (s_id snapshot) Hnd Hfresh) in E.
  injection E as <-. unfold rowsOf in *. unfold withEntries. cbn [file_entries].
  rewrite List.filter_app, Hearly. cbn [app].
  rewrite filter_all.
  - rewrite List.map_map. reflexivity.
  - intros r Hin. apply in_map_iff in Hin. destruct Hin as (e & <- & _). apply String.eqb_refl.
Qed.

Lemma createSnapshot_saves_twice_witness :
  exists early final,
    res_io (createSnapshot projectDb firstSnapshot [assetEntry "a.uasset" "h1"] 5)
    = [IoWriteFile (dbPath projectDb) early; IoWriteFile (dbPath projectDb) final] /\
    db (res_db (createSnapshot projectDb firstSnapshot [assetEntry "a.uasset" "h1"] 5))
    = Some final /\
    In (storedRow firstSnapshot) (snapshots early) /\
    rowsOf early (s_id firstSnapshot) = [] /\
    List.map mapFileEntry (rowsOf final (s_id firstSnapshot))
    = List.map readBack [assetEntry "a.uasset" "h1"].
Proof.
  exact (createSnapshot_saves_twice projectDb _ firstSnapshot [assetEntry "a.uasset" "h1"] 5
           eq_refl eq_refl eq_refl eq_refl).
Defined.

End DbSnapshotProps.

(** ** db.ts: the read queries *)

Module DbQueryProps.
Import Db DbQueries.



Definition twoSnapshotsDb : NetworkSyncDb :=
  mkDb (Some (mkTables [DbProps.sampleProject]
                [mkSnapshot "s1" "p1" "first" 100 "A" "m1" 0 0 "main";
                 mkSnapshot "s2" "p1" "second" 300 "B" "m2" 0 0 "main";
                 mkSnapshot "s3" "p1" "third" 200 "A" "m3" 0 0 "dev"]
                [] [] [])) "/nas/sync.db" false true.




(** X9.  [deleteSnapshot] removes the snapshot and its entries and nothing
    else: afterwards [getSnapshot] and [getSnapshotEntries] of the id give
    [null] and no entry, and both queries answer as before for every other
    id. *)
Theorem deleteSnapshot_removes_only_it
    (d : NetworkSyncDb) (t : Tables) (id : string)
    (initialised : db d = Some t) :
  res_out (deleteSnapshot d id) = Returned tt /\
  getSnapshot (res_db (deleteSnapshot d id)) id = Returned None /\
  getSnapshotEntries (res_db (deleteSnapshot d id)) id = Returned [] /\
  forall other, other <> id ->
    getSnapshot (res_db (deleteSnapshot d id)) other = getSnapshot d other /\
    getSnapshotEntries (res_db (deleteSnapshot d id)) other = getSnapshotEntries d other.
Proof.
  unfold deleteSnapshot, getSnapshot, getSnapshotEntries. rewrite initialised.
  unfold commit, save, with_image. cbn [res_out res_db db dirty snapshots file_entries].
  split; [reflexivity |]. split; [| split].
  - f_equal. apply (DbLockProps.find_filter_out (fun sn => String.eqb (s_id sn) id)).
  - f_equal. rewrite DbSnapshotProps.filter_none; [reflexivity |].
    intros r Hin. apply filter_In in Hin. destruct Hin as [_ Hr].
    destruct (String.eqb (r_snapshot_id r) id); [discriminate Hr | reflexivity].
  - intros other Hne. split; f_equal.
    + apply (DbLockProps.find_filter_other (fun sn => String.eqb (s_id sn) id)).
      intros sn Hs. apply String.eqb_eq in Hs. apply String.eqb_neq. congruence.
    + f_equal. induction (file_entries t) as [| r rows IH]; [reflexivity |].
      cbn [List.filter].
      destruct (String.eqb_spec (r_snapshot_id r) id) as [E | E]; cbn [negb].
      * destruct (String.eqb_spec (r_snapshot_id r) other) as [E' | E']; [congruence | exact IH].
      * cbn [List.filter]. destruct (String.eqb (r_snapshot_id r) other);
          [f_equal; exact IH | exact IH].
Qed.

Lemma deleteSnapshot_removes_only_it_witness :
  res_out (deleteSnapshot twoSnapshotsDb "s2") = Returned tt /\
  getSnapshot (res_db (deleteSnapshot twoSnapshotsDb "s2")) "s2" = Returned None /\
  getSnapshotEntries (res_db (deleteSnapshot twoSnapshotsDb "s2")) "s2" = Returned [] /\
  forall other, other <> "s2"%string ->
    getSnapshot (res_db (deleteSnapshot twoSnapshotsDb "s2")) other
    = getSnapshot twoSnapshotsDb other /\
    getSnapshotEntries (res_db (deleteSnapshot twoSnapshotsDb "s2")) other
    = getSnapshotEntries twoSnapshotsDb other.
Proof.
  exact (deleteSnapshot_removes_only_it twoSnapshotsDb _ "s2" eq_refl).
Defined.







(** X11.  [getProjectBranches] never answers an empty list: it answers
    ['main'] alone when the project has no branch row, and otherwise exactly
    the names of the project's branch rows, in ascending order. *)
Theorem getProjectBranches_never_empty
    (d : NetworkSyncDb) (t : Tables) (projectId : string)
    (initialised : db d = Some t) :
  exists names,
    getProjectBranches d projectId = Returned names /\
    names <> [] /\
    StronglySorted (fun a b => JsString.compareBytes a b <= 0) names /\
    ((forall b, In b (branches t) -> b_project_id b <> projectId) -> names = ["main"%string]) /\
    ((exists b, In b (branches t) /\ b_project_id b = projectId) ->
     forall name, In name names <->
                  exists b, In b (branches t) /\ b_project_id b = projectId /\ b_name b = name).
Proof.
  unfold getProjectBranches. rewrite initialised.
  set (rows := List.filter (fun b => String.eqb (b_project_id b) projectId) (branches t)).
  pose proof (SortFacts.sort_perm JsString.compareBytes (List.map b_name rows)) as Hperm.
  pose proof (SortFacts.sort_sorted JsString.compareBytes
                HasherProps.compareBytes_antisym HasherProps.compareBytes_trans
                (List.map b_name rows)) as Hsorted.
  eexists. split; [reflexivity |].
  destruct (JsArray.sort JsString.compareBytes (List.map b_name rows)) as [| n ns] eqn:E.
  - apply Permutation_nil in Hperm.
    split; [discriminate |]. split; [repeat constructor |]. split; [reflexivity |].
    intros (b & Hin & Hp). exfalso.
    assert (In b rows) as Hr.
    { apply filter_In. split; [exact Hin | apply String.eqb_eq; exact Hp]. }
    destruct rows; [destruct Hr | discriminate Hperm].
  - split; [discriminate |]. split; [exact Hsorted |]. split.
    + intros Hnone. exfalso.
      assert (In n (List.map b_name rows)) as Hin
        by (apply (Permutation_in _ Hperm); left; reflexivity).
      apply in_map_iff in Hin. destruct Hin as (b & _ & Hb).
      apply filter_In in Hb. destruct Hb as [Hb Hp]. apply String.eqb_eq in Hp.
      exact (Hnone b Hb Hp).
    + intros _ name. split.
      * intros Hin. apply (Permutation_in _ Hperm) in Hin.
        apply in_map_iff in Hin. destruct Hin as (b & Hn & Hb).
        apply filter_In in Hb. destruct Hb as [Hb Hp]. apply String.eqb_eq in Hp.
        exists b. tauto.
      * intros (b & Hb & Hp & Hn). apply (Permutation_in _ (Permutation_sym Hperm)).
        apply in_map_iff. exists b. split; [exact Hn |].
        apply filter_In. split; [exact Hb | apply String.eqb_eq; exact Hp].
Qed.

Lemma getProjectBranches_never_empty_witness :
  exists names,
    getProjectBranches twoSnapshotsDb "p1" = Returned names /\
    names <> [] /\
    StronglySorted (fun a b => JsString.compareBytes a b <= 0) names /\
    ((forall b, In b [] -> b_project_id b <> "p1"%string) -> names = ["main"%string]) /\
    ((exists b, In b [] /\ b_project_id b = "p1"%string) ->
     forall name, In name names <->
                  exists b, In b [] /\ b_project_id b = "p1"%string /\ b_name b = name).
Proof.
  exact (getProjectBranches_never_empty twoSnapshotsDb _ "p1" eq_refl).
Defined.

(** X12.  [isHashInUse] agrees with [getAllReferencedHashes]: a hash is in
    use exactly when it belongs to the set of referenced hashes, which is
    the case exactly when some stored entry of some snapshot carries it. *)
Theorem isHashInUse_iff_referenced
    (d : NetworkSyncDb) (t : Tables) (h : string)
    (initialised : db d = Some t) :
  exists inUse referenced,
    isHashInUse d h = Returned inUse /\
    getAllReferencedHashes d = Returned referenced /\
    (inUse = true <-> h ∈ referenced) /\
    (inUse = true <-> exists r, In r (file_entries t) /\ r_hash r = h).
Proof.
  unfold isHashInUse, getAllReferencedHashes. rewrite initialised.
  eexists. eexists. split; [reflexivity |]. split; [reflexivity |].
  assert (existsb (fun r => String.eqb (r_hash r) h) (file_entries t) = true <->
          exists r, In r (file_entries t) /\ r_hash r = h) as Hex.
  { rewrite existsb_exists. split; intros (r & Hin & Hr); exists r; split; try exact Hin.
    - apply String.eqb_eq. exact Hr.
    - apply String.eqb_eq. exact Hr. }
  split; [| exact Hex].
  rewrite Hex, elem_of_list_to_set, list_elem_of_In, in_map_iff.
  split; intros (r & H1 & H2); exists r; tauto.
Qed.

Lemma isHashInUse_iff_referenced_witness :
  exists inUse referenced,
    isHashInUse twoSnapshotsDb "h1" = Returned inUse /\
    getAllReferencedHashes twoSnapshotsDb = Returned referenced /\
    (inUse = true <-> "h1"%string ∈ referenced) /\
    (inUse = true <-> exists r, In r [] /\ r_hash r = "h1"%string).
Proof.
  exact (isHashInUse_iff_referenced twoSnapshotsDb _ "h1" eq_refl).
Defined.

End DbQueryProps.

(** ** hasher.ts: content keys and chunk records *)

Module HasherKeyProps.
Import Hasher HasherChunks.

Lemma length_append (a b : string) :
  String.length (String.append a b) = (String.length a + String.length b)%nat.
Proof.
  induction a as [| x a IH]; [reflexivity |].
  change (S (String.length (String.append a b)) = S (String.length a + String.length b)).
  f_equal. exact IH.
Qed.

Lemma chars_append (a b : string) :
  list_ascii_of_string (String.append a b) = list_ascii_of_string a ++ list_ascii_of_string b.
Proof.
  induction a as [| x a IH]; [reflexivity |].
  change (x :: list_ascii_of_string (String.append a b)
          = x :: (list_ascii_of_string a ++ list_ascii_of_string b)).
  f_equal. exact IH.
Qed.

Lemma length_of_list (l : list ascii) : String.length (JsString.of_list l) = length l.
Proof. induction l as [| c l IH]; simpl; [reflexivity | f_equal; exact IH]. Qed.

Lemma chars_of_list (l : list ascii) : list_ascii_of_string (JsString.of_list l) = l.
Proof. induction l as [| c l IH]; simpl; [reflexivity | f_equal; exact IH]. Qed.

(** [toString(16)] of a number below [16^(k+1)] has at most [k+1] digits. *)
Lemma hex_digits_length (fuel : nat) :
  forall (n : N) (acc : string) (k : nat),
    (n < 16 ^ N.of_nat (S k))%N ->
    (String.length (JsString.hex_digits fuel n acc) <= String.length acc + S k)%nat.
Proof.
  induction fuel as [| fuel IH]; intros n acc k Hn; cbn [JsString.hex_digits].
  - simpl. lia.
  - destruct (N.ltb n 16) eqn:E; [simpl; lia |].
    apply N.ltb_ge in E.
    destruct k as [| k].
    + change (16 ^ N.of_nat 1)%N with 16%N in Hn. lia.
    + assert (n / 16 < 16 ^ N.of_nat (S k))%N as Hdiv.
      { apply N.Div0.div_lt_upper_bound.
        replace (N.of_nat (S (S k))) with (N.succ (N.of_nat (S k))) in Hn by lia.
        rewrite N.pow_succ_r' in Hn. exact Hn. }
      specialize (IH (n / 16)%N (String (Sha256.hex_digit (Z.of_N (n mod 16))) acc) k Hdiv).
      simpl in IH. lia.
Qed.

Lemma hex_digits_chars (fuel : nat) :
  forall (n : N) (acc : string),
    List.Forall HasherProps.isHexChar (list_ascii_of_string acc) ->
    List.Forall HasherProps.isHexChar (list_ascii_of_string (JsString.hex_digits fuel n acc)).
Proof.
  induction fuel as [| fuel IH]; intros n acc Hacc; cbn [JsString.hex_digits].
  - constructor; [apply HasherProps.hex_digit_is_hex | exact Hacc].
  - destruct (N.ltb n 16).
    + constructor; [apply HasherProps.hex_digit_is_hex | exact Hacc].
    + apply IH. constructor; [apply HasherProps.hex_digit_is_hex | exact Hacc].
Qed.

Lemma hashFile_length (xxh64 : list byte -> N) (content : list byte) :
  (xxh64 content < 2 ^ 64)%N -> String.length (hashFile xxh64 content) = 16%nat.
Proof.
  intros Hn. unfold hashFile, JsString.padStart, JsString.toString16.
  set (digits := JsString.hex_digits _ _ _).
  assert (String.length digits <= 16)%nat as Hlen
    by (apply (hex_digits_length _ (xxh64 content) EmptyString 15); exact Hn).
  rewrite length_append, length_of_list, repeat_length. lia.
Qed.

(** X13.  For a 64-bit digest, [hashFile] yields exactly sixteen lower-case
    hexadecimal characters, whatever the content: short digests are padded
    with zeros on the left. *)
Theorem hashFile_sixteen_hex_digits
    (xxh64 : list byte -> N) (content : list byte)
    (sixty_four_bits : (xxh64 content < 2 ^ 64)%N) :
  String.length (hashFile xxh64 content) = 16%nat /\
  List.Forall HasherProps.isHexChar (list_ascii_of_string (hashFile xxh64 content)).
Proof.
  split; [exact (hashFile_length xxh64 content sixty_four_bits) |].
  unfold hashFile, JsString.padStart, JsString.toString16.
  rewrite chars_append, chars_of_list. apply List.Forall_app. split.
  - apply List.Forall_forall. intros c Hc. apply repeat_spec in Hc. subst c.
    unfold HasherProps.isHexChar. simpl. left. reflexivity.
  - apply hex_digits_chars. constructor.
Qed.

Lemma hashFile_sixteen_hex_digits_witness :
  String.length (hashFile StorageProps.lengthDigest StorageProps.helloBytes) = 16%nat /\
  List.Forall HasherProps.isHexChar
    (list_ascii_of_string (hashFile StorageProps.lengthDigest StorageProps.helloBytes)).
Proof.
  apply (hashFile_sixteen_hex_digits StorageProps.lengthDigest StorageProps.helloBytes).
  vm_compute. reflexivity.
Defined.

(** The records of the buffers [reads], numbered from [index] and placed
    from [offset]. *)
Fixpoint tiles (xxh64 : list byte -> N) (index offset : Z) (reads : list (list byte))
  : list ChunkInfo :=
  match reads with
  | [] => []
  | buf :: rest =>
      mkChunkInfo index offset (Z.of_nat (length buf)) (hashFile xxh64 buf)
      :: tiles xxh64 (index + 1) (offset + Z.of_nat (length buf)) rest
  end.

Lemma onData_fold (xxh64 : list byte -> N) (reads : list (list byte)) :
  forall chunks index offset,
    (List.fold_left (onData xxh64) reads (chunks, index, offset)).1.1
    = chunks ++ tiles xxh64 index offset reads.
Proof.
  induction reads as [| buf rest IH]; intros chunks index offset.
  - simpl. rewrite List.app_nil_r. reflexivity.
  - cbn [List.fold_left onData tiles]. rewrite IH, <- List.app_assoc. reflexivity.
Qed.

Lemma tiles_nth (xxh64 : list byte -> N) (reads : list (list byte)) :
  forall (i : nat) (index offset : Z) (c : ChunkInfo),
    nth_error (tiles xxh64 index offset reads) i = Some c ->
    ch_index c = index + Z.of_nat i /\
    ch_offset c = offset + Z.of_nat (length (List.concat (firstn i reads))) /\
    exists buf, nth_error reads i = Some buf /\
                ch_size c = Z.of_nat (length buf) /\ ch_hash c = hashFile xxh64 buf.
Proof.
  induction reads as [| buf rest IH]; intros i index offset c H.
  - destruct i; discriminate H.
  - destruct i as [| i].
    + simpl in H. injection H as <-. simpl. repeat split; try lia.
      exists buf. repeat split.
    + cbn [tiles nth_error] in H. apply IH in H.
      destruct H as (H1 & H2 & buf' & H3 & H4 & H5).
      cbn [firstn List.concat nth_error]. rewrite List.length_app.
      repeat split; try lia. exists buf'. repeat split; assumption.
Qed.

Lemma tiles_length (xxh64 : list byte -> N) (reads : list (list byte)) :
  forall index offset, length (tiles xxh64 index offset reads) = length reads.
Proof.
  induction reads as [| buf rest IH]; intros index offset; simpl; [reflexivity |].
  f_equal. apply IH.
Qed.

(** X14.  [computeFileChunks] gives one record per buffer read, numbered
    from 0 in order; the offset of a record is the number of bytes read
    before it, its size the length of its buffer and its hash the content
    key of the buffer, so that the records tile the file without gap or
    overlap. *)
Theorem computeFileChunks_tiles_the_file
    (xxh64 : list byte -> N) (reads : list (list byte)) :
  length (computeFileChunks xxh64 reads) = length reads /\
  forall (i : nat) (c : ChunkInfo),
    nth_error (computeFileChunks xxh64 reads) i = Some c ->
    ch_index c = Z.of_nat i /\
    ch_offset c = Z.of_nat (length (List.concat (firstn i reads))) /\
    ch_offset c + ch_size c = Z.of_nat (length (List.concat (firstn (S i) reads))) /\
    exists buf, nth_error reads i = Some buf /\
                ch_size c = Z.of_nat (length buf) /\ ch_hash c = hashFile xxh64 buf.
Proof.
  unfold computeFileChunks. rewrite onData_fold. cbn [app]. split.
  - apply tiles_length.
  - intros i c H. apply tiles_nth in H. destruct H as (H1 & H2 & buf & H3 & H4 & H5).
    repeat split; try lia.
    + assert (firstn (S i) reads = firstn i reads ++ [buf]) as ->.
      { clear - H3. revert i H3. induction reads as [| b r IH]; intros [| i] H; try discriminate H.
        - simpl in H. injection H as ->. reflexivity.
        - simpl in H. cbn [firstn]. rewrite (IH i H). reflexivity. }
      rewrite List.concat_app, List.length_app. simpl. rewrite List.app_nil_r. lia.
    + exists buf. repeat split; assumption.
Qed.

(** X15.  The manifest digest does not separate manifests once a path may
    hold a colon and a newline: two entries, the first sorting not after the
    second, have the digest of the single entry whose path spells out the
    first record, a newline and the second path. *)
Theorem computeManifestHash_newline_path_collides
    (localeCompare : string -> string -> Z) (e1 e2 : ManifestEntry)
    (in_order : localeCompare (me_path e1) (me_path e2) <= 0) :
  computeManifestHash localeCompare [e1; e2]
  = computeManifestHash localeCompare
      [mkManifestEntry
         (String.append (record e1) (String.append HasherProps.newline (me_path e2)))
         (me_hash e2)].
Proof.
  unfold computeManifestHash. f_equal.
  cbn [JsArray.sort List.fold_right JsArray.insert].
  unfold byPath at 1. apply Z.leb_le in in_order. rewrite in_order.
  cbn [List.map JsString.join]. unfold record at 3. cbn [me_path me_hash].
  rewrite !HasherProps.append_assoc. reflexivity.
Qed.

Lemma computeManifestHash_newline_path_collides_witness :
  computeManifestHash JsString.compareBytes
    [mkManifestEntry "a.txt" "0123456789abcdef"; mkManifestEntry "b.txt" "00000000000000ff"]
  = computeManifestHash JsString.compareBytes
      [mkManifestEntry
         (String.append (record (mkManifestEntry "a.txt" "0123456789abcdef"))
                        (String.append HasherProps.newline "b.txt"))
         "00000000000000ff"].
Proof.
  apply (computeManifestHash_newline_path_collides JsString.compareBytes
           (mkManifestEntry "a.txt" "0123456789abcdef")
           (mkManifestEntry "b.txt" "00000000000000ff")).
  vm_compute. discriminate.
Defined.

End HasherKeyProps.

(** ** storage.ts: retrieval, deduplication and deletion *)

Module StorageOpsProps.
Import Storage StorageOps.

Section Retrieve.
Variable xxh64 : list byte -> N.
Variable gunzip : list byte -> list byte * bool.


(** A key of another length than a content key never passes the check. *)
Lemma retrieveFile_wrong_length
    (st : ContentStorage) (fs : LocalFs) (hash destPath : string) :
  (forall b, xxh64 b < 2 ^ 64)%N ->
  String.length hash <> 16%nat ->
  (retrieveFile xxh64 gunzip st fs hash destPath).1 = false.
Proof.
  intros H64 Hlen. unfold retrieveFile.
  destruct (blobAt st hash) as [blob |]; [| reflexivity].
  destruct (if isGzipped blob then gunzip blob else (blob, true)) as [written ended].
  destruct ended; [| reflexivity].
  destruct (String.eqb_spec (Hasher.hashFile xxh64 written) hash) as [Eh | Eh]; [| reflexivity].
  exfalso. apply Hlen. rewrite <- Eh.
  exact (HasherKeyProps.hashFile_length xxh64 written (H64 written)).
Qed.

(** X17.  What [storeBuffer] stores cannot be read back with
    [retrieveFile]: its key is the 64-character SHA-256 of the data, under
    which the blob is filed, while [retrieveFile] checks what it wrote
    against the 16-character content key; for a 64-bit digest the check
    fails and the answer is [false]. *)
Theorem storeBuffer_key_is_not_retrievable
    (st st' : ContentStorage) (fs : LocalFs) (data : list byte) (key destPath : string)
    (sixty_four_bits : (forall b, xxh64 b < 2 ^ 64)%N)
    (stored : storeBuffer st data = (Returned key, st')) :
  key = HasherChunks.hashBuffer data /\
  exists_ st' key = true /\
  (exists_ st key = false -> blobAt st' key = Some data) /\
  (retrieveFile xxh64 gunzip st' fs key destPath).1 = false.
Proof.
  assert (key = HasherChunks.hashBuffer data /\ exists_ st' key = true /\
          (exists_ st key = false -> blobAt st' key = Some data)) as (-> & Hex & Hnew).
  { unfold storeBuffer in stored.
    destruct (exists_ st (HasherChunks.hashBuffer data)) eqn:E.
    - injection stored as <- <-. repeat split; [exact E | congruence].
    - destruct (objects st !! prefixOf (HasherChunks.hashBuffer data)) as [[content | files] |];
        try discriminate stored; injection stored as <- <-;
        (split; [reflexivity |]);
        unfold exists_, blobAt; cbn [objects]; rewrite !lookup_insert_eq;
        split; reflexivity. }
  repeat split; try assumption.
  apply retrieveFile_wrong_length; [exact sixty_four_bits |].
  unfold HasherChunks.hashBuffer. rewrite HasherProps.sha256_hex_length. discriminate.
Qed.

End Retrieve.

Lemma storeBuffer_key_is_not_retrievable_witness :
  exists key st',
    storeBuffer (mkStorage ∅ ∅) StorageProps.helloBytes = (Returned key, st') /\
    key = HasherChunks.hashBuffer StorageProps.helloBytes /\
    exists_ st' key = true /\
    (exists_ (mkStorage ∅ ∅) key = false -> blobAt st' key = Some StorageProps.helloBytes) /\
    (retrieveFile (fun _ => 5%N) StorageProps.unframe st' ∅ key "/b/a.txt").1 = false.
Proof.
  eexists. eexists. split; [reflexivity |].
  apply (storeBuffer_key_is_not_retrievable (fun _ => 5%N) StorageProps.unframe
           (mkStorage ∅ ∅) _ ∅ StorageProps.helloBytes _ "/b/a.txt").
  - intros b. reflexivity.
  - reflexivity.
Defined.

(** X18.  A [storeFile] that returns keeps every blob the store held, adds
    at most the blob of the returned key, leaves no temporary file behind,
    and makes the key exist; storing the same source again, at whatever
    time, returns the same key and changes nothing. *)
Theorem storeFile_deduplicates
    (xxh64 : list byte -> N) (gzip : list byte -> list byte)
    (st st' : ContentStorage) (fs : LocalFs) (sourcePath key : string) (now now' : Z)
    (stored : storeFile xxh64 gzip st fs sourcePath now = (Returned key, st')) :
  exists_ st' key = true /\
  (forall h blob, blobAt st h = Some blob -> blobAt st' h = Some blob) /\
  (forall h, h <> key -> blobAt st' h = blobAt st h) /\
  (forall name staged, temp st' !! name = Some staged -> temp st !! name = Some staged) /\
  storeFile xxh64 gzip st' fs sourcePath now' = (Returned key, st').
Proof.
  unfold storeFile in *.
  destruct (fs !! sourcePath) as [content |]; [| discriminate stored].
  destruct (exists_ st (Hasher.hashFile xxh64 content)) eqn:E.
  - injection stored as <- <-. rewrite E. repeat split; auto.
  - set (hash := Hasher.hashFile xxh64 content) in *.
    assert (blobAt st hash = None) as Hnone.
    { unfold exists_ in E. destruct (blobAt st hash); [discriminate E | reflexivity]. }
    assert (forall files,
              match objects st !! prefixOf hash with Some (File _) => False | _ => True end ->
              files = match objects st !! prefixOf hash with Some (Dir fl) => fl | _ => ∅ end ->
              st' = mkStorage (<[prefixOf hash := Dir (<[hash := gzip content]> files)]> (objects st))
                              (delete (tempName hash now)
                                      (<[tempName hash now := gzip content]> (temp st))) ->
              key = hash ->
              exists_ st' key = true /\
              (forall h, h <> key -> blobAt st' h = blobAt st h) /\
              (forall name staged, temp st' !! name = Some staged -> temp st !! name = Some staged))
      as Hnew.
    { intros files Hnode Hfiles -> ->. split; [| split].
      - unfold exists_, blobAt. cbn [objects]. rewrite !lookup_insert_eq. reflexivity.
      - intros h Hh. unfold blobAt. cbn [objects].
        destruct (decide (prefixOf h = prefixOf hash)) as [Ep | Ep].
        + rewrite Ep, lookup_insert_eq, lookup_insert_ne by congruence.
          destruct (objects st !! prefixOf hash) as [[c | fl] |]; subst files;
            [destruct Hnode | reflexivity | apply lookup_empty].
        + rewrite lookup_insert_ne by congruence. reflexivity.
      - cbn [temp]. intros name staged Hs.
        destruct (decide (name = tempName hash now)) as [-> | Hn].
        + rewrite lookup_delete_eq in Hs. discriminate Hs.
        + rewrite lookup_delete_ne, lookup_insert_ne in Hs by congruence. exact Hs. }
    assert (exists_ st' key = true /\
            (forall h, h <> key -> blobAt st' h = blobAt st h) /\
            (forall name staged, temp st' !! name = Some staged -> temp st !! name = Some staged) /\
            key = hash) as (Hex & Hother & Htemp & ->).
    { destruct (objects st !! prefixOf hash) as [[c | fl] |] eqn:Ep; [discriminate stored | |];
        injection stored as <- <-;
        (destruct (Hnew _ I eq_refl eq_refl eq_refl) as (H1 & H2 & H3); repeat split; assumption). }
    split; [exact Hex |]. split; [| split; [exact Hother | split; [exact Htemp |]]].
    + intros h blob Hb. destruct (decide (h = hash)) as [-> | Hh]; [congruence |].
      rewrite Hother by exact Hh. exact Hb.
    + rewrite Hex. reflexivity.
Qed.

Lemma storeFile_deduplicates_witness :
  exists key st',
    storeFile StorageProps.lengthDigest StorageProps.frame (mkStorage ∅ ∅)
              {["/a/a.txt" := StorageProps.helloBytes]} "/a/a.txt" 7 = (Returned key, st') /\
    exists_ st' key = true /\
    (forall h blob, blobAt (mkStorage ∅ ∅) h = Some blob -> blobAt st' h = Some blob) /\
    (forall h, h <> key -> blobAt st' h = blobAt (mkStorage ∅ ∅) h) /\
    (forall name staged, temp st' !! name = Some staged ->
                         temp (mkStorage ∅ ∅) !! name = Some staged) /\
    storeFile StorageProps.lengthDigest StorageProps.frame st'
              {["/a/a.txt" := StorageProps.helloBytes]} "/a/a.txt" 9 = (Returned key, st').
Proof.
  eexists. eexists. split; [reflexivity |].
  exact (storeFile_deduplicates StorageProps.lengthDigest StorageProps.frame (mkStorage ∅ ∅) _
           {["/a/a.txt" := StorageProps.helloBytes]} "/a/a.txt" _ 7 9 eq_refl).
Defined.


Lemma getAllHashes_fold (h : string) (l : list (string * Node)) (acc : list string) :
  h ∈ foldl (fun hashes (entry : string * Node) =>
               match entry.2 with
               | File _ => hashes
               | Dir files => hashes ++ (map_to_list files).*1
               end) acc l
  <-> h ∈ acc \/ exists p files, (p, Dir files) ∈ l /\ is_Some (files !! h).
Proof.
  revert acc. induction l as [| [q node] l IH]; intros acc.
  - simpl. split; [intros H; left; exact H |].
    intros [H | (p & files & Hin & _)]; [exact H |]. apply elem_of_nil in Hin. destruct Hin.
  - cbn [foldl snd]. rewrite IH. split.
    + intros [Hacc | (p & files & Hin & Hs)].
      * destruct node as [c | files]; [left; exact Hacc |].
        apply elem_of_app in Hacc. destruct Hacc as [Hacc | Hf]; [left; exact Hacc |].
        right. exists q, files. split; [apply elem_of_cons; left; reflexivity |].
        apply list_elem_of_fmap in Hf. destruct Hf as ([k b] & -> & Hkb).
        apply elem_of_map_to_list in Hkb. exists b. exact Hkb.
      * right. exists p, files. split; [apply elem_of_cons; right; exact Hin | exact Hs].
    + intros [Hacc | (p & files & Hin & Hs)].
      * left. destruct node; [exact Hacc | apply elem_of_app; left; exact Hacc].
      * apply elem_of_cons in Hin. destruct Hin as [Heq | Hin].
        -- injection Heq as <- <-. left. apply elem_of_app. right.
           destruct Hs as [b Hb]. apply list_elem_of_fmap. exists (h, b).
           split; [reflexivity | apply elem_of_map_to_list; exact Hb].
        -- right. exists p, files. split; assumption.
Qed.

(** X20.  [getAllHashes] lists exactly the blobs on disk: a name is in the
    answer if and only if some prefix directory holds a file of that name;
    plain files lying in [objects/] are not listed. *)
Theorem getAllHashes_lists_the_blobs (st : ContentStorage) (h : string) :
  In h (getAllHashes st) <-> blobPresent st h.
Proof.
  rewrite <- list_elem_of_In. unfold getAllHashes, blobPresent. rewrite getAllHashes_fold.
  split.
  - intros [H | (p & files & Hin & Hs)]; [apply elem_of_nil in H; destruct H |].
    exists p, files. split; [apply elem_of_map_to_list; exact Hin | exact Hs].
  - intros (p & files & Hin & Hs). right. exists p, files.
    split; [apply elem_of_map_to_list; exact Hin | exact Hs].
Qed.

End StorageOpsProps.

(** ** storage.ts: what prune reports *)

Module StoragePruneProps.
Import Storage StorageOps.

(** Sums over the entries of a directory listing. *)
Definition total {A : Type} (f : A -> Z) (l : list A) : Z :=
  List.fold_right (fun x acc => f x + acc) 0 l.

Lemma total_cons {A : Type} (f : A -> Z) (x : A) (l : list A) :
  total f (x :: l) = f x + total f l.
Proof. reflexivity. Qed.

Lemma total_perm {A : Type} (f : A -> Z) (l k : list A) : l ≡ₚ k -> total f l = total f k.
Proof. induction 1; simpl; lia. Qed.



Lemma total_split {A : Type} (f : A -> Z) (P : A -> Prop) `{!forall x, Decision (P x)}
    (l : list A) :
  total f l = total f (filter P l) + total f (filter (fun x => ~ P x) l).
Proof.
  induction l as [| x l IH]; [reflexivity |].
  destruct (decide (P x)) as [Hx | Hx].
  - rewrite (filter_cons_True P) by exact Hx.
    rewrite (filter_cons_False (fun y => ~ P y)) by tauto. simpl. lia.
  - rewrite (filter_cons_False P) by exact Hx.
    rewrite (filter_cons_True (fun y => ~ P y)) by exact Hx. simpl. lia.
Qed.

Definition one (entry : string * list byte) : Z := 1.
Definition bytesOf (entry : string * list byte) : Z := Z.of_nat (length entry.2).

Lemma statsFile_fold (l : list (string * list byte)) (c s : Z) :
  foldl statsFile (c, s) l = (c + total one l, s + total bytesOf l).
Proof.
  revert c s. induction l as [| e l IH]; intros c s.
  - cbn [foldl total List.fold_right]. f_equal; lia.
  - cbn [foldl]. unfold statsFile at 2. cbn [fst snd]. rewrite IH, !total_cons.
    unfold one at 2, bytesOf at 2. f_equal; lia.
Qed.

Lemma pruneStep_fold_counts (activeHashes : gset string) (l : list (string * list byte))
    (files : gmap string (list byte)) (c s : Z) :
  (foldl (pruneStep activeHashes) (files, c, s) l).1.2
  = c + total one (filter (fun e : string * list byte => e.1 ∉ activeHashes) l) /\
  (foldl (pruneStep activeHashes) (files, c, s) l).2
  = s + total bytesOf (filter (fun e : string * list byte => e.1 ∉ activeHashes) l).
Proof.
  revert files c s. induction l as [| [k b] l IH]; intros files c s.
  - cbn [foldl fst snd]. rewrite filter_nil. cbn [total List.fold_right]. split; lia.
  - cbn [foldl].
    change (pruneStep activeHashes (files, c, s) (k, b))
      with (if decide (k ∈ activeHashes) then (files, c, s)
            else (delete k files, c + 1, s + Z.of_nat (length b))).
    destruct (decide (k ∈ activeHashes)) as [Hk | Hk].
    + rewrite filter_cons_False by (cbn [fst]; tauto). apply IH.
    + rewrite filter_cons_True by exact Hk.
      destruct (IH (delete k files) (c + 1) (s + Z.of_nat (length b))) as [H1 H2].
      rewrite H1, H2, !total_cons. unfold one at 2, bytesOf at 2. cbn [snd]. split; lia.
Qed.

Lemma kept_listing (activeHashes : gset string) (files : gmap string (list byte)) :
  map_to_list (StorageProps.kept activeHashes files)
  ≡ₚ filter (fun e : string * list byte => e.1 ∈ activeHashes) (map_to_list files).
Proof.
  apply NoDup_Permutation.
  - apply NoDup_map_to_list.
  - apply NoDup_filter, NoDup_map_to_list.
  - intros [k b]. unfold StorageProps.kept.
    rewrite elem_of_map_to_list, map_lookup_filter_Some, list_elem_of_filter, elem_of_map_to_list.
    cbn [fst]. tauto.
Qed.

(** What [getStats] counts in one entry of [objects/], and what [prune]
    removes from it. *)
Definition heldIn (f : string * list byte -> Z) (entry : string * Node) : Z :=
  match entry.2 with
  | File _ => 0
  | Dir files => total f (map_to_list files)
  end.

Definition droppedFrom (activeHashes : gset string) (f : string * list byte -> Z)
    (entry : string * Node) : Z :=
  match entry.2 with
  | File _ => 0
  | Dir files =>
      total f (filter (fun e : string * list byte => e.1 ∉ activeHashes) (map_to_list files))
  end.

Lemma statsPrefix_fold (l : list (string * Node)) (c s : Z) :
  foldl statsPrefix (c, s) l = (c + total (heldIn one) l, s + total (heldIn bytesOf) l).
Proof.
  revert c s. induction l as [| [p node] l IH]; intros c s.
  - cbn [foldl total List.fold_right]. f_equal; lia.
  - cbn [foldl]. unfold statsPrefix at 2. cbn [snd]. rewrite !total_cons.
    destruct node as [content | files].
    + rewrite IH. cbn [heldIn snd]. f_equal; lia.
    + rewrite statsFile_fold, IH. cbn [heldIn snd]. f_equal; lia.
Qed.

Lemma pruneOuter_fold_counts (activeHashes : gset string) (l : list (string * Node))
    (objs : gmap string Node) (c s : Z) :
  (foldl (pruneOuter activeHashes) (objs, c, s) l).1.2
  = c + total (droppedFrom activeHashes one) l /\
  (foldl (pruneOuter activeHashes) (objs, c, s) l).2
  = s + total (droppedFrom activeHashes bytesOf) l.
Proof.
  revert objs c s. induction l as [| [p node] l IH]; intros objs c s.
  - cbn [foldl fst snd total List.fold_right]. split; lia.
  - cbn [foldl]. rewrite !total_cons. destruct node as [content | files].
    + change (pruneOuter activeHashes (objs, c, s) (p, File content)) with (objs, c, s).
      destruct (IH objs c s) as [H1 H2]. rewrite H1, H2.
      cbn [droppedFrom snd]. split; lia.
    + change (pruneOuter activeHashes (objs, c, s) (p, Dir files))
        with (let '(remaining, c', s') := pruneDir activeHashes files c s in
              if decide (remaining = ∅)
              then (delete p objs, c', s')
              else (<[p := Dir remaining]> objs, c', s')).
      pose proof (pruneStep_fold_counts activeHashes (map_to_list files) files c s) as [Hc Hs].
      fold (pruneDir activeHashes files c s) in Hc, Hs.
      destruct (pruneDir activeHashes files c s) as [[remaining c'] s'].
      cbn [fst snd] in Hc, Hs. subst c' s'.
      destruct (decide (remaining = ∅));
        match goal with
        | |- context [foldl _ (?o, ?a, ?b) l] => destruct (IH o a b) as [H1 H2]
        end;
        rewrite H1, H2; cbn [droppedFrom snd]; split; lia.
Qed.

Lemma prune_objects (st : ContentStorage) (activeHashes : gset string) :
  objects (prune st activeHashes).1 = omap (StorageProps.prunedNode activeHashes) (objects st).
Proof.
  apply map_eq. intros p. rewrite StorageProps.prune_lookup, lookup_omap.
  destruct (objects st !! p); reflexivity.
Qed.

Lemma prune_report (st : ContentStorage) (activeHashes : gset string) :
  (prune st activeHashes).2
  = (total (droppedFrom activeHashes one) (map_to_list (objects st)),
     total (droppedFrom activeHashes bytesOf) (map_to_list (objects st))).
Proof.
  unfold prune.
  pose proof (pruneOuter_fold_counts activeHashes (map_to_list (objects st)) (objects st) 0 0)
    as [H1 H2].
  destruct (foldl (pruneOuter activeHashes) (objects st, 0, 0) (map_to_list (objects st)))
    as [[objs c] s].
  cbn [fst snd] in *. subst. reflexivity.
Qed.

(** The sum over what is left is the sum over what was there minus what was
    dropped. *)
Lemma held_after_prune (activeHashes : gset string) (f : string * list byte -> Z)
    (objs : gmap string Node) :
  total (heldIn f) (map_to_list (omap (StorageProps.prunedNode activeHashes) objs))
  = total (heldIn f) (map_to_list objs) - total (droppedFrom activeHashes f) (map_to_list objs).
Proof.
  induction objs as [| p node objs Hp IH] using map_ind.
  - rewrite omap_empty, map_to_list_empty. reflexivity.
  - rewrite (total_perm _ _ _ (map_to_list_insert objs p node Hp)),
            (total_perm (droppedFrom activeHashes f) _ _ (map_to_list_insert objs p node Hp)).
    assert (omap (StorageProps.prunedNode activeHashes) objs !! p = None) as Hp'
      by (rewrite lookup_omap, Hp; reflexivity).
    cbn [total List.fold_right]. fold (total (heldIn f) (map_to_list objs)).
    fold (total (droppedFrom activeHashes f) (map_to_list objs)).
    destruct node as [content | files].
    + rewrite (omap_insert_Some _ _ _ _ (File content)) by reflexivity.
      rewrite (total_perm _ _ _ (map_to_list_insert _ p (File content) Hp')).
      simpl. fold (total (heldIn f) (map_to_list
                      (omap (StorageProps.prunedNode activeHashes) objs))).
      rewrite IH. unfold heldIn at 1 3, droppedFrom at 2. cbn [snd]. lia.
    + assert (total f (map_to_list files)
              = total f (map_to_list (StorageProps.kept activeHashes files))
                + total f (filter (fun e : string * list byte => e.1 ∉ activeHashes)
                                  (map_to_list files))) as Hsplit.
      { rewrite (total_perm f _ _ (kept_listing activeHashes files)).
        apply (total_split f (fun e : string * list byte => e.1 ∈ activeHashes)). }
      unfold heldIn at 2, droppedFrom at 1. cbn [snd].
      cbn [StorageProps.prunedNode] in *.
      destruct (decide (StorageProps.kept activeHashes files = ∅)) as [Hk | Hk].
      * rewrite omap_insert_None
          by (cbn [StorageProps.prunedNode]; rewrite decide_True by exact Hk; reflexivity).
        rewrite delete_id by exact Hp'. rewrite IH.
        rewrite Hk, map_to_list_empty in Hsplit. simpl in Hsplit. lia.
      * rewrite (omap_insert_Some _ _ _ _ (Dir (StorageProps.kept activeHashes files)))
          by (cbn [StorageProps.prunedNode]; rewrite decide_False by exact Hk; reflexivity).
        rewrite (total_perm _ _ _ (map_to_list_insert _ p _ Hp')).
        simpl. fold (total (heldIn f) (map_to_list
                        (omap (StorageProps.prunedNode activeHashes) objs))).
        rewrite IH. unfold heldIn at 1. cbn [snd]. lia.
Qed.

(** X21.  What [prune] reports is what [getStats] loses: the object count
    and the total size after [prune] are those before it minus
    [deletedCount] and [deletedSize]. *)
Theorem prune_report_matches_getStats (st : ContentStorage) (activeHashes : gset string) :
  (getStats (prune st activeHashes).1).1 = (getStats st).1 - (prune st activeHashes).2.1 /\
  (getStats (prune st activeHashes).1).2 = (getStats st).2 - (prune st activeHashes).2.2.
Proof.
  unfold getStats. rewrite !statsPrefix_fold, prune_report, prune_objects, !held_after_prune.
  cbn [fst snd]. split; lia.
Qed.



End StoragePruneProps.

(** ** Maps built from entries with distinct paths *)

Module JsMapFacts.
Import Scanner.

Lemma set_fresh {V : Type} (m : @JsMap.t V) (k : string) (v : V) :
  ~ In k (JsMap.keys m) -> JsMap.set m k v = m ++ [(k, v)].
Proof.
  induction m as [| [k' v'] m IH]; intros Hk; [reflexivity |].
  cbn [JsMap.set]. destruct (String.eqb_spec k' k) as [-> | Hne].
  - exfalso. apply Hk. left. reflexivity.
  - cbn [app]. f_equal. apply IH. intros Hin. apply Hk. right. exact Hin.
Qed.

Lemma of_pairs_fold_distinct {V : Type} (pairs : list (string * V)) (m : @JsMap.t V) :
  List.NoDup (JsMap.keys m ++ List.map fst pairs) ->
  List.fold_left (fun m kv => JsMap.set m (fst kv) (snd kv)) pairs m = m ++ pairs.
Proof.
  revert m. induction pairs as [| [k v] pairs IH]; intros m Hnd.
  - simpl. rewrite List.app_nil_r. reflexivity.
  - cbn [List.fold_left fst snd]. cbn [List.map fst] in Hnd.
    rewrite set_fresh.
    + rewrite IH.
      * rewrite <- List.app_assoc. reflexivity.
      * unfold JsMap.keys in *. rewrite List.map_app, <- List.app_assoc. exact Hnd.
    + apply List.NoDup_remove_2 in Hnd. intros Hin. apply Hnd. apply in_or_app. left. exact Hin.
Qed.

Lemma of_pairs_distinct {V : Type} (pairs : list (string * V)) :
  List.NoDup (List.map fst pairs) -> JsMap.of_pairs pairs = pairs.
Proof. intros Hnd. exact (of_pairs_fold_distinct pairs [] Hnd). Qed.

Lemma byPathPairs_keys (es : list FileEntry) : List.map fst (byPathPairs es) = List.map path es.
Proof. unfold byPathPairs. rewrite List.map_map. reflexivity. Qed.

Lemma of_entries (es : list FileEntry) :
  List.NoDup (List.map path es) -> JsMap.of_pairs (byPathPairs es) = byPathPairs es.
Proof. intros Hnd. apply of_pairs_distinct. rewrite byPathPairs_keys. exact Hnd. Qed.

(** Looking a path up among entries with distinct paths. *)
Lemma get_entries (es : list FileEntry) (p : string) :
  List.NoDup (List.map path es) ->
  match JsMap.get (byPathPairs es) p with
  | Some e => In e es /\ path e = p
  | None => ~ In p (List.map path es)
  end.
Proof.
  induction es as [| x es IH]; intros Hnd; [intros [] |].
  cbn [byPathPairs List.map JsMap.get]. fold (byPathPairs es).
  apply List.NoDup_cons_iff in Hnd. destruct Hnd as [Hx Hnd].
  destruct (String.eqb_spec (path x) p) as [E | E].
  - split; [left; reflexivity | exact E].
  - specialize (IH Hnd). destruct (JsMap.get (byPathPairs es) p) as [e |].
    + destruct IH as [Hin Hp]. split; [right; exact Hin | exact Hp].
    + intros [H | H]; [exact (E H) | exact (IH H)].
Qed.

Lemma same_path_same_entry (es : list FileEntry) (a b : FileEntry) :
  List.NoDup (List.map path es) -> In a es -> In b es -> path a = path b -> a = b.
Proof.
  induction es as [| x es IH]; intros Hnd Ha Hb Hp; [destruct Ha |].
  simpl in Hnd. apply List.NoDup_cons_iff in Hnd. destruct Hnd as [Hx Hnd].
  destruct Ha as [-> | Ha], Hb as [-> | Hb].
  - reflexivity.
  - exfalso. apply Hx. rewrite Hp. apply in_map. exact Hb.
  - exfalso. apply Hx. rewrite <- Hp. apply in_map. exact Ha.
  - exact (IH Hnd Ha Hb Hp).
Qed.

Lemma get_entries_Some (es : list FileEntry) (p : string) (e : FileEntry) :
  List.NoDup (List.map path es) ->
  JsMap.get (byPathPairs es) p = Some e <-> In e es /\ path e = p.
Proof.
  intros Hnd. pose proof (get_entries es p Hnd) as H. split.
  - intros E. rewrite E in H. exact H.
  - intros [Hin Hp]. destruct (JsMap.get (byPathPairs es) p) as [e' |] eqn:E.
    + destruct H as [Hin' Hp']. f_equal.
      apply (same_path_same_entry es); [exact Hnd | exact Hin' | exact Hin | congruence].
    + exfalso. apply H. rewrite <- Hp. apply in_map. exact Hin.
Qed.

Lemma get_entries_None (es : list FileEntry) (p : string) :
  List.NoDup (List.map path es) ->
  JsMap.get (byPathPairs es) p = None <-> ~ In p (List.map path es).
Proof.
  intros Hnd. pose proof (get_entries es p Hnd) as H. split.
  - intros E. rewrite E in H. exact H.
  - intros Hno. destruct (JsMap.get (byPathPairs es) p) as [e |]; [| reflexivity].
    destruct H as [Hin Hp]. exfalso. apply Hno. rewrite <- Hp. apply in_map. exact Hin.
Qed.

End JsMapFacts.

(** ** scanner.ts: the comparison of two manifests and the hash cache *)

Module ScannerProps.
Import Scanner.

Definition isAdded (remoteMap : @JsMap.t FileEntry) (e : FileEntry) : bool :=
  match JsMap.get remoteMap (path e) with None => true | Some _ => false end.

Definition isModified (remoteMap : @JsMap.t FileEntry) (e : FileEntry) : bool :=
  match JsMap.get remoteMap (path e) with
  | None => false
  | Some r => negb (String.eqb (hash e) (hash r))
  end.

Definition isUnchanged (remoteMap : @JsMap.t FileEntry) (e : FileEntry) : bool :=
  match JsMap.get remoteMap (path e) with
  | None => false
  | Some r => String.eqb (hash e) (hash r)
  end.

Lemma compareStep_fold (remoteMap : @JsMap.t FileEntry) (es : list FileEntry) (acc : ManifestDiff) :
  List.fold_left (compareStep remoteMap) (byPathPairs es) acc
  = mkDiff (added acc ++ List.filter (isAdded remoteMap) es)
           (modified acc ++ List.filter (isModified remoteMap) es)
           (deleted acc)
           (unchanged acc ++ List.filter (isUnchanged remoteMap) es).
Proof.
  revert acc. induction es as [| e es IH]; intros acc.
  - simpl. rewrite !List.app_nil_r. destruct acc; reflexivity.
  - cbn [byPathPairs List.map List.fold_left]. fold (byPathPairs es). rewrite IH.
    unfold compareStep, isAdded, isModified, isUnchanged. cbn [fst snd List.filter].
    destruct (JsMap.get remoteMap (path e)) as [r |].
    + destruct (String.eqb (hash e) (hash r)); cbn [negb added modified deleted unchanged];
        rewrite <- ?List.app_assoc; reflexivity.
    + cbn [added modified deleted unchanged]. rewrite <- ?List.app_assoc. reflexivity.
Qed.

Lemma three_way_split (remoteMap : @JsMap.t FileEntry) (es : list FileEntry) :
  Permutation (List.filter (isAdded remoteMap) es ++ List.filter (isModified remoteMap) es
               ++ List.filter (isUnchanged remoteMap) es) es.
Proof.
  induction es as [| e es IH]; [constructor |].
  cbn [List.filter]. unfold isAdded at 1, isModified at 1, isUnchanged at 1.
  destruct (JsMap.get remoteMap (path e)) as [r |].
  - destruct (String.eqb (hash e) (hash r)); cbn [negb].
    + apply Permutation_sym. rewrite List.app_assoc.
      apply Permutation_cons_app. rewrite <- List.app_assoc.
      apply Permutation_sym. exact IH.
    + apply Permutation_sym. apply Permutation_cons_app.
      apply Permutation_sym. exact IH.
  - cbn [app]. constructor. exact IH.
Qed.

(** X23.  [compareManifests] on manifests with distinct paths sorts every
    local entry into exactly one class: [added] when no remote entry has its
    path, [modified] when the remote entry of its path has another hash,
    [unchanged] when it has the same hash (sizes and times are not looked
    at); [deleted] holds the remote paths with no local entry. *)
Theorem compareManifests_classifies
    (local remote : FileManifest)
    (local_paths : List.NoDup (List.map path (entries local)))
    (remote_paths : List.NoDup (List.map path (entries remote))) :
  (forall e, In e (added (compareManifests local remote)) <->
     In e (entries local) /\ ~ In (path e) (List.map path (entries remote))) /\
  (forall e, In e (modified (compareManifests local remote)) <->
     In e (entries local) /\
     exists r, In r (entries remote) /\ path r = path e /\ hash r <> hash e) /\
  (forall e, In e (unchanged (compareManifests local remote)) <->
     In e (entries local) /\
     exists r, In r (entries remote) /\ path r = path e /\ hash r = hash e) /\
  (forall p, In p (deleted (compareManifests local remote)) <->
     In p (List.map path (entries remote)) /\ ~ In p (List.map path (entries local))) /\
  Permutation (added (compareManifests local remote) ++ modified (compareManifests local remote)
               ++ unchanged (compareManifests local remote))
              (entries local).
Proof.
  unfold compareManifests.
  rewrite (JsMapFacts.of_entries _ local_paths), (JsMapFacts.of_entries _ remote_paths).
  rewrite compareStep_fold. cbn [added modified deleted unchanged app].
  set (rm := byPathPairs (entries remote)).
  assert (forall e, JsMap.get rm (path e) = None <-> ~ In (path e) (List.map path (entries remote)))
    as Hnone by (intros e; apply JsMapFacts.get_entries_None; exact remote_paths).
  assert (forall e r, JsMap.get rm (path e) = Some r <-> In r (entries remote) /\ path r = path e)
    as Hsome by (intros e r; apply JsMapFacts.get_entries_Some; exact remote_paths).
  split; [| split; [| split; [| split]]].
  - intros e. rewrite filter_In. unfold isAdded. rewrite <- Hnone.
    destruct (JsMap.get rm (path e)); intuition congruence.
  - intros e. rewrite filter_In. unfold isModified. split.
    + intros [Hin Hm]. split; [exact Hin |].
      destruct (JsMap.get rm (path e)) as [r |] eqn:E; [| discriminate Hm].
      apply Hsome in E. exists r. destruct E as [E1 E2]. repeat split; try assumption.
      apply negb_true_iff, String.eqb_neq in Hm. congruence.
    + intros [Hin (r & Hr & Hp & Hh)]. split; [exact Hin |].
      rewrite (proj2 (Hsome e r) (conj Hr Hp)).
      apply negb_true_iff, String.eqb_neq. congruence.
  - intros e. rewrite filter_In. unfold isUnchanged. split.
    + intros [Hin Hm]. split; [exact Hin |].
      destruct (JsMap.get rm (path e)) as [r |] eqn:E; [| discriminate Hm].
      apply Hsome in E. exists r. destruct E as [E1 E2]. repeat split; try assumption.
      apply String.eqb_eq in Hm. congruence.
    + intros [Hin (r & Hr & Hp & Hh)]. split; [exact Hin |].
      rewrite (proj2 (Hsome e r) (conj Hr Hp)). apply String.eqb_eq. congruence.
  - intros p. rewrite filter_In. unfold JsMap.keys, JsMap.has. subst rm.
    rewrite JsMapFacts.byPathPairs_keys.
    pose proof (JsMapFacts.get_entries_None (entries local) p local_paths) as Hl.
    destruct (JsMap.get (byPathPairs (entries local)) p); cbn [negb].
    + split; [intros [_ H]; discriminate H |].
      intros [_ Hno]. exfalso. apply Hno. 
      destruct (in_dec string_dec p (List.map path (entries local))) as [Hin | Hin];
        [exact Hin |]. apply Hl in Hin. discriminate Hin.
    + split; [intros [H _]; split; [exact H | apply Hl; reflexivity] | intros [H _]; tauto].
  - apply three_way_split.
Qed.

Definition manifestOf (es : list FileEntry) : FileManifest := mkFileManifest "p1" 0 "" es.

Definition localSide : FileManifest :=
  manifestOf [mkFileEntry "a.txt" "h1" 1 10 false; mkFileEntry "b.txt" "h2" 2 20 false;
              mkFileEntry "c.txt" "h3" 3 30 false].

Definition remoteSide : FileManifest :=
  manifestOf [mkFileEntry "b.txt" "h2" 2 25 false; mkFileEntry "c.txt" "h9" 3 5 false;
              mkFileEntry "d.txt" "h4" 4 40 false].

Lemma compareManifests_classifies_witness :
  (forall e, In e (added (compareManifests localSide remoteSide)) <->
     In e (entries localSide) /\ ~ In (path e) (List.map path (entries remoteSide))) /\
  (forall e, In e (modified (compareManifests localSide remoteSide)) <->
     In e (entries localSide) /\
     exists r, In r (entries remoteSide) /\ path r = path e /\ hash r <> hash e) /\
  (forall e, In e (unchanged (compareManifests localSide remoteSide)) <->
     In e (entries localSide) /\
     exists r, In r (entries remoteSide) /\ path r = path e /\ hash r = hash e) /\
  (forall p, In p (deleted (compareManifests localSide remoteSide)) <->
     In p (List.map path (entries remoteSide)) /\ ~ In p (List.map path (entries localSide))) /\
  Permutation (added (compareManifests localSide remoteSide)
               ++ modified (compareManifests localSide remoteSide)
               ++ unchanged (compareManifests localSide remoteSide))
              (entries localSide).
Proof.
  apply (compareManifests_classifies localSide remoteSide);
    repeat (apply List.NoDup_cons; [simpl; intuition discriminate |]); constructor.
Defined.

(** The cache a scan writes. *)
Section Cache.
Variable xxh64 : list byte -> N.



End Cache.






End ScannerProps.

(** ** sync.ts: what pull and restore download, and what a resolution does *)

Module SyncDiffProps.
Import Scanner Sync.

(** What one remote entry contributes to the plan of [pull]. *)
Definition downloadOf (m : option (string -> bool)) (localMap : @JsMap.t FileEntry)
    (r : FileEntry) : list FileEntry :=
  if notSelected m (path r) then []
  else match JsMap.get localMap (path r) with
       | None => [r]
       | Some l =>
           if String.eqb (hash l) (hash r) then []
           else if modifiedAt l >? modifiedAt r then [] else [r]
       end.

Definition conflictOf (m : option (string -> bool)) (localMap : @JsMap.t FileEntry)
    (r : FileEntry) : list Conflict :=
  if notSelected m (path r) then []
  else match JsMap.get localMap (path r) with
       | None => []
       | Some l =>
           if String.eqb (hash l) (hash r) then []
           else if modifiedAt l >? modifiedAt r
                then [mkConflict (path r) l r (modifiedAt l) (modifiedAt r)]
                else []
       end.

Lemma pullStep_fold (m : option (string -> bool)) (localMap : @JsMap.t FileEntry)
    (rs : list FileEntry) (acc : list FileEntry * list Conflict) :
  List.fold_left (pullStep m localMap) (byPathPairs rs) acc
  = (fst acc ++ List.flat_map (downloadOf m localMap) rs,
     snd acc ++ List.flat_map (conflictOf m localMap) rs).
Proof.
  revert acc. induction rs as [| r rs IH]; intros [dl cf].
  - simpl. rewrite !List.app_nil_r. reflexivity.
  - cbn [byPathPairs List.map List.fold_left List.flat_map]. fold (byPathPairs rs).
    rewrite IH. unfold pullStep, downloadOf, conflictOf. cbn [fst snd].
    destruct (notSelected m (path r)); [reflexivity |].
    destruct (JsMap.get localMap (path r)) as [l |].
    + destruct (String.eqb (hash l) (hash r)); [reflexivity |].
      destruct (modifiedAt l >? modifiedAt r); cbn [fst snd app];
        rewrite <- ?List.app_assoc; reflexivity.
    + cbn [fst snd app]. rewrite <- ?List.app_assoc. reflexivity.
Qed.

(** X25.  The plan of [pull] for manifests with distinct paths.  A remote
    entry that sync selects is downloaded when no local file has its path,
    or when the local file has another hash and was not modified after the
    remote one (equal times go to the remote side); it is a conflict exactly
    when the local file has another hash and a strictly later modification
    time.  Nothing else is downloaded or reported. *)
Theorem pull_conflict_rule
    (m : option (string -> bool)) (localEntries remoteEntries : list FileEntry)
    (local_paths : List.NoDup (List.map path localEntries))
    (remote_paths : List.NoDup (List.map path remoteEntries)) :
  (forall r, In r (fst (pullDiff m localEntries remoteEntries)) <->
     In r remoteEntries /\ notSelected m (path r) = false /\
     (~ In (path r) (List.map path localEntries) \/
      exists l, In l localEntries /\ path l = path r /\ hash l <> hash r /\
                modifiedAt l <= modifiedAt r)) /\
  (forall c, In c (snd (pullDiff m localEntries remoteEntries)) <->
     exists l r, In l localEntries /\ In r remoteEntries /\ path l = path r /\
                 notSelected m (path r) = false /\ hash l <> hash r /\
                 modifiedAt r < modifiedAt l /\
                 c = mkConflict (path r) l r (modifiedAt l) (modifiedAt r)).
Proof.
  unfold pullDiff.
  rewrite (JsMapFacts.of_entries _ local_paths), (JsMapFacts.of_entries _ remote_paths).
  rewrite pullStep_fold. cbn [fst snd app].
  set (lm := byPathPairs localEntries).
  assert (forall p, JsMap.get lm p = None <-> ~ In p (List.map path localEntries)) as Hnone
    by (intros p; apply JsMapFacts.get_entries_None; exact local_paths).
  assert (forall p l, JsMap.get lm p = Some l <-> In l localEntries /\ path l = p) as Hsome
    by (intros p l; apply JsMapFacts.get_entries_Some; exact local_paths).
  split.
  - intros r. rewrite in_flat_map. split.
    + intros (r' & Hin & Hd). unfold downloadOf in Hd.
      destruct (notSelected m (path r')) eqn:Es; [destruct Hd |].
      destruct (JsMap.get lm (path r')) as [l |] eqn:El.
      * destruct (String.eqb_spec (hash l) (hash r')) as [Eh | Eh]; [destruct Hd |].
        destruct (modifiedAt l >? modifiedAt r') eqn:Et; [destruct Hd |].
        destruct Hd as [<- | []]. apply Hsome in El. destruct El as [Hl Hp].
        split; [exact Hin |]. split; [exact Es |]. right. exists l.
        repeat split; try assumption. lia.
      * destruct Hd as [<- | []]. split; [exact Hin |]. split; [exact Es |].
        left. apply Hnone. exact El.
    + intros (Hin & Es & Hcase). exists r. split; [exact Hin |].
      unfold downloadOf. rewrite Es. destruct Hcase as [Hno | (l & Hl & Hp & Hh & Ht)].
      * rewrite (proj2 (Hnone (path r)) Hno). left. reflexivity.
      * rewrite (proj2 (Hsome (path r) l) (conj Hl Hp)).
        rewrite (proj2 (String.eqb_neq _ _) Hh).
        destruct (modifiedAt l >? modifiedAt r) eqn:Et; [lia | left; reflexivity].
  - intros c. rewrite in_flat_map. split.
    + intros (r & Hin & Hc). unfold conflictOf in Hc.
      destruct (notSelected m (path r)) eqn:Es; [destruct Hc |].
      destruct (JsMap.get lm (path r)) as [l |] eqn:El; [| destruct Hc].
      destruct (String.eqb_spec (hash l) (hash r)) as [Eh | Eh]; [destruct Hc |].
      destruct (modifiedAt l >? modifiedAt r) eqn:Et; [| destruct Hc].
      destruct Hc as [<- | []]. apply Hsome in El. destruct El as [Hl Hp].
      exists l, r. repeat split; try assumption. lia.
    + intros (l & r & Hl & Hr & Hp & Es & Hh & Ht & ->). exists r. split; [exact Hr |].
      unfold conflictOf. rewrite Es, (proj2 (Hsome (path r) l) (conj Hl Hp)).
      rewrite (proj2 (String.eqb_neq _ _) Hh).
      destruct (modifiedAt l >? modifiedAt r) eqn:Et; [left; reflexivity | lia].
Qed.

Definition olderRemote : list FileEntry :=
  [mkFileEntry "a.txt" "r1" 1 10 false; mkFileEntry "b.txt" "r2" 2 20 false].

Definition newerLocal : list FileEntry :=
  [mkFileEntry "a.txt" "l1" 1 15 false; mkFileEntry "b.txt" "l2" 2 20 false].

Lemma pull_conflict_rule_witness :
  (forall r, In r (fst (pullDiff None newerLocal olderRemote)) <->
     In r olderRemote /\ notSelected None (path r) = false /\
     (~ In (path r) (List.map path newerLocal) \/
      exists l, In l newerLocal /\ path l = path r /\ hash l <> hash r /\
                modifiedAt l <= modifiedAt r)) /\
  (forall c, In c (snd (pullDiff None newerLocal olderRemote)) <->
     exists l r, In l newerLocal /\ In r olderRemote /\ path l = path r /\
                 notSelected None (path r) = false /\ hash l <> hash r /\
                 modifiedAt r < modifiedAt l /\
                 c = mkConflict (path r) l r (modifiedAt l) (modifiedAt r)).
Proof.
  apply (pull_conflict_rule None newerLocal olderRemote);
    repeat (apply List.NoDup_cons; [simpl; intuition discriminate |]); constructor.
Defined.

Definition restoreOf (m : option (string -> bool)) (localMap : @JsMap.t FileEntry)
    (r : FileEntry) : list FileEntry :=
  if notSelected m (path r) then []
  else match JsMap.get localMap (path r) with
       | None => [r]
       | Some l => if String.eqb (hash l) (hash r) then [] else [r]
       end.

Lemma restoreStep_fold (m : option (string -> bool)) (localMap : @JsMap.t FileEntry)
    (rs : list FileEntry) (acc : list FileEntry) :
  List.fold_left (restoreStep m localMap) (byPathPairs rs) acc
  = acc ++ List.flat_map (restoreOf m localMap) rs.
Proof.
  revert acc. induction rs as [| r rs IH]; intros acc.
  - simpl. rewrite List.app_nil_r. reflexivity.
  - cbn [byPathPairs List.map List.fold_left List.flat_map]. fold (byPathPairs rs).
    rewrite IH. unfold restoreStep, restoreOf. cbn [fst snd].
    destruct (notSelected m (path r)); [reflexivity |].
    destruct (JsMap.get localMap (path r)) as [l |].
    + destruct (String.eqb (hash l) (hash r)); [reflexivity |].
      rewrite <- List.app_assoc. reflexivity.
    + rewrite <- List.app_assoc. reflexivity.
Qed.

(** X26.  The plan of [restoreSnapshot] for manifests with distinct paths:
    a selected entry of the snapshot is downloaded exactly when no local
    file has its path or the local file has another hash.  Modification
    times play no part: a local file changed after the snapshot is
    overwritten. *)
Theorem restore_overwrites_whatever_differs
    (m : option (string -> bool)) (localEntries remoteEntries : list FileEntry)
    (local_paths : List.NoDup (List.map path localEntries))
    (remote_paths : List.NoDup (List.map path remoteEntries)) :
  forall r, In r (restoreDiff m localEntries remoteEntries) <->
    In r remoteEntries /\ notSelected m (path r) = false /\
    (~ In (path r) (List.map path localEntries) \/
     exists l, In l localEntries /\ path l = path r /\ hash l <> hash r).
Proof.
  unfold restoreDiff.
  rewrite (JsMapFacts.of_entries _ local_paths), (JsMapFacts.of_entries _ remote_paths).
  rewrite restoreStep_fold. cbn [app].
  set (lm := byPathPairs localEntries).
  assert (forall p, JsMap.get lm p = None <-> ~ In p (List.map path localEntries)) as Hnone
    by (intros p; apply JsMapFacts.get_entries_None; exact local_paths).
  assert (forall p l, JsMap.get lm p = Some l <-> In l localEntries /\ path l = p) as Hsome
    by (intros p l; apply JsMapFacts.get_entries_Some; exact local_paths).
  intros r. rewrite in_flat_map. split.
  - intros (r' & Hin & Hd). unfold restoreOf in Hd.
    destruct (notSelected m (path r')) eqn:Es; [destruct Hd |].
    destruct (JsMap.get lm (path r')) as [l |] eqn:El.
    + destruct (String.eqb_spec (hash l) (hash r')) as [Eh | Eh]; [destruct Hd |].
      destruct Hd as [<- | []]. apply Hsome in El. destruct El as [Hl Hp].
      split; [exact Hin |]. split; [exact Es |]. right. exists l. repeat split; assumption.
    + destruct Hd as [<- | []]. split; [exact Hin |]. split; [exact Es |].
      left. apply Hnone. exact El.
  - intros (Hin & Es & Hcase). exists r. split; [exact Hin |].
    unfold restoreOf. rewrite Es. destruct Hcase as [Hno | (l & Hl & Hp & Hh)].
    + rewrite (proj2 (Hnone (path r)) Hno). left. reflexivity.
    + rewrite (proj2 (Hsome (path r) l) (conj Hl Hp)).
      rewrite (proj2 (String.eqb_neq _ _) Hh). left. reflexivity.
Qed.

Lemma restore_overwrites_whatever_differs_witness :
  In (mkFileEntry "a.txt" "r1" 1 10 false) (restoreDiff None newerLocal olderRemote) <->
    In (mkFileEntry "a.txt" "r1" 1 10 false) olderRemote /\
    notSelected None (path (mkFileEntry "a.txt" "r1" 1 10 false)) = false /\
    (~ In (path (mkFileEntry "a.txt" "r1" 1 10 false)) (List.map path newerLocal) \/
     exists l, In l newerLocal /\ path l = path (mkFileEntry "a.txt" "r1" 1 10 false) /\
               hash l <> hash (mkFileEntry "a.txt" "r1" 1 10 false)).
Proof.
  apply (restore_overwrites_whatever_differs None newerLocal olderRemote);
    repeat (apply List.NoDup_cons; [simpl; intuition discriminate |]); constructor.
Defined.

(** A conflict whose resolution brings the remote entry in. *)
Definition takesRemote (resolutionMap : @JsMap.t Resolution) (c : Conflict) : bool :=
  match JsMap.get resolutionMap (c_path c) with
  | Some keep_remote | Some keep_both => true
  | _ => false
  end.

Definition renamedAside (resolutionMap : @JsMap.t Resolution) (c : Conflict) : bool :=
  match JsMap.get resolutionMap (c_path c) with
  | Some keep_both => true
  | _ => false
  end.

(** X27.  Applying resolutions when every rename succeeds: the remote
    entries of the conflicts resolved [keep_remote] or [keep_both] are added
    to the downloads in order, the local files of the [keep_both] ones are
    renamed first, and a conflict with no resolution for its path is treated
    as [keep_local]: nothing is downloaded or renamed for it. *)
Theorem applyResolutions_unresolved_is_keep_local
    (env : Env) (localPath : string) (resolutionMap : @JsMap.t Resolution)
    (cfs : list Conflict) (filesToDownload : list FileEntry)
    (renames_succeed : forall src dst, renameFile env src dst = Returned tt) :
  applyResolutions env localPath resolutionMap cfs filesToDownload
  = (Returned (filesToDownload
               ++ List.map remoteEntry (List.filter (takesRemote resolutionMap) cfs)),
     List.map (fun c => EvRename (join localPath (c_path c))
                                 (join localPath (conflictPathOf (c_path c))))
              (List.filter (renamedAside resolutionMap) cfs)).
Proof.
  revert filesToDownload. induction cfs as [| c cfs IH]; intros dl.
  - simpl. rewrite List.app_nil_r. reflexivity.
  - cbn [applyResolutions List.filter]. unfold takesRemote at 1, renamedAside at 1.
    destruct (JsMap.get resolutionMap (c_path c)) as [[| |] |].
    + apply IH.
    + rewrite IH. cbn [List.map]. rewrite <- List.app_assoc. reflexivity.
    + rewrite renames_succeed, IH. cbn [List.map]. rewrite <- List.app_assoc. reflexivity.
    + apply IH.
Qed.

Definition obligingEnv : Env :=
  mkEnv StorageProps.lengthDigest StorageProps.frame JsString.compareBytes
        (fun _ _ => false) (Returned tt) (Returned tt) (Returned ([], 0)) ∅
        (fun _ _ => Returned tt) "s9" 50.

Definition twoConflicts : list Conflict :=
  [mkConflict "a.txt" (mkFileEntry "a.txt" "l1" 1 15 false) (mkFileEntry "a.txt" "r1" 1 10 false) 15 10;
   mkConflict "b.txt" (mkFileEntry "b.txt" "l2" 1 25 false) (mkFileEntry "b.txt" "r2" 1 20 false) 25 20].

Lemma applyResolutions_unresolved_is_keep_local_witness :
  applyResolutions obligingEnv "/p" (JsMap.of_pairs [("a.txt"%string, keep_both)]) twoConflicts []
  = (Returned ([] ++ List.map remoteEntry
                 (List.filter (takesRemote (JsMap.of_pairs [("a.txt"%string, keep_both)]))
                              twoConflicts)),
     List.map (fun c => EvRename (join "/p" (c_path c)) (join "/p" (conflictPathOf (c_path c))))
              (List.filter (renamedAside (JsMap.of_pairs [("a.txt"%string, keep_both)]))
                           twoConflicts)).
Proof.
  apply (applyResolutions_unresolved_is_keep_local obligingEnv "/p"
           (JsMap.of_pairs [("a.txt"%string, keep_both)]) twoConflicts []).
  intros src dst. reflexivity.
Defined.

End SyncDiffProps.

(** ** sync.ts: what push leaves in the store; status; single-file restore *)

Module SyncPushProps.
Import Scanner Sync SyncQueries.

Lemma storeFile_result (xxh64 : list byte -> N) (gzip : list byte -> list byte)
    (st st' : Storage.ContentStorage) (fs : Storage.LocalFs) (sourcePath : string) (now : Z)
    (out : Outcome string) :
  Storage.storeFile xxh64 gzip st fs sourcePath now = (out, st') ->
  (forall h, Storage.exists_ st h = true -> Storage.exists_ st' h = true) /\
  (forall key, out = Returned key ->
     exists content, fs !! sourcePath = Some content /\
                     key = Hasher.hashFile xxh64 content /\
                     Storage.exists_ st' key = true).
Proof.
  unfold Storage.storeFile. intros H.
  destruct (fs !! sourcePath) as [content |]; [| injection H as <- <-; split; [auto | discriminate]].
  set (hash := Hasher.hashFile xxh64 content) in *.
  destruct (Storage.exists_ st hash) eqn:E.
  - injection H as <- <-. split; [auto |]. intros key Hk. injection Hk as <-.
    exists content. repeat split. exact E.
  - assert (forall files,
              files = match Storage.objects st !! Storage.prefixOf hash with
                      | Some (Storage.Dir fl) => fl
                      | _ => ∅
                      end ->
              match Storage.objects st !! Storage.prefixOf hash with
              | Some (Storage.File _) => False
              | _ => True
              end ->
              forall temp',
              let st1 := Storage.mkStorage
                           (<[Storage.prefixOf hash
                              := Storage.Dir (<[hash := gzip content]> files)]> (Storage.objects st))
                           temp' in
              (forall h, Storage.exists_ st h = true -> Storage.exists_ st1 h = true) /\
              Storage.exists_ st1 hash = true) as Hnew.
    { intros files Hfiles Hnode temp' st1. split.
      - intros h. unfold Storage.exists_, Storage.blobAt. cbn [Storage.objects st1].
        destruct (decide (Storage.prefixOf h = Storage.prefixOf hash)) as [Ep | Ep].
        + rewrite Ep, lookup_insert_eq.
          destruct (decide (h = hash)) as [-> | Hh]; [rewrite lookup_insert_eq; reflexivity |].
          rewrite lookup_insert_ne by congruence.
          destruct (Storage.objects st !! Storage.prefixOf hash) as [[c | fl] |]; subst files;
            [destruct Hnode | auto | discriminate].
        + rewrite lookup_insert_ne by congruence. auto.
      - unfold Storage.exists_, Storage.blobAt. cbn [Storage.objects st1].
        rewrite !lookup_insert_eq. reflexivity. }
    destruct (Storage.objects st !! Storage.prefixOf hash) as [[c | fl] |] eqn:Ep.
    + injection H as <- <-. split; [auto | discriminate].
    + injection H as <- <-. destruct (Hnew fl eq_refl I
        (delete (Storage.tempName hash now)
                (<[Storage.tempName hash now := gzip content]> (Storage.temp st)))) as [H1 H2].
      split; [exact H1 |]. intros key Hk. injection Hk as <-.
      exists content. repeat split. exact H2.
    + injection H as <- <-. destruct (Hnew ∅ eq_refl I
        (delete (Storage.tempName hash now)
                (<[Storage.tempName hash now := gzip content]> (Storage.temp st)))) as [H1 H2].
      split; [exact H1 |]. intros key Hk. injection Hk as <-.
      exists content. repeat split. exact H2.
Qed.

(** The file at an entry's path hashes to the entry's hash. *)
Definition readsAs (env : Env) (fs : Storage.LocalFs) (localPath : string) (e : FileEntry) : Prop :=
  exists content, fs !! join localPath (path e) = Some content /\
                  Hasher.hashFile (xxh64 env) content = hash e.

Lemma transferAll_result (env : Env) (fs : Storage.LocalFs) (localPath : string)
    (files : list FileEntry) :
  forall (st st' : Storage.ContentStorage) (out : Outcome unit),
    transferAll env st fs localPath files = (out, st') ->
    (forall h, Storage.exists_ st h = true -> Storage.exists_ st' h = true) /\
    (out = Returned tt ->
     forall f, In f files -> readsAs env fs localPath f -> Storage.exists_ st' (hash f) = true).
Proof.
  induction files as [| file rest IH]; intros st st' out H.
  - simpl in H. injection H as <- <-. split; [auto | intros _ f []].
  - cbn [transferAll] in H. destruct (Storage.exists_ st (hash file)) eqn:E.
    + destruct (IH _ _ _ H) as [Hmono Hall]. split; [exact Hmono |].
      intros Hout f [<- | Hin] Hread; [apply Hmono; exact E | exact (Hall Hout f Hin Hread)].
    + destruct (Storage.storeFile (xxh64 env) (gzip env) st fs (join localPath (path file)) (now env))
        as [[key | e] st1] eqn:Es.
      * destruct (storeFile_result _ _ _ _ _ _ _ _ Es) as [Hmono1 Hkey].
        destruct (IH _ _ _ H) as [Hmono Hall]. split; [auto |].
        intros Hout f [<- | Hin] Hread; [| exact (Hall Hout f Hin Hread)].
        destruct (Hkey key eq_refl) as (content & Hc & -> & Hex).
        destruct Hread as (content' & Hc' & Hh). rewrite Hc in Hc'. injection Hc' as <-.
        apply Hmono. rewrite <- Hh. exact Hex.
      * injection H as <- <-. destruct (storeFile_result _ _ _ _ _ _ _ _ Es) as [Hmono1 _].
        split; [exact Hmono1 | discriminate].
Qed.

Lemma of_pairs_fold_values (es : list FileEntry) (m : @JsMap.t FileEntry) (P : FileEntry -> Prop) :
  (forall k e, In (k, e) m -> P e) -> (forall e, In e es -> P e) ->
  forall k e,
    In (k, e) (List.fold_left (fun m kv => JsMap.set m (fst kv) (snd kv)) (byPathPairs es) m) ->
    P e.
Proof.
  revert m. induction es as [| x es IH]; intros m Hm Hes k e Hin; [exact (Hm k e Hin) |].
  cbn [byPathPairs List.map List.fold_left fst snd] in Hin. fold (byPathPairs es) in Hin.
  apply (IH (JsMap.set m (path x) x)) with (k := k); [| | exact Hin].
  - clear - Hm Hes. induction m as [| [k' v'] m IHm]; intros k e Hin.
    + destruct Hin as [Heq | []]. injection Heq as <- <-. apply Hes. left. reflexivity.
    + cbn [JsMap.set] in Hin. destruct (String.eqb k' (path x)).
      * destruct Hin as [Heq | Hin].
        -- injection Heq as <- <-. apply Hes. left. reflexivity.
        -- apply (Hm k e). right. exact Hin.
      * destruct Hin as [Heq | Hin].
        -- apply (Hm k e). left. exact Heq.
        -- apply (IHm (fun k0 e0 H0 => Hm k0 e0 (or_intror H0)) k e Hin).
  - intros e0 H0. apply Hes. right. exact H0.
Qed.

Lemma get_in {V : Type} (m : @JsMap.t V) (k : string) (v : V) :
  JsMap.get m k = Some v -> exists k', In (k', v) m.
Proof.
  induction m as [| [k' v'] m IH]; intros H; [discriminate H |].
  cbn [JsMap.get] in H. destruct (String.eqb k' k).
  - injection H as <-. exists k'. left. reflexivity.
  - destruct (IH H) as (k0 & Hk0). exists k0. right. exact Hk0.
Qed.

(** Every local entry that [push] does not transfer has the hash of some
    remote entry. *)
Lemma not_transferred_is_remote (local remote : FileManifest) (e : FileEntry) :
  List.NoDup (List.map path (entries local)) ->
  In e (entries local) ->
  In e (added (compareManifests local remote) ++ modified (compareManifests local remote)) \/
  exists r, In r (entries remote) /\ hash r = hash e.
Proof.
  intros Hnd Hin. unfold compareManifests. rewrite (JsMapFacts.of_entries _ Hnd).
  rewrite ScannerProps.compareStep_fold. cbn [added modified app].
  set (rm := JsMap.of_pairs (byPathPairs (entries remote))).
  destruct (JsMap.get rm (path e)) as [r |] eqn:E.
  - destruct (String.eqb_spec (hash e) (hash r)) as [Eh | Eh].
    + right. exists r. split; [| congruence].
      destruct (get_in _ _ _ E) as (k & Hk).
      apply (of_pairs_fold_values (entries remote) [] (fun x => In x (entries remote)))
        with (k := k); [intros ? ? [] | auto | exact Hk].
    + left. apply in_or_app. right. apply filter_In. split; [exact Hin |].
      unfold ScannerProps.isModified. rewrite E. apply negb_true_iff, String.eqb_neq. exact Eh.
  - left. apply in_or_app. left. apply filter_In. split; [exact Hin |].
    unfold ScannerProps.isAdded. rewrite E. reflexivity.
Qed.

(** X28.  A [push] never removes a blob, and a successful [push] leaves
    the blob of every scanned entry in the store, provided the scan found
    distinct paths, each scanned file hashes to the hash recorded for it, and
    the blobs of the previous snapshot of the branch were in the store. *)
Theorem push_leaves_every_blob_in_store
    (env : Env) (d : Db.NetworkSyncDb) (st : Storage.ContentStorage) (fs : Storage.LocalFs)
    (project : Project) (localPath machineName message branch : string)
    (scanResult : ScanResult) (result : PushResult)
    (scanned : fst (scanLocal env localPath) = Returned scanResult)
    (distinct : List.NoDup (List.map path (sr_entries scanResult)))
    (as_scanned : forall e, In e (sr_entries scanResult) -> readsAs env fs localPath e)
    (previous_stored :
       forall sn es, Db.getLatestSnapshot d (p_id project) branch = Returned (Some sn) ->
                     Db.getSnapshotEntries d (s_id sn) = Returned es ->
                     forall r, In r es -> Storage.exists_ st (hash r) = true)
    (returned : run_out (push env d st fs project localPath machineName message branch)
                = Returned result)
    (succeeded : push_success result = true) :
  (forall h, Storage.exists_ st h = true ->
     Storage.exists_
       (run_storage (push env d st fs project localPath machineName message branch)) h = true) /\
  (forall e, In e (sr_entries scanResult) ->
     Storage.exists_
       (run_storage (push env d st fs project localPath machineName message branch))
       (hash e) = true).
Proof.
  unfold push in *. destruct (acquire env); [| discriminate returned].
  cbn [run_out run_storage] in *. unfold settle in returned.
  destruct (release env); [| discriminate returned].
  injection returned as Hres.
  unfold pushBody in *. rewrite scanned in *.
  destruct (Db.getLatestSnapshot d (p_id project) branch) as [latest | e0] eqn:El;
    [| subst result; discriminate succeeded].
  set (remoteOut := match latest with
                    | Some sn => Db.getSnapshotEntries d (s_id sn)
                    | None => Returned []
                    end) in *.
  destruct remoteOut as [remoteEntries | e0] eqn:Er; [| subst result; discriminate succeeded].
  assert (forall r, In r remoteEntries -> Storage.exists_ st (hash r) = true) as Hprev.
  { subst remoteOut. destruct latest as [sn |].
    - exact (previous_stored sn remoteEntries eq_refl Er).
    - injection Er as <-. intros r []. }
  cbn [entries buildManifest] in *.
  set (localManifest := buildManifest (localeCompare env) (p_id project) scanResult) in *.
  match type of Hres with
  | context [compareManifests localManifest ?rm] => set (remoteManifest := rm) in *
  end.
  destruct (transferAll env st fs localPath
              (added (compareManifests localManifest remoteManifest)
               ++ modified (compareManifests localManifest remoteManifest)))
    as [[[] | e0] st'] eqn:Et; [| subst result; discriminate succeeded].
  destruct (transferAll_result _ _ _ _ _ _ _ Et) as [Hmono Hall].
  match goal with
  | |- context [run_storage ?run] => assert (run_storage run = st') as ->
  end.
  { destruct (Db.res_out (Db.createSnapshot _ _ _ _)); [| reflexivity].
    destruct (Db.res_out (Db.updateProject _ _ _)); reflexivity. }
  split; [exact Hmono |].
  intros e He.
  destruct (not_transferred_is_remote localManifest remoteManifest e distinct He)
    as [Hin | (r & Hr & Hh)].
  - exact (Hall eq_refl e Hin (as_scanned e He)).
  - apply Hmono. rewrite <- Hh. apply Hprev. exact Hr.
Qed.

Definition oneFileEnv : Env :=
  mkEnv StorageProps.lengthDigest StorageProps.frame JsString.compareBytes
        (fun _ _ => false) (Returned tt) (Returned tt)
        (Returned ([mkWalked "a.txt" 10 5 StorageProps.helloBytes], 0)) ∅
        (fun _ _ => Returned tt) "s9" 50.

Definition oneFileTree : Storage.LocalFs := {["/p/a.txt"%string := StorageProps.helloBytes]}.

Lemma oneFileTree_as_scanned (e : FileEntry) :
  In e [mkFileEntry "a.txt" (Hasher.hashFile StorageProps.lengthDigest StorageProps.helloBytes)
                    5 10 false] ->
  readsAs oneFileEnv oneFileTree "/p" e.
Proof.
  intros [<- | []]. exists StorageProps.helloBytes. split; reflexivity.
Qed.

Lemma push_leaves_every_blob_in_store_witness :
  (forall h, Storage.exists_ (Storage.mkStorage ∅ ∅) h = true ->
     Storage.exists_
       (run_storage (push oneFileEnv DbSnapshotProps.projectDb (Storage.mkStorage ∅ ∅) oneFileTree
                          DbProps.sampleProject "/p" "A" "Sync" "main")) h = true) /\
  (forall e,
     In e [mkFileEntry "a.txt" (Hasher.hashFile StorageProps.lengthDigest StorageProps.helloBytes)
                       5 10 false] ->
     Storage.exists_
       (run_storage (push oneFileEnv DbSnapshotProps.projectDb (Storage.mkStorage ∅ ∅) oneFileTree
                          DbProps.sampleProject "/p" "A" "Sync" "main"))
       (hash e) = true).
Proof.
  eapply (push_leaves_every_blob_in_store oneFileEnv DbSnapshotProps.projectDb
            (Storage.mkStorage ∅ ∅) oneFileTree DbProps.sampleProject "/p" "A" "Sync" "main"
            (mkScanResult
               [mkFileEntry "a.txt"
                  (Hasher.hashFile StorageProps.lengthDigest StorageProps.helloBytes) 5 10 false]
               5 1 0 50)).
  - reflexivity.
  - repeat (apply List.NoDup_cons; [simpl; intuition discriminate |]); constructor.
  - exact oneFileTree_as_scanned.
  - intros sn es Hlatest. discriminate Hlatest.
  - reflexivity.
  - reflexivity.
Defined.




(** X30.  [getStatus] shows what a [push] of the same tree against the
    same catalog reports: when both complete and the push succeeds, its
    counts of added, modified and deleted files are the lengths of the lists
    of the status, and the bytes it reports are the sizes of the added and
    modified entries, whatever the store already held. *)
Theorem push_reports_what_getStatus_shows
    (env : Env) (d : Db.NetworkSyncDb) (st : Storage.ContentStorage) (fs : Storage.LocalFs)
    (project : Project) (localPath machineName message branch : string)
    (status : Status) (result : PushResult)
    (shown : fst (getStatus env d project localPath branch) = Returned status)
    (returned : run_out (push env d st fs project localPath machineName message branch)
                = Returned result)
    (succeeded : push_success result = true) :
  filesAdded result = Z.of_nat (length (st_added status)) /\
  filesModified result = Z.of_nat (length (st_modified status)) /\
  push_filesDeleted result = Z.of_nat (length (st_deleted status)) /\
  push_bytesTransferred result = sumSizes (st_added status ++ st_modified status).
Proof.
  unfold push in returned. destruct (acquire env); [| discriminate returned].
  cbn [run_out] in returned. unfold settle in returned.
  destruct (release env); [| discriminate returned].
  injection returned as Hres.
  unfold getStatus in shown. unfold pushBody in Hres.
  destruct (scanLocal env localPath) as [[scanResult | e0] ev0]; cbn [fst] in *;
    [| discriminate shown].
  destruct (Db.getLatestSnapshot d (p_id project) branch) as [latest | e0];
    [| discriminate shown].
  destruct (match latest with
            | Some sn => Db.getSnapshotEntries d (s_id sn)
            | None => Returned []
            end) as [remoteEntries | e0]; [| discriminate shown].
  cbn [fst] in shown. injection shown as <-. cbn [st_added st_modified st_deleted].
  destruct (transferAll _ _ _ _ _) as [[[] | e0] st']; [| subst result; discriminate succeeded].
  destruct (Db.res_out (Db.createSnapshot _ _ _ _)); [| subst result; discriminate succeeded].
  destruct (Db.res_out (Db.updateProject _ _ _)); [| subst result; discriminate succeeded].
  cbn [run_out] in Hres. subst result. repeat split.
Qed.

Lemma push_reports_what_getStatus_shows_witness :
  exists status result,
    fst (getStatus oneFileEnv DbSnapshotProps.projectDb DbProps.sampleProject "/p" "main")
    = Returned status /\
    run_out (push oneFileEnv DbSnapshotProps.projectDb (Storage.mkStorage ∅ ∅) oneFileTree
                  DbProps.sampleProject "/p" "A" "Sync" "main") = Returned result /\
    filesAdded result = Z.of_nat (length (st_added status)) /\
    filesModified result = Z.of_nat (length (st_modified status)) /\
    push_filesDeleted result = Z.of_nat (length (st_deleted status)) /\
    push_bytesTransferred result = sumSizes (st_added status ++ st_modified status).
Proof.
  eexists. eexists. split; [reflexivity |]. split; [reflexivity |].
  eapply (push_reports_what_getStatus_shows oneFileEnv DbSnapshotProps.projectDb
            (Storage.mkStorage ∅ ∅) oneFileTree DbProps.sampleProject "/p" "A" "Sync" "main");
    reflexivity.
Defined.

End SyncPushProps.
